(** * Verification of the JustRAIGS image preprocessing script

    Shallow embedding of [Preprocessing/Images_Preprocessing.py]:
    [trim_and_resize] (crop the dark margins, resize, pad to a square),
    [apply_clahe] and the batch driver [process_and_save_images].

    Python floats and numpy float64 values are IEEE 754 binary64 numbers;
    they are modelled by [spec_float] with the correctly rounded operations
    of the standard library, so the arithmetic of the script is reproduced
    bit for bit.  The file system is a finite map from paths to file contents
    together with a finite set of directories.  The library routines whose
    results are pixel data (grey-level weights, Lanczos resampling, CLAHE,
    image decoding and encoding) are the fields of the [Backend] class, and
    so is what the machine lets Pillow allocate. *)

From Stdlib Require Import ZArith List SpecFloat String Ascii Bool Lia.
From stdpp Require Import gmap strings list.
Import ListNotations.
Open Scope Z_scope.

(** ** Exceptions and results *)

(** The exception classes the script can meet; all derive from Python's
    [Exception]. *)
Inductive exn : Type :=
| ValueError (msg : string)
| OverflowError (msg : string)
| TypeError (msg : string)
| CvError (msg : string)
| FileExistsError (msg : string)
| NotADirectoryError (msg : string)
| FileNotFoundError (msg : string)
| MemoryError (msg : string).

(** [str(e)], as interpolated by the f-string of the handler. *)
Definition str_exn (e : exn) : string :=
  match e with
  | ValueError m | OverflowError m | TypeError m | CvError m
  | FileExistsError m | NotADirectoryError m | FileNotFoundError m
  | MemoryError m => m
  end.

Inductive result (A : Type) : Type :=
| Ok (a : A)
| Raise (e : exn).
Arguments Ok {A} a.
Arguments Raise {A} e.

Definition rbind {A B} (r : result A) (k : A -> result B) : result B :=
  match r with
  | Ok a => k a
  | Raise e => Raise e
  end.

Declare Scope result_scope.
Delimit Scope result_scope with result.
Notation "'let*' x ':=' r 'in' k" := (rbind r (fun x => k))
  (at level 10, x pattern, r at level 100, k at level 200) : result_scope.

(** ** Binary64 arithmetic *)

Module Float64.

Definition prec : Z := 53.
Definition emax : Z := 1024.

(** Conversion of an integer, rounded to nearest even. *)
Definition of_int (z : Z) : spec_float := binary_normalize prec emax z 0 false.

Definition mul : spec_float -> spec_float -> spec_float := SFmul prec emax.
Definition div : spec_float -> spec_float -> spec_float := SFdiv prec emax.

(** [x > y]; false as soon as one side is NaN. *)
Definition gt (x y : spec_float) : bool := SFltb y x.

(** The literal [0.1]. *)
Definition lit_0_1 : spec_float := S754_finite false 7205759403792794 (-56).
(** The literal [0.02]. *)
Definition lit_0_02 : spec_float := S754_finite false 5764607523034235 (-58).

(** Python's [float(n)]: raises when [n] does not fit. *)
Definition py_float (n : Z) : result spec_float :=
  match of_int n with
  | S754_infinity _ => Raise (OverflowError "int too large to convert to float")
  | f => Ok f
  end.

(** Python's [int(x)]: truncation toward zero. *)
Definition py_int (x : spec_float) : result Z :=
  match x with
  | S754_zero _ => Ok 0
  | S754_finite s m e => Ok (cond_Zopp s (Z.shiftl (Zpos m) e))
  | S754_infinity _ => Raise (OverflowError "cannot convert float infinity to integer")
  | S754_nan => Raise (ValueError "cannot convert float NaN to integer")
  end.

(** Floats that are not negative numbers: the zeros, the positive numbers,
    plus infinity and NaN.  No such float is below zero. *)
Definition not_negative (x : spec_float) : Prop :=
  match x with
  | S754_zero _ | S754_nan => True
  | S754_infinity s | S754_finite s _ _ => s = false
  end.

End Float64.

(** ** Arrays and images *)

(** A pixel is the list of its channel values, each in 0..255. *)
Definition pixel : Type := list Z.

(** [img[row][col][channel]], as numpy stores an image of shape (H, W, C).
    A two-dimensional array of shape (H, W) is its one-channel form, which
    OpenCV treats in the same way. *)
Definition ndarray : Type := list (list pixel).

Definition shape0 (img : ndarray) : Z := Z.of_nat (length img).
Definition shape1 (img : ndarray) : Z := Z.of_nat (length (hd [] img)).
Definition channels (img : ndarray) : nat := length (hd [] (hd [] img)).

Inductive mode : Type := L | RGB | RGBA.

(** A PIL image; [im_size] is (width, height). *)
Record pil_image : Type := mk_image {
  im_mode : mode;
  im_size : Z * Z;
  im_data : list (list pixel)
}.

(** The routines of OpenCV and Pillow that compute pixel values, and what
    the machine lets Pillow allocate. *)
Class Backend : Type := {
  (** grey level of a (blue, green, red) triple, OpenCV's integer
      approximation of 0.114 B + 0.587 G + 0.299 R *)
  luma : Z -> Z -> Z -> Z;
  luma_black : luma 0 0 0 = 0;
  (** Lanczos resampling of pixel data to a given (width, height) *)
  lanczos : list (list pixel) -> Z * Z -> list (list pixel);
  (** the text of the [OverflowError] raised for a Python integer that does
      not fit the C [int] Pillow takes it as *)
  c_int_message : Z -> string;
  (** can an image of the first size be resampled to the second size, and
      can a canvas of a size be made, without running out of memory? *)
  resize_allocates : Z * Z -> Z * Z -> bool;
  canvas_allocates : Z * Z -> bool;
  (** [clahe.apply] on one channel plane, for a clip limit and a tile grid *)
  clahe_apply : spec_float -> Z * Z -> list (list Z) -> result (list (list Z));
  (** decoding of a file's bytes: [None] when they are not an image *)
  imdecode : list Byte.byte -> result (option ndarray);
  (** encoding for the extension of a file name *)
  imencode : string -> ndarray -> result (list Byte.byte)
}.

Section Imaging.
Context `{B : Backend}.
Local Open Scope result_scope.

(** *** OpenCV and numpy primitives *)

Definition bgr2gray (p : pixel) : Z :=
  match p with
  | b :: g :: r :: _ => luma b g r
  | _ => 0
  end.

(** [cv2.cvtColor(img, cv2.COLOR_BGR2GRAY)]: the source must be non-empty
    and have three or four channels. *)
Definition cvtColor_BGR2GRAY (img : ndarray) : result (list (list Z)) :=
  if (shape0 img =? 0) || (shape1 img =? 0) then
    Raise (CvError "(-215:Assertion failed) !_src.empty() in function 'cvtColor'")
  else if (channels img =? 3)%nat || (channels img =? 4)%nat then
    Ok (map (map bgr2gray) img)
  else
    Raise (CvError "Invalid number of channels in input image").

(** [a[a != 0]] on a grey image, flattened in row-major order. *)
Definition nonzero_values (gray : list (list Z)) : list Z :=
  List.filter (fun v => negb (v =? 0)) (concat gray).

Definition sum_Z (l : list Z) : Z := fold_right Z.add 0 l.

(** [np.mean] of integer data: the sum is accumulated in float64 (exact
    below 2^53) and divided by the count; an empty selection gives
    0.0 / 0 = NaN, with a warning and no exception. *)
Definition np_mean (vals : list Z) : spec_float :=
  Float64.div (Float64.of_int (sum_Z vals))
              (Float64.of_int (Z.of_nat (length vals))).

Definition b2z (b : bool) : Z := if b then 1 else 0.

(** [np.sum(mask, axis=1)] and [np.sum(mask, axis=0)]. *)
Definition np_sum_axis1 (mask : list (list bool)) : list Z :=
  map (fun row => sum_Z (map b2z row)) mask.

Definition np_sum_axis0 (mask : list (list bool)) : list Z :=
  map (fun j => sum_Z (map (fun row => b2z (nth j row false)) mask))
      (seq 0 (length (hd [] mask))).

(** [np.where(cond)[0]]: the indices at which [cond] holds, ascending. *)
Definition np_where (cond : list bool) : list nat :=
  List.filter (fun i => nth i cond false) (seq 0 (length cond)).

(** [np.min] and [np.max] of a non-empty index array. *)
Definition np_min (l : list nat) : nat :=
  match l with
  | [] => 0%nat
  | x :: r => fold_left Nat.min r x
  end.

Definition np_max (l : list nat) : nat :=
  match l with
  | [] => 0%nat
  | x :: r => fold_left Nat.max r x
  end.

(** [l[lo:hi]] for 0 <= lo. *)
Definition slice {A} (lo hi : nat) (l : list A) : list A :=
  firstn (hi - lo) (skipn lo l).

(** [img[r0:r1, c0:c1]]. *)
Definition slice2 (r0 r1 c0 c1 : nat) (img : ndarray) : ndarray :=
  map (slice c0 c1) (slice r0 r1 img).

(** *** The margin analysis of [trim_and_resize], lines 22 to 33 *)

Definition percentage : spec_float := Float64.lit_0_02.

Definition threshold (img_gray : list (list Z)) : spec_float :=
  Float64.mul Float64.lit_0_1 (np_mean (nonzero_values img_gray)).

Definition im_binary (img_gray : list (list Z)) : list (list bool) :=
  map (map (fun v => Float64.gt (Float64.of_int v) (threshold img_gray))) img_gray.

Definition qualifying_rows (img : ndarray) (img_gray : list (list Z)) : list nat :=
  let row_sums := np_sum_axis1 (im_binary img_gray) in
  np_where (map (fun s => Float64.gt (Float64.of_int s)
                            (Float64.mul (Float64.of_int (shape1 img)) percentage))
                row_sums).

Definition qualifying_cols (img : ndarray) (img_gray : list (list Z)) : list nat :=
  let col_sums := np_sum_axis0 (im_binary img_gray) in
  np_where (map (fun s => Float64.gt (Float64.of_int s)
                            (Float64.mul (Float64.of_int (shape0 img)) percentage))
                col_sums).

Definition crop_to (rows cols : list nat) (img : ndarray) : ndarray :=
  match rows, cols with
  | _ :: _, _ :: _ =>
      let min_row := np_min rows in
      let min_col := np_min cols in
      let max_row := np_max rows in
      let max_col := np_max cols in
      slice2 min_row (max_row + 1) min_col (max_col + 1) img
  | _, _ => img
  end.

(** Lines 25 to 33: the analysis of the grey image and the crop of the
    colour image. *)
Definition crop_step (img : ndarray) (img_gray : list (list Z)) : ndarray :=
  let rows := qualifying_rows img img_gray in
  let cols := qualifying_cols img img_gray in
  crop_to rows cols img.

(** Lines 23 to 33. *)
Definition trim_margins (img : ndarray) : result ndarray :=
  let* img_gray := cvtColor_BGR2GRAY img in
  Ok (crop_step img img_gray).

(** *** Pillow primitives *)

Definition Image_fromarray (img : ndarray) : result pil_image :=
  match channels img with
  | 1%nat => Ok (mk_image L (shape1 img, shape0 img) img)
  | 3%nat => Ok (mk_image RGB (shape1 img, shape0 img) img)
  | 4%nat => Ok (mk_image RGBA (shape1 img, shape0 img) img)
  | _ => Raise (TypeError "Cannot handle this data type")
  end.

(** Pillow hands the sizes to its C core as C [int]s. *)
Definition INT_MAX : Z := 2147483647.
Definition INT_MIN : Z := -2147483648.

Definition fits_int (n : Z) : bool := (INT_MIN <=? n) && (n <=? INT_MAX).

(** The first component of a size that is no C [int], if there is one. *)
Definition int_overflow (size : Z * Z) : option Z :=
  if negb (fits_int (fst size)) then Some (fst size)
  else if negb (fits_int (snd size)) then Some (snd size)
  else None.

(** [im.resize(size, Image.LANCZOS)]: the size is parsed as two C [int]s,
    must be positive, and the result must fit in memory. *)
Definition Image_resize (im : pil_image) (size : Z * Z) : result pil_image :=
  match int_overflow size with
  | Some n => Raise (OverflowError (c_int_message n))
  | None =>
      if (fst size <? 1) || (snd size <? 1) then
        Raise (ValueError "height and width must be > 0")
      else if negb (resize_allocates (im_size im) size) then
        Raise (MemoryError "")
      else
        Ok (mk_image (im_mode im) size (lanczos (im_data im) size))
  end.

Definition black : pixel := [0; 0; 0].

(** [Image.new("RGB", (w, h))]: a black canvas.  Negative sizes are
    refused in Python, then the size is parsed as two C [int]s and the
    canvas is allocated. *)
Definition Image_new_RGB (size : Z * Z) : result pil_image :=
  if (fst size <? 0) || (snd size <? 0) then
    Raise (ValueError "Width and height must be >= 0")
  else
    match int_overflow size with
    | Some n => Raise (OverflowError (c_int_message n))
    | None =>
        if negb (canvas_allocates size) then Raise (MemoryError "")
        else
          Ok (mk_image RGB size
                (replicate (Z.to_nat (snd size)) (replicate (Z.to_nat (fst size)) black)))
    end.

(** The three colour bytes an RGB canvas keeps of a pasted pixel. *)
Definition to_rgb (p : pixel) : pixel := [nth 0 p 0; nth 1 p 0; nth 2 p 0].

(** Is canvas position [(x, y)] covered by a [w] by [h] box whose upper left
    corner is at [(x0, y0)]? *)
Definition in_box (x0 y0 w h x y : Z) : bool :=
  (x0 <=? x) && (x <? x0 + w) && (y0 <=? y) && (y <? y0 + h).

(** [canvas.paste(im, (x0, y0))]: the part of [im] that falls on the
    canvas replaces the pixels under it. *)
Definition Image_paste (canvas im : pil_image) (box : Z * Z) : pil_image :=
  let '(x0, y0) := box in
  let '(w, h) := im_size im in
  mk_image (im_mode canvas) (im_size canvas)
    (imap (fun y row =>
       imap (fun x old =>
         if in_box x0 y0 w h (Z.of_nat x) (Z.of_nat y) then
           to_rgb (nth (Z.to_nat (Z.of_nat x - x0))
                       (nth (Z.to_nat (Z.of_nat y - y0)) (im_data im) []) [])
         else old) row)
       (im_data canvas)).

(** *** The resize geometry, lines 35 to 37 *)

(** [float(output_size) / max(old_size)]. *)
Definition scale_ratio (output_size : Z) (old_size : Z * Z) : result spec_float :=
  let* s := Float64.py_float output_size in
  Ok (Float64.div s (Float64.of_int (Z.max (fst old_size) (snd old_size)))).

(** [tuple([int(x * ratio) for x in old_size])]. *)
Definition scaled_size (old_size : Z * Z) (ratio : spec_float) : result (Z * Z) :=
  let* w := Float64.py_int (Float64.mul (Float64.of_int (fst old_size)) ratio) in
  let* h := Float64.py_int (Float64.mul (Float64.of_int (snd old_size)) ratio) in
  Ok (w, h).

Definition paste_offset (output_size : Z) (new_size : Z * Z) : Z * Z :=
  ((output_size - fst new_size) / 2, (output_size - snd new_size) / 2).

(** The size handed to [resize] for an input image: lines 23 to 37. *)
Definition resize_target (im : ndarray) (output_size : Z) : result (Z * Z) :=
  let* img := trim_margins im in
  let* im_pil := Image_fromarray img in
  let old_size := im_size im_pil in
  let* ratio := scale_ratio output_size old_size in
  scaled_size old_size ratio.

(** *** [trim_and_resize] *)

Definition trim_and_resize (im : ndarray) (output_size : Z) : result pil_image :=
  let* img := trim_margins im in
  let* im_pil := Image_fromarray img in
  let old_size := im_size im_pil in
  let* ratio := scale_ratio output_size old_size in
  let* new_size := scaled_size old_size ratio in
  let* im_resized := Image_resize im_pil new_size in
  let* new_im := Image_new_RGB (output_size, output_size) in
  Ok (Image_paste new_im im_resized (paste_offset output_size new_size)).

(** *** [apply_clahe] *)

Definition swap_rb (p : pixel) : pixel := [nth 2 p 0; nth 1 p 0; nth 0 p 0].

(** [cv2.cvtColor(a, cv2.COLOR_RGB2BGR)] and [cv2.COLOR_BGR2RGB]: the same
    exchange of the first and third channel; the result has three
    channels. *)
Definition cvtColor_swap (img : ndarray) : result ndarray :=
  if (shape0 img =? 0) || (shape1 img =? 0) then
    Raise (CvError "(-215:Assertion failed) !_src.empty() in function 'cvtColor'")
  else if (channels img =? 3)%nat || (channels img =? 4)%nat then
    Ok (map (map swap_rb) img)
  else
    Raise (CvError "Invalid number of channels in input image").

(** [cv2.split]: one plane per channel. *)
Definition cv2_split (img : ndarray) : list (list (list Z)) :=
  map (fun k => map (map (fun p => nth k p 0)) img) (seq 0 (channels img)).

Definition plane_shape (p : list (list Z)) : list nat := map (@length Z) p.

(** [cv2.merge] of three planes, which must have one size. *)
Definition cv2_merge3 (p0 p1 p2 : list (list Z)) : result ndarray :=
  if bool_decide (plane_shape p0 = plane_shape p1 /\ plane_shape p0 = plane_shape p2) then
    Ok (imap (fun i row0 =>
          imap (fun j v0 => [v0; nth j (nth i p1 []) 0; nth j (nth i p2 []) 0]) row0) p0)
  else
    Raise (CvError "(-215:Assertion failed) mv[i].size == mv[0].size in function 'merge'").

Definition default_clip_limit : spec_float := Float64.of_int 3.
Definition default_tile_grid_size : Z * Z := (8, 8).

Definition apply_clahe_with (img : pil_image) (clip_limit : spec_float)
    (tile_grid_size : Z * Z) : result ndarray :=
  let* img := cvtColor_swap (im_data img) in
  match cv2_split img with
  | [r; g; b] =>
      let clahe := clahe_apply clip_limit tile_grid_size in
      let* r_clahe := clahe r in
      let* g_clahe := clahe g in
      let* b_clahe := clahe b in
      let* clahe_img := cv2_merge3 r_clahe g_clahe b_clahe in
      cvtColor_swap clahe_img
  | _ =>
      Raise (ValueError "not enough values to unpack (expected 3)")
  end.

Definition apply_clahe (img : pil_image) : result ndarray :=
  apply_clahe_with img default_clip_limit default_tile_grid_size.

End Imaging.

(** ** Strings and paths *)

Definition lower_ascii (c : ascii) : ascii :=
  let n := nat_of_ascii c in
  if ((65 <=? n) && (n <=? 90))%nat then ascii_of_nat (n + 32) else c.

(** [s.lower()], on ASCII names. *)
Fixpoint lower (s : string) : string :=
  match s with
  | EmptyString => EmptyString
  | String c r => String (lower_ascii c) (lower r)
  end.

(** [s.endswith(suf)]. *)
Definition endswith (s suf : string) : bool :=
  bool_decide (list_ascii_of_string suf `suffix_of` list_ascii_of_string s).

Definition image_extensions : list string := [".png"; ".jpg"; ".jpeg"].

(** [f.lower().endswith(('.png', '.jpg', '.jpeg'))]. *)
Definition is_image_name (f : string) : bool :=
  existsb (endswith (lower f)) image_extensions.

(** A path is the list of its components; [os.path.join] appends
    components and [os.path.dirname] drops the last one. *)
Definition path : Type := list string.

Definition dirname (p : path) : path := removelast p.
Definition basename (p : path) : string := List.last p "".

(** The text of a path, as it appears in the messages. *)
Definition path_str (p : path) : string := String.concat "/" p.

(** ** The file system *)

Record filesystem : Type := mk_fs {
  fs_dirs : gset path;
  fs_files : gmap path (list Byte.byte)
}.

Definition is_dir (fs : filesystem) (p : path) : bool :=
  bool_decide (p = [] \/ p ∈ fs_dirs fs).

Definition is_file (fs : filesystem) (p : path) : bool :=
  bool_decide (is_Some (fs_files fs !! p)).

Definition path_exists (fs : filesystem) (p : path) : bool :=
  is_dir fs p || is_file fs p.

(** [os.mkdir]. *)
Definition mkdir (p : path) (fs : filesystem) : result filesystem :=
  if path_exists fs p then
    Raise (FileExistsError ("[Errno 17] File exists: '" +:+ path_str p +:+ "'"))
  else if is_dir fs (dirname p) then
    Ok (mk_fs ({[ p ]} ∪ fs_dirs fs) (fs_files fs))
  else if is_file fs (dirname p) then
    Raise (NotADirectoryError ("[Errno 20] Not a directory: '" +:+ path_str p +:+ "'"))
  else
    Raise (FileNotFoundError ("[Errno 2] No such file or directory: '" +:+ path_str p +:+ "'")).

(** The non-empty proper prefixes of a path, shortest first. *)
Definition ancestors (p : path) : list path :=
  map (fun n => firstn n p) (seq 1 (length p - 1)).

Fixpoint mkdir_missing (ps : list path) (fs : filesystem) : result filesystem :=
  match ps with
  | [] => Ok fs
  | p :: rest =>
      if path_exists fs p then mkdir_missing rest fs
      else match mkdir p fs with
           | Ok fs' => mkdir_missing rest fs'
           | Raise e => Raise e
           end
  end.

(** [os.makedirs(p)]: the missing ancestors are created from the top, then
    [p] itself, which must not exist. *)
Definition makedirs (p : path) (fs : filesystem) : result filesystem :=
  match mkdir_missing (ancestors p) fs with
  | Ok fs' => mkdir p fs'
  | Raise e => Raise e
  end.

(** The names [os.listdir] returns for a directory. *)
Definition children (fs : filesystem) (p : path) : list string :=
  map basename
    (List.filter (fun q => bool_decide (q <> [] /\ dirname q = p))
       (elements (fs_dirs fs ∪ dom (fs_files fs)))).

Definition listdir (fs : filesystem) (p : path) : result (list string) :=
  if is_dir fs p then Ok (children fs p)
  else if is_file fs p then
    Raise (NotADirectoryError ("[Errno 20] Not a directory: '" +:+ path_str p +:+ "'"))
  else
    Raise (FileNotFoundError ("[Errno 2] No such file or directory: '" +:+ path_str p +:+ "'")).

(** ** The batch driver *)

(** The calls the driver makes, in the order it makes them. *)
Inductive event : Type :=
| E_exists (p : path)
| E_makedirs (p : path)
| E_listdir (p : path)
| E_imread (p : path)
| E_trim_and_resize
| E_apply_clahe
| E_imwrite (p : path)
| E_print (msg : string).

Record world : Type := mk_world {
  w_fs : filesystem;
  w_trace : list event
}.

(** Computations of the driver: they read and change the world and return a
    value or raise. *)
Definition M (A : Type) : Type := world -> result A * world.

Definition ret {A} (a : A) : M A := fun w => (Ok a, w).

Definition bind {A B} (m : M A) (k : A -> M B) : M B :=
  fun w => match m w with
           | (Ok a, w') => k a w'
           | (Raise e, w') => (Raise e, w')
           end.

(** [try: body except Exception as e: handler(e)]. *)
Definition try_except {A} (body : M A) (handler : exn -> M A) : M A :=
  fun w => match body w with
           | (Ok a, w') => (Ok a, w')
           | (Raise e, w') => handler e w'
           end.

Declare Scope driver_scope.
Delimit Scope driver_scope with driver.
Notation "x <- m ;; k" := (bind m (fun x => k))
  (at level 100, m at next level, right associativity) : driver_scope.
Notation "m ;; k" := (bind m (fun _ => k))
  (at level 100, right associativity) : driver_scope.

Fixpoint for_each {A} (l : list A) (body : A -> M unit) : M unit :=
  match l with
  | [] => ret tt
  | x :: rest => bind (body x) (fun _ => for_each rest body)
  end.

(** The world after further calls that leave the file system alone. *)
Definition with_events (w : world) (evs : list event) : world :=
  mk_world (w_fs w) (w_trace w ++ evs).

Definition log (e : event) (w : world) : world := with_events w [e].

Definition os_path_exists (p : path) : M bool :=
  fun w => (Ok (path_exists (w_fs w) p), log (E_exists p) w).

Definition os_makedirs (p : path) : M unit :=
  fun w => match makedirs p (w_fs w) with
           | Ok fs' => (Ok tt, mk_world fs' (w_trace w ++ [E_makedirs p]))
           | Raise e => (Raise e, log (E_makedirs p) w)
           end.

Definition os_listdir (p : path) : M (list string) :=
  fun w => (listdir (w_fs w) p, log (E_listdir p) w).

Definition print (msg : string) : M unit :=
  fun w => (Ok tt, log (E_print msg) w).

(** A call of a function of the script that touches no file. *)
Definition call {A} (e : event) (r : result A) : M A :=
  fun w => (r, log e w).

Section Driver.
Context `{B : Backend}.
Local Open Scope driver_scope.

(** What [cv2.imread] returns: [None] for a missing or undecodable file. *)
Definition imread (fs : filesystem) (p : path) : result (option ndarray) :=
  match fs_files fs !! p with
  | Some bytes => imdecode bytes
  | None => Ok None
  end.

Definition cv2_imread (p : path) : M (option ndarray) :=
  fun w => (imread (w_fs w) p, log (E_imread p) w).

(** [cv2.imwrite]: encodes for the extension of the name and writes the
    file; answers [False] when the file cannot be created. *)
Definition cv2_imwrite (p : path) (img : ndarray) : M bool :=
  fun w =>
    match imencode (basename p) img with
    | Raise e => (Raise e, log (E_imwrite p) w)
    | Ok bytes =>
        if is_dir (w_fs w) (dirname p) && negb (is_dir (w_fs w) p) then
          (Ok true, mk_world (mk_fs (fs_dirs (w_fs w)) (<[ p := bytes ]> (fs_files (w_fs w))))
                             (w_trace w ++ [E_imwrite p]))
        else (Ok false, log (E_imwrite p) w)
    end.

Definition subfolders : list string := ["0"; "1"; "2"; "3"; "4"; "5"].

(** [if not os.path.exists(p): os.makedirs(p)], lines 48-49 and 66-67. *)
Definition ensure_dir (p : path) : M unit :=
  b <- os_path_exists p ;;
  if negb b then os_makedirs p else ret tt.

(** Lines 69 to 74: load, transform, write. *)
Definition load_transform_write (image_path output_image_path : path)
    (output_size : Z) : M unit :=
  image_original <- cv2_imread image_path ;;
  match image_original with
  | Some im =>
      image_trimmed_resized <- call E_trim_and_resize (trim_and_resize im output_size) ;;
      image_clahe <- call E_apply_clahe (apply_clahe image_trimmed_resized) ;;
      cv2_imwrite output_image_path image_clahe ;;
      print ("Processed and saved: " +:+ path_str output_image_path)
  | None => ret tt
  end.

(** Lines 64 to 74: the body of the [try]. *)
Definition process_body (image_path output_image_path : path) (output_size : Z) : M unit :=
  let output_subfolder_path := dirname output_image_path in
  ensure_dir output_subfolder_path ;;
  load_transform_write image_path output_image_path output_size.

(** Lines 60 to 78: one iteration of the inner loop. *)
Definition process_file (input_path_folder output_path_folder : path)
    (output_size : Z) (subfolder img_file : string) : M unit :=
  let image_path := input_path_folder ++ [subfolder; img_file] in
  let output_image_path := output_path_folder ++ [subfolder; img_file] in
  b <- os_path_exists output_image_path ;;
  if negb b then
    try_except (process_body image_path output_image_path output_size)
      (fun e => print ("Error processing " +:+ path_str image_path +:+ ": " +:+ str_exn e))
  else
    print ("Skipping " +:+ path_str output_image_path +:+ ", already exists.").

(** Lines 53 to 78: one iteration of the outer loop. *)
Definition process_subfolder (input_path_folder output_path_folder : path)
    (output_size : Z) (subfolder : string) : M unit :=
  let subfolder_path := input_path_folder ++ [subfolder] in
  b <- os_path_exists subfolder_path ;;
  if negb b then
    print ("Subfolder " +:+ subfolder +:+ " does not exist. Skipping.")
  else
    names <- os_listdir subfolder_path ;;
    let files := List.filter is_image_name names in
    for_each files (process_file input_path_folder output_path_folder output_size subfolder).

Definition process_and_save_images (input_path_folder output_path_folder : path)
    (output_size : Z) : M unit :=
  ensure_dir output_path_folder ;;
  for_each subfolders (process_subfolder input_path_folder output_path_folder output_size).

End Driver.

(** The lines the driver has printed. *)
Definition printed (t : list event) : list string :=
  omap (fun e => match e with E_print m => Some m | _ => None end) t.

(** ** Notions used to state the properties *)

(** An array of shape [(h, w, c)]. *)
Definition well_formed (img : ndarray) (h w c : nat) : Prop :=
  length img = h /\
  Forall (fun row => length row = w /\ Forall (fun p : pixel => length p = c) row) img.

(** Every channel of every pixel is zero. *)
Definition all_zero (img : ndarray) : Prop :=
  Forall (Forall (Forall (fun v : Z => v = 0))) img.

(** Two characters that are the same up to case: they are equal, or one is
    an ASCII capital and the other the small letter 32 places after it. *)
Definition is_capital (c : ascii) : bool :=
  ((65 <=? nat_of_ascii c) && (nat_of_ascii c <=? 90))%nat.

Definition same_letter (a b : ascii) : Prop :=
  a = b \/
  (is_capital a = true /\ nat_of_ascii b = (nat_of_ascii a + 32)%nat) \/
  (is_capital b = true /\ nat_of_ascii a = (nat_of_ascii b + 32)%nat).

(** Two strings that are the same up to the case of their letters. *)
Fixpoint caseless_eq (s t : string) : Prop :=
  match s, t with
  | EmptyString, EmptyString => True
  | String a s', String b t' => same_letter a b /\ caseless_eq s' t'
  | _, _ => False
  end.

Fixpoint no_capital (s : string) : bool :=
  match s with
  | EmptyString => true
  | String c s' => negb (is_capital c) && no_capital s'
  end.

(** The images a run has tried to load, in the order of the calls. *)
Definition loaded (t : list event) : list path :=
  omap (fun e => match e with E_imread p => Some p | _ => None end) t.

(** The sum of the grey levels of an image, and the number of its grey
    levels that are not zero: their quotient is the mean intensity of the
    non-zero pixels. *)
Definition grey_total (gray : list (list Z)) : Z :=
  fold_right Z.add 0 (concat gray).

Definition nonzero_count (gray : list (list Z)) : Z :=
  Z.of_nat (length (concat gray) - count_occ Z.eq_dec (concat gray) 0%Z).

(** One tenth and two hundredths, as binary64 numbers. *)
Definition ten_percent : spec_float :=
  Float64.div (Float64.of_int 1) (Float64.of_int 10).
Definition two_percent : spec_float :=
  Float64.div (Float64.of_int 2) (Float64.of_int 100).

(** The number of marked positions of a mask line. *)
Definition marked_count (line : list bool) : Z :=
  Z.of_nat (length (List.filter (fun b : bool => b) line)).

(** Column [j] of a mask. *)
Definition mask_column (j : nat) (mask : list (list bool)) : list bool :=
  map (fun row => nth j row false) mask.

(** [m] is the least, respectively the greatest, element of [l]. *)
Definition least (m : nat) (l : list nat) : Prop :=
  In m l /\ forall x, In x l -> (m <= x)%nat.
Definition greatest (m : nat) (l : list nat) : Prop :=
  In m l /\ forall x, In x l -> (x <= m)%nat.

(** The entry at column [x] of row [y]. *)
Definition entry_at {A} (data : list (list A)) (x y : nat) : option A :=
  match data !! y with
  | Some row => row !! x
  | None => None
  end.

(** The integer nearest to [n / d] for [0 < d], ties to the even one, as
    Python's [round] gives it. *)
Definition round_div (n d : Z) : Z :=
  let q := n / d in
  let r := n mod d in
  if 2 * r <? d then q
  else if d <? 2 * r then q + 1
  else if Z.even q then q else q + 1.

(** The black rows above and below content of height [h] pasted by
    [trim_and_resize] on a canvas of side [s]. *)
Definition pad_top (s h : Z) : Z := (s - h) / 2.
Definition pad_bottom (s h : Z) : Z := s - h - (s - h) / 2.

(** ** A reference backend and sample data

    One instance of [Backend], on which the definitions run: OpenCV's 15-bit
    grey weights, a resampler that repeats the upper left pixel, room for
    images of 4096 pixels, a CLAHE that leaves the plane as it is, and a
    codec in which a file whose first byte is 1 holds a white 2 by 3 image,
    one whose first byte is 2 a white 1 by 4 image, and every other file is
    not an image. *)

Definition white (h w : nat) : ndarray := replicate h (replicate w [255; 255; 255]).
Definition dark (h w : nat) : ndarray := replicate h (replicate w [0; 0; 0]).

(** A bright square with a dim centre, and the same inside a black frame
    one pixel wide. *)
Definition lit : pixel := [255; 255; 255].
Definition dim : pixel := [20; 20; 20].

Definition bright_square : ndarray :=
  [[lit; lit; lit];
   [lit; dim; lit];
   [lit; lit; lit]].

Definition framed : ndarray :=
  [[black; black; black; black; black];
   [black; lit; lit; lit; black];
   [black; lit; dim; lit; black];
   [black; lit; lit; lit; black];
   [black; black; black; black; black]].

Definition ref_luma (b g r : Z) : Z :=
  (b * 3735 + g * 19235 + r * 9798 + 16384) / 32768.

Definition ref_lanczos (d : list (list pixel)) (size : Z * Z) : list (list pixel) :=
  replicate (Z.to_nat (snd size)) (replicate (Z.to_nat (fst size)) (nth 0 (nth 0 d []) [])).

Definition ref_imdecode (bytes : list Byte.byte) : result (option ndarray) :=
  match bytes with
  | Byte.x01 :: _ => Ok (Some (white 2 3))
  | Byte.x02 :: _ => Ok (Some (white 1 4))
  | _ => Ok None
  end.

Definition ref_backend : Backend := {|
  luma := ref_luma;
  luma_black := eq_refl;
  lanczos := ref_lanczos;
  c_int_message := fun _ => "signed integer is greater than maximum";
  resize_allocates := fun _ size => fst size * snd size <=? 4096;
  canvas_allocates := fun size => fst size * snd size <=? 4096;
  clahe_apply := fun _ _ plane => Ok plane;
  imdecode := ref_imdecode;
  imencode := fun _ _ => Ok [Byte.x01]
|}.

(** An input tree with a readable image, a corrupt one, a file that is no
    image and, in subfolder 2, an image one pixel high. *)
Definition sample_fs : filesystem :=
  mk_fs {[ ["in"]; ["in"; "0"]; ["in"; "2"] ]}
        {[ ["in"; "0"; "a.PNG"] := [Byte.x01];
           ["in"; "0"; "b.jpg"] := [Byte.x00];
           ["in"; "0"; "c.txt"] := [Byte.x01];
           ["in"; "2"; "thin.jpeg"] := [Byte.x02] ]}.

(** The same tree when the output root is a regular file. *)
Definition blocked_fs : filesystem :=
  mk_fs {[ ["in"]; ["in"; "0"] ]}
        {[ ["in"; "0"; "a.PNG"] := [Byte.x01];
           ["out"] := [Byte.x00] ]}.

(** ** The claims of the specification that the script does not meet, as
    the specification words them *)

(** The output guarantee at one input: an image comes back and it is an
    RGB square of the requested side. *)
Definition square_output_at `{B : Backend} (img : ndarray) (output_size : Z) : Prop :=
  exists out, trim_and_resize img output_size = Ok out /\
    im_mode out = RGB /\ im_size out = (output_size, output_size).

(** Aspect preservation at one input: for a cropped image at least as wide
    as high, the resized content is [output_size] wide and
    [round(output_size * H / W)] high, with as many black rows above as
    below. *)
Definition aspect_claim_at `{B : Backend} (img : ndarray) (output_size : Z) : Prop :=
  forall cropped, trim_margins img = Ok cropped ->
    shape0 cropped <= shape1 cropped ->
    exists w h, resize_target img output_size = Ok (w, h) /\
      w = output_size /\
      h = round_div (output_size * shape0 cropped) (shape1 cropped) /\
      pad_top output_size h = pad_bottom output_size h.

(** The load failure of C6 as the specification words it: when the image
    cannot be loaded, the attempt prints something. *)
Definition load_failure_logged_at `{B : Backend} (inp outp : path) (output_size : Z)
    (subfolder img_file : string) (w : world) : Prop :=
  imread (w_fs w) (inp ++ [subfolder; img_file]) = Ok None ->
  printed (w_trace (snd (process_file inp outp output_size subfolder img_file w)))
    <> printed (w_trace w).

(** C10 as worded: after the attempt on a file without output, the output
    subdirectory exists, as a directory. *)
Definition subfolder_exists_after `{B : Backend} (inp outp : path) (output_size : Z)
    (subfolder img_file : string) (w : world) : Prop :=
  path_exists (w_fs w) (outp ++ [subfolder; img_file]) = false ->
  is_dir (w_fs (snd (process_file inp outp output_size subfolder img_file w)))
         (outp ++ [subfolder]) = true.

(** The calls that change nothing on disk and read no image. *)
Definition passive (e : event) : Prop :=
  match e with
  | E_exists _ | E_listdir _ | E_print _ => True
  | _ => False
  end.

(** Every listed image of every input subfolder has its output, and the
    output root exists: the state a complete run leaves behind. *)
Definition all_outputs_exist (inp outp : path) (fs : filesystem) : Prop :=
  path_exists fs outp = true /\
  forall subfolder img_file,
    In subfolder subfolders ->
    In img_file (children fs (inp ++ [subfolder])) ->
    is_image_name img_file = true ->
    path_exists fs (outp ++ [subfolder; img_file]) = true.

(** What an iteration of the outer loop leaves in the trace: the listing of
    the subfolder, or the message that it is skipped. *)
Inductive outer_mark : Type :=
| Listed (p : path)
| Skipped (msg : string).

Definition outer_marks (t : list event) : list outer_mark :=
  omap (fun e => match e with
                 | E_listdir p => Some (Listed p)
                 | E_print m => if String.prefix "Subfolder " m then Some (Skipped m) else None
                 | _ => None
                 end) t.

Definition outer_mark_of (inp : path) (subfolder : string) (present : bool) : outer_mark :=
  if present then Listed (inp ++ [subfolder])
  else Skipped ("Subfolder " +:+ subfolder +:+ " does not exist. Skipping.").

(** The file system only gains directories and files, and no file changes. *)
Definition grows (fs fs' : filesystem) : Prop :=
  (fs_dirs fs ⊆ fs_dirs fs') /\ (fs_files fs ⊆ fs_files fs').

(** A computation that, on file system [fs], changes nothing on disk and
    makes passive calls only. *)
Definition quiet {A} (m : M A) (fs : filesystem) : Prop :=
  forall w, w_fs w = fs ->
    exists r evs, m w = (r, with_events w evs) /\ Forall passive evs.

(** A computation under which the file system grows and whose calls leave
    no mark of the outer loop. *)
Definition inner {A} (m : M A) : Prop :=
  forall w r w', m w = (r, w') ->
    grows (w_fs w) (w_fs w') /\
    exists evs, w_trace w' = w_trace w ++ evs /\ outer_marks evs = [].

(** A tree in which the only image already has its output. *)
Definition done_fs : filesystem :=
  mk_fs {[ ["in"]; ["in"; "0"]; ["out"]; ["out"; "0"] ]}
        {[ ["in"; "0"; "a.PNG"] := [Byte.x01];
           ["out"; "0"; "a.PNG"] := [Byte.x01] ]}.

Definition sample_world : world := mk_world sample_fs [].
Definition blocked_world : world := mk_world blocked_fs [].
Definition done_world : world := mk_world done_fs [].

(** Did a computation return? *)
Definition is_ok {A} (r : result A) : bool :=
  match r with
  | Ok _ => true
  | Raise _ => false
  end.

(** The plane of channel [k] of pixel data. *)
Definition channel_plane (k : nat) (data : list (list pixel)) : list (list Z) :=
  map (map (fun p : pixel => nth k p 0)) data.

(** Zero or NaN: the floats Python's [int] cannot turn into a non-zero
    integer. *)
Definition zero_or_nan (x : spec_float) : Prop :=
  match x with
  | S754_zero _ | S754_nan => True
  | _ => False
  end.

(** A path of the output tree that mirrors an image name of one of the six
    subfolders. *)
Definition mirrored_output (outp p : path) : Prop :=
  exists subfolder img_file,
    In subfolder subfolders /\ is_image_name img_file = true /\
    p = outp ++ [subfolder; img_file].

(** The output root, a directory above it, or one of its six subfolders. *)
Definition output_dir (outp d : path) : Prop :=
  (exists n, d = firstn n outp) \/
  (exists subfolder, In subfolder subfolders /\ d = outp ++ [subfolder]).

(** Between two states of the disk, the files that differ are new mirrored
    outputs and the directories that were added belong to the output
    tree. *)
Definition only_outputs_added (outp : path) (fs fs' : filesystem) : Prop :=
  (forall p, fs_files fs' !! p <> fs_files fs !! p ->
     fs_files fs !! p = None /\ mirrored_output outp p) /\
  (forall d, d ∈ fs_dirs fs' -> d ∈ fs_dirs fs \/ output_dir outp d).

(** Every outcome of a computation relates the worlds before and after. *)
Definition respects {A} (R : filesystem -> filesystem -> Prop) (m : M A) : Prop :=
  forall w r w', m w = (r, w') -> R (w_fs w) (w_fs w').

(** The calls of an iteration of the outer loop whose subfolder is
    missing. *)
Definition skip_events (inp : path) (subfolder : string) : list event :=
  [E_exists (inp ++ [subfolder]);
   E_print ("Subfolder " +:+ subfolder +:+ " does not exist. Skipping.")].

(** A tree in which the output subfolder of the only image is a regular
    file. *)
Definition clogged_fs : filesystem :=
  mk_fs {[ ["in"]; ["in"; "0"]; ["out"] ]}
        {[ ["in"; "0"; "a.PNG"] := [Byte.x01];
           ["out"; "0"] := [Byte.x00] ]}.

(** An input folder without any of the six subfolders. *)
Definition bare_fs : filesystem :=
  mk_fs {[ ["in"] ]} {[ ["in"; "readme.txt"] := [Byte.x00] ]}.

(** CLAHE, with the parameters of the script, returns a plane of the size
    of its argument. *)
Definition shape_preserving_clahe `{B : Backend} : Prop :=
  forall plane, exists plane',
    clahe_apply default_clip_limit default_tile_grid_size plane = Ok plane' /\
    plane_shape plane' = plane_shape plane.

(** No component of a path is taken by something that is not a
    directory. *)
Definition unobstructed (fs : filesystem) (p : path) : Prop :=
  forall n, path_exists fs (firstn n p) = true -> is_dir fs (firstn n p) = true.

(** The disk has grown, and by outputs only. *)
Definition advances (outp : path) (fs fs' : filesystem) : Prop :=
  grows fs fs' /\ only_outputs_added outp fs fs'.

(** The exceptions of the resize geometry. *)
Definition geometry_error (e : exn) : Prop :=
  exists m, e = ValueError m \/ e = OverflowError m \/ e = MemoryError m.

(** ** Binary64 facts *)

Module Float64Facts.
Import Float64.

Lemma round_aux_not_negative m e l :
  not_negative (binary_round_aux prec emax false m e l).
Proof.
  unfold binary_round_aux.
  destruct (shr_fexp prec emax m e l) as [mrs e1].
  destruct (shr_fexp prec emax _ e1 loc_Exact) as [mrs' e2].
  destruct (shr_m mrs'); simpl; auto.
  destruct (e2 <=? emax - prec); simpl; auto.
Qed.

Lemma of_int_not_negative z : 0 <= z -> not_negative (of_int z).
Proof.
  intros Hz. unfold of_int, binary_normalize.
  destruct z as [|p|p]; simpl; auto; [|lia].
  unfold binary_round.
  destruct (shl_align p 0 _) as [mz ez].
  apply round_aux_not_negative.
Qed.

Lemma mul_not_negative x y :
  not_negative x -> not_negative y -> not_negative (mul x y).
Proof.
  unfold mul.
  destruct x as [sx|sx| |sx mx ex], y as [sy|sy| |sy my ey];
    simpl; intros Hx Hy; subst; simpl; auto.
  apply round_aux_not_negative.
Qed.

(** Zero exceeds no float that is not negative. *)
Lemma zero_gt_not_negative s x : not_negative x -> gt (S754_zero s) x = false.
Proof.
  unfold gt, SFltb.
  destruct x as [sx|sx| |sx mx ex]; simpl; intros Hx; subst; reflexivity.
Qed.

Lemma nan_not_exceeded x : gt x S754_nan = false.
Proof. unfold gt, SFltb. destruct x; reflexivity. Qed.

(** The two literals are the correctly rounded quotients 1/10 and 2/100. *)
Lemma lit_0_1_rounded : lit_0_1 = div (of_int 1) (of_int 10).
Proof. reflexivity. Qed.

Lemma lit_0_02_rounded : lit_0_02 = div (of_int 2) (of_int 100).
Proof. reflexivity. Qed.

End Float64Facts.


(** ** Facts about the array primitives *)

Section ArrayFacts.
Context `{B : Backend}.

Lemma bgr2gray_zero (p : pixel) : Forall (fun v => v = 0) p -> bgr2gray p = 0.
Proof.
  intros Hp. destruct p as [|b [|g [|r q]]]; try reflexivity.
  inversion Hp as [|? ? Hb Hp1]; subst.
  inversion Hp1 as [|? ? Hg Hp2]; subst.
  inversion Hp2 as [|? ? Hr Hp3]; subst.
  simpl. apply luma_black.
Qed.

Lemma nonzero_values_zero (gray : list (list Z)) :
  Forall (Forall (fun v => v = 0)) gray -> nonzero_values gray = [].
Proof.
  unfold nonzero_values. induction 1 as [|row rest Hrow _ IH]; [reflexivity|].
  simpl. rewrite List.filter_app, IH, app_nil_r.
  induction Hrow as [|v l Hv _ IHl]; [reflexivity|].
  simpl. subst v. simpl. exact IHl.
Qed.

Lemma np_where_spec (cond : list bool) (i : nat) :
  In i (np_where cond) <-> nth i cond false = true.
Proof.
  unfold np_where. rewrite filter_In, in_seq. split; [tauto|].
  intros Hi. split; [|exact Hi]. split; [lia|]. simpl.
  destruct (Nat.lt_ge_cases i (length cond)) as [|Hge]; [assumption|].
  rewrite nth_overflow in Hi by exact Hge. discriminate.
Qed.

Lemma np_where_none (cond : list bool) :
  Forall (fun b => b = false) cond -> np_where cond = [].
Proof.
  intros Hall. destruct (np_where cond) as [|i l] eqn:E; [reflexivity|].
  assert (Hi : In i (np_where cond)) by (rewrite E; left; reflexivity).
  apply np_where_spec in Hi.
  destruct (nth_in_or_default i cond false) as [Hin|Hd]; [|congruence].
  rewrite List.Forall_forall in Hall. apply Hall in Hin. congruence.
Qed.

Lemma sum_Z_marked (line : list bool) : sum_Z (map b2z line) = marked_count line.
Proof.
  unfold marked_count. induction line as [|b l IH]; [reflexivity|].
  simpl. rewrite IH. destruct b; simpl length; unfold b2z; lia.
Qed.

Lemma marked_count_none (line : list bool) :
  Forall (fun b => b = false) line -> marked_count line = 0.
Proof.
  unfold marked_count. induction 1 as [|b l Hb _ IH]; [reflexivity|].
  subst b. simpl. exact IH.
Qed.

Lemma fold_min_spec (r : list nat) (x : nat) :
  least (fold_left Nat.min r x) (x :: r).
Proof.
  revert x. induction r as [|y r IH]; intros x.
  - simpl. split; [left; reflexivity|]. intros z [->|[]]. lia.
  - simpl fold_left. destruct (IH (Nat.min x y)) as [Hin Hle]. split.
    + destruct Hin as [Hm|Hin].
      * rewrite <- Hm. destruct (Nat.min_spec x y) as [[_ ->]|[_ ->]].
        -- left; reflexivity.
        -- right; left; reflexivity.
      * right; right; exact Hin.
    + intros z [->|[->|Hz]].
      * specialize (Hle (Nat.min z y) (or_introl eq_refl)). lia.
      * specialize (Hle (Nat.min x z) (or_introl eq_refl)). lia.
      * apply Hle. right. exact Hz.
Qed.

Lemma fold_max_spec (r : list nat) (x : nat) :
  greatest (fold_left Nat.max r x) (x :: r).
Proof.
  revert x. induction r as [|y r IH]; intros x.
  - simpl. split; [left; reflexivity|]. intros z [->|[]]. lia.
  - simpl fold_left. destruct (IH (Nat.max x y)) as [Hin Hle]. split.
    + destruct Hin as [Hm|Hin].
      * rewrite <- Hm. destruct (Nat.max_spec x y) as [[_ ->]|[_ ->]].
        -- right; left; reflexivity.
        -- left; reflexivity.
      * right; right; exact Hin.
    + intros z [->|[->|Hz]].
      * specialize (Hle (Nat.max z y) (or_introl eq_refl)). lia.
      * specialize (Hle (Nat.max x z) (or_introl eq_refl)). lia.
      * apply Hle. right. exact Hz.
Qed.

Lemma np_min_least (l : list nat) : l <> [] -> least (np_min l) l.
Proof. destruct l as [|x r]; [congruence|]. intros _. apply fold_min_spec. Qed.

Lemma np_max_greatest (l : list nat) : l <> [] -> greatest (np_max l) l.
Proof. destruct l as [|x r]; [congruence|]. intros _. apply fold_max_spec. Qed.

Lemma slice_lookup {A} (lo hi : nat) (l : list A) (k : nat) :
  slice lo hi l !! k = if (k <? hi - lo)%nat then l !! (lo + k)%nat else None.
Proof.
  unfold slice. destruct (Nat.ltb_spec k (hi - lo)) as [Hlt|Hge].
  - rewrite lookup_take_lt by exact Hlt. apply lookup_drop.
  - apply lookup_take_ge. exact Hge.
Qed.

Lemma slice2_entry_at (r0 r1 c0 c1 : nat) (img : ndarray) (x y : nat) :
  entry_at (slice2 r0 r1 c0 c1 img) x y =
  if ((y <? r1 - r0) && (x <? c1 - c0))%nat
  then entry_at img (c0 + x) (r0 + y) else None.
Proof.
  unfold entry_at, slice2, ndarray, pixel in *.
  rewrite list_lookup_fmap, slice_lookup.
  destruct (y <? r1 - r0)%nat; simpl; [|reflexivity].
  destruct (img !! (r0 + y)%nat) as [row|] eqn:Hrow; simpl.
  - apply slice_lookup.
  - destruct (x <? c1 - c0)%nat; reflexivity.
Qed.

End ArrayFacts.

(** ** The margin analysis *)

Section MarginFacts.
Context `{B : Backend}.

Lemma gray_of_all_zero (img : ndarray) :
  all_zero img -> Forall (Forall (fun v => v = 0)) (map (map bgr2gray) img).
Proof.
  unfold all_zero. intros Himg.
  apply List.Forall_map. eapply List.Forall_impl; [|exact Himg].
  intros row Hrow. apply List.Forall_map.
  eapply List.Forall_impl; [|exact Hrow].
  intros p Hp. apply bgr2gray_zero. exact Hp.
Qed.

(** With no non-zero grey level the mean, hence the threshold, is NaN. *)
Lemma threshold_all_zero (gray : list (list Z)) :
  Forall (Forall (fun v => v = 0)) gray -> threshold gray = S754_nan.
Proof.
  intros Hg. unfold threshold. rewrite (nonzero_values_zero gray Hg). reflexivity.
Qed.

Lemma im_binary_all_zero (gray : list (list Z)) :
  Forall (Forall (fun v => v = 0)) gray ->
  Forall (Forall (fun b => b = false)) (im_binary gray).
Proof.
  intros Hg. unfold im_binary. rewrite (threshold_all_zero gray Hg).
  apply List.Forall_map, List.Forall_forall. intros row _.
  apply List.Forall_map, List.Forall_forall. intros v _.
  apply Float64Facts.nan_not_exceeded.
Qed.

Lemma two_percent_not_negative (n : Z) :
  0 <= n -> Float64.not_negative (Float64.mul (Float64.of_int n) percentage).
Proof.
  intros Hn. apply Float64Facts.mul_not_negative.
  - apply Float64Facts.of_int_not_negative. exact Hn.
  - reflexivity.
Qed.

Lemma mask_column_none (mask : list (list bool)) (j : nat) :
  Forall (Forall (fun b => b = false)) mask ->
  Forall (fun b => b = false) (mask_column j mask).
Proof.
  intros Hm. unfold mask_column. apply List.Forall_map.
  eapply List.Forall_impl; [|exact Hm].
  intros row Hrow.
  destruct (nth_in_or_default j row false) as [Hin|Hd]; [|exact Hd].
  rewrite List.Forall_forall in Hrow. apply Hrow. exact Hin.
Qed.

Lemma qualifying_rows_none (img : ndarray) (gray : list (list Z)) :
  Forall (Forall (fun b => b = false)) (im_binary gray) ->
  qualifying_rows img gray = [].
Proof.
  intros Hm. unfold qualifying_rows. apply np_where_none.
  unfold np_sum_axis1. rewrite map_map. apply List.Forall_map.
  eapply List.Forall_impl; [|exact Hm].
  intros row Hrow. simpl.
  rewrite sum_Z_marked, (marked_count_none row Hrow).
  apply (Float64Facts.zero_gt_not_negative false).
  apply two_percent_not_negative. unfold shape1. lia.
Qed.

Lemma qualifying_cols_none (img : ndarray) (gray : list (list Z)) :
  Forall (Forall (fun b => b = false)) (im_binary gray) ->
  qualifying_cols img gray = [].
Proof.
  intros Hm. unfold qualifying_cols. apply np_where_none.
  unfold np_sum_axis0. rewrite map_map.
  apply List.Forall_map, List.Forall_forall. intros j _.
  replace (map (fun row : list bool => b2z (nth j row false)) (im_binary gray))
    with (map b2z (mask_column j (im_binary gray)))
    by (unfold mask_column; apply map_map).
  rewrite sum_Z_marked, (marked_count_none _ (mask_column_none _ j Hm)).
  apply (Float64Facts.zero_gt_not_negative false).
  apply two_percent_not_negative. unfold shape0. lia.
Qed.

(** C3: for an image whose pixels are all zero the cropping step finds no
    qualifying row and no qualifying column and leaves the image as it is;
    [trim_margins] then returns the original image, without raising,
    whenever the grey conversion before it succeeded. *)
Theorem all_black_image_not_cropped (img : ndarray) :
  all_zero img ->
  let gray := map (map bgr2gray) img in
  qualifying_rows img gray = [] /\
  qualifying_cols img gray = [] /\
  crop_step img gray = img /\
  (forall g, cvtColor_BGR2GRAY img = Ok g -> trim_margins img = Ok img).
Proof.
  intros Hz gray.
  pose proof (im_binary_all_zero gray (gray_of_all_zero img Hz)) as Hm.
  pose proof (qualifying_rows_none img gray Hm) as Hr.
  pose proof (qualifying_cols_none img gray Hm) as Hc.
  assert (Hstep : crop_step img gray = img).
  { unfold crop_step. rewrite Hr. reflexivity. }
  repeat split; try assumption.
  intros g Hg. unfold trim_margins. rewrite Hg. simpl.
  unfold cvtColor_BGR2GRAY in Hg.
  destruct (_ || _) in Hg; [discriminate|].
  destruct (_ || _) in Hg; [|discriminate].
  injection Hg as <-. fold gray. rewrite Hstep. reflexivity.
Qed.

End MarginFacts.

Lemma all_black_image_not_cropped_witness :
  all_zero (dark 2 3) /\
  qualifying_rows (dark 2 3) (map (map (bgr2gray (B := ref_backend))) (dark 2 3)) = [] /\
  trim_margins (B := ref_backend) (dark 2 3) = Ok (dark 2 3).
Proof.
  assert (Hz : all_zero (dark 2 3)) by (repeat constructor).
  destruct (all_black_image_not_cropped (B := ref_backend) (dark 2 3) Hz)
    as (Hr & _ & _ & Ht).
  split; [exact Hz|]. split; [exact Hr|].
  apply (Ht (map (map (bgr2gray (B := ref_backend))) (dark 2 3))). reflexivity.
Defined.

Section CropFacts.
Context `{B : Backend}.

Lemma im_binary_entry (gray : list (list Z)) (x y : nat) (v : Z) :
  entry_at gray x y = Some v ->
  entry_at (im_binary gray) x y =
    Some (Float64.gt (Float64.of_int v)
            (Float64.mul Float64.lit_0_1 (np_mean (nonzero_values gray)))).
Proof.
  unfold entry_at, im_binary. rewrite list_lookup_fmap.
  destruct (gray !! y) as [row|]; simpl; [|discriminate].
  rewrite list_lookup_fmap. intros ->. reflexivity.
Qed.

Lemma qualifying_rows_spec (img : ndarray) (gray : list (list Z)) (i : nat) :
  In i (qualifying_rows img gray) <->
  exists line, im_binary gray !! i = Some line /\
    Float64.gt (Float64.of_int (marked_count line))
               (Float64.mul (Float64.of_int (shape1 img)) Float64.lit_0_02) = true.
Proof.
  unfold qualifying_rows. rewrite np_where_spec.
  unfold np_sum_axis1. rewrite map_map, nth_lookup, list_lookup_fmap.
  destruct (im_binary gray !! i) as [line|]; simpl.
  - rewrite sum_Z_marked. split.
    + intros H. exists line. split; [reflexivity|exact H].
    + intros (l & Hl & H). injection Hl as ->. exact H.
  - split; [discriminate|]. intros (l & Hl & _). discriminate.
Qed.

Lemma qualifying_cols_spec (img : ndarray) (gray : list (list Z)) (j : nat) :
  length gray = length img ->
  length (hd [] gray) = length (hd [] img) ->
  In j (qualifying_cols img gray) <->
  Z.of_nat j < shape1 img /\
    Float64.gt (Float64.of_int (marked_count (mask_column j (im_binary gray))))
               (Float64.mul (Float64.of_int (shape0 img)) Float64.lit_0_02) = true.
Proof.
  intros _ Hw. unfold qualifying_cols. rewrite np_where_spec.
  unfold np_sum_axis0. rewrite map_map, nth_lookup, list_lookup_fmap.
  assert (Hlen : length (hd [] (im_binary gray)) = length (hd [] img)).
  { rewrite <- Hw. unfold im_binary. destruct gray as [|row rest]; [reflexivity|].
    simpl. apply length_map. }
  rewrite Hlen. unfold shape1.
  destruct (Nat.lt_ge_cases j (length (hd [] img))) as [Hlt|Hge].
  - rewrite lookup_seq_lt by exact Hlt. simpl.
    replace (map (fun row : list bool => b2z (nth j row false)) (im_binary gray))
      with (map b2z (mask_column j (im_binary gray)))
      by (unfold mask_column; apply map_map).
    rewrite sum_Z_marked. split; [intros H; split; [lia|exact H]|tauto].
  - rewrite lookup_seq_ge by exact Hge. simpl. split; [discriminate|lia].
Qed.

Lemma crop_to_entry (rows cols : list nat) (img : ndarray) :
  rows <> [] -> cols <> [] ->
  exists r0 r1 c0 c1,
    least r0 rows /\ greatest r1 rows /\ least c0 cols /\ greatest c1 cols /\
    forall x y,
      entry_at (crop_to rows cols img) x y =
      if ((y <=? r1 - r0) && (x <=? c1 - c0))%nat
      then entry_at img (c0 + x) (r0 + y) else None.
Proof.
  intros Hr Hc.
  exists (np_min rows), (np_max rows), (np_min cols), (np_max cols).
  pose proof (np_min_least rows Hr) as Hr0.
  pose proof (np_max_greatest rows Hr) as Hr1.
  pose proof (np_min_least cols Hc) as Hc0.
  pose proof (np_max_greatest cols Hc) as Hc1.
  repeat split; try (apply Hr0 || apply Hr1 || apply Hc0 || apply Hc1).
  intros x y.
  assert (Hrle : (np_min rows <= np_max rows)%nat) by (apply Hr0, Hr1).
  assert (Hcle : (np_min cols <= np_max cols)%nat) by (apply Hc0, Hc1).
  unfold crop_to. destruct rows as [|a rows']; [congruence|].
  destruct cols as [|b cols']; [congruence|].
  rewrite slice2_entry_at.
  replace (y <? np_max (a :: rows') + 1 - np_min (a :: rows'))%nat
    with (y <=? np_max (a :: rows') - np_min (a :: rows'))%nat.
  2:{ destruct (Nat.leb_spec y (np_max (a :: rows') - np_min (a :: rows')));
      destruct (Nat.ltb_spec y (np_max (a :: rows') + 1 - np_min (a :: rows')));
      try reflexivity; lia. }
  replace (x <? np_max (b :: cols') + 1 - np_min (b :: cols'))%nat
    with (x <=? np_max (b :: cols') - np_min (b :: cols'))%nat.
  2:{ destruct (Nat.leb_spec x (np_max (b :: cols') - np_min (b :: cols')));
      destruct (Nat.ltb_spec x (np_max (b :: cols') + 1 - np_min (b :: cols')));
      try reflexivity; lia. }
  reflexivity.
Qed.

Lemma cvtColor_BGR2GRAY_Ok (img : ndarray) (gray : list (list Z)) :
  cvtColor_BGR2GRAY img = Ok gray ->
  gray = map (map bgr2gray) img /\ shape0 img <> 0 /\ shape1 img <> 0 /\
  (channels img = 3%nat \/ channels img = 4%nat).
Proof.
  unfold cvtColor_BGR2GRAY.
  destruct (shape0 img =? 0) eqn:H0; [discriminate|].
  destruct (shape1 img =? 0) eqn:H1; [discriminate|]. simpl.
  destruct (channels img =? 3)%nat eqn:H3; simpl.
  - intros [= <-]. apply Nat.eqb_eq in H3. repeat split; auto; lia.
  - destruct (channels img =? 4)%nat eqn:H4; [|discriminate].
    intros [= <-]. apply Nat.eqb_eq in H4. repeat split; auto; lia.
Qed.

Lemma sum_nonzero (l : list Z) :
  sum_Z (List.filter (fun v => negb (v =? 0)) l) = fold_right Z.add 0 l.
Proof.
  induction l as [|v r IH]; [reflexivity|]. simpl.
  destruct (Z.eqb_spec v 0) as [->|Hv]; simpl; rewrite IH; reflexivity.
Qed.

Lemma length_nonzero (l : list Z) :
  length (List.filter (fun v => negb (v =? 0)) l)
  = (length l - count_occ Z.eq_dec l 0%Z)%nat.
Proof.
  induction l as [|v r IH]; [reflexivity|].
  pose proof (count_occ_bound Z.eq_dec 0 r) as Hb. simpl.
  destruct (Z.eq_dec v 0) as [->|Hv].
  - simpl. rewrite IH. lia.
  - destruct (Z.eqb_spec v 0) as [|_]; [contradiction|]. simpl. rewrite IH. lia.
Qed.

(** The mean [np.mean(img_gray[img_gray != 0])] is the sum of the grey
    levels over the number of those that are not zero. *)
Lemma np_mean_nonzero (gray : list (list Z)) :
  np_mean (nonzero_values gray)
  = Float64.div (Float64.of_int (grey_total gray)) (Float64.of_int (nonzero_count gray)).
Proof.
  unfold np_mean, nonzero_values, grey_total, nonzero_count.
  rewrite sum_nonzero, length_nonzero. reflexivity.
Qed.

(** C4: the mask marks exactly the grey levels above one tenth of the mean
    of the non-zero grey levels, the mean being the sum of the grey levels
    over the number of those that are not zero; a row qualifies exactly
    when the number of its marked pixels exceeds two hundredths of the
    image width, a column exactly when the number of its marked pixels
    exceeds two hundredths of the image height (quotients, products and
    comparisons in binary64, as the script has them); when both sets are
    non-empty the colour image is cut to the rows from the least to the
    greatest qualifying row and the columns from the least to the greatest
    qualifying column, both inclusive, and otherwise it is kept whole. *)
Theorem margin_analysis_spec (img : ndarray) (gray : list (list Z)) :
  cvtColor_BGR2GRAY img = Ok gray ->
  let mean := Float64.div (Float64.of_int (grey_total gray))
                          (Float64.of_int (nonzero_count gray)) in
  let mask := im_binary gray in
  let rows := qualifying_rows img gray in
  let cols := qualifying_cols img gray in
  (forall x y v, entry_at gray x y = Some v ->
     entry_at mask x y =
       Some (Float64.gt (Float64.of_int v) (Float64.mul ten_percent mean))) /\
  (forall i, In i rows <->
     exists line, mask !! i = Some line /\
       Float64.gt (Float64.of_int (marked_count line))
                  (Float64.mul (Float64.of_int (shape1 img)) two_percent) = true) /\
  (forall j, In j cols <->
     Z.of_nat j < shape1 img /\
       Float64.gt (Float64.of_int (marked_count (mask_column j mask)))
                  (Float64.mul (Float64.of_int (shape0 img)) two_percent) = true) /\
  (rows <> [] -> cols <> [] ->
     exists cropped r0 r1 c0 c1,
       trim_margins img = Ok cropped /\
       least r0 rows /\ greatest r1 rows /\ least c0 cols /\ greatest c1 cols /\
       forall x y,
         entry_at cropped x y =
         if ((y <=? r1 - r0) && (x <=? c1 - c0))%nat
         then entry_at img (c0 + x) (r0 + y) else None) /\
  (rows = [] \/ cols = [] -> trim_margins img = Ok img).
Proof.
  intros Hg mean mask rows cols.
  pose proof (cvtColor_BGR2GRAY_Ok img gray Hg) as (Hgray & _).
  assert (Htrim : trim_margins img = Ok (crop_to rows cols img)).
  { unfold trim_margins. rewrite Hg. reflexivity. }
  split.
  { intros x y v Hv. unfold mask. rewrite (im_binary_entry gray x y v Hv).
    rewrite np_mean_nonzero. reflexivity. }
  split; [intros i; apply qualifying_rows_spec|].
  split.
  { intros j. apply qualifying_cols_spec.
    - rewrite Hgray. apply length_map.
    - rewrite Hgray. destruct img as [|row rest]; [reflexivity|]. simpl.
      apply length_map. }
  split.
  - intros Hr Hc.
    destruct (crop_to_entry rows cols img Hr Hc) as (r0 & r1 & c0 & c1 & H).
    exists (crop_to rows cols img), r0, r1, c0, c1.
    split; [exact Htrim|exact H].
  - intros Hnone. rewrite Htrim. f_equal. unfold crop_to.
    destruct Hnone as [-> | ->]; [reflexivity|].
    destruct rows; reflexivity.
Qed.

End CropFacts.


(** On the framed square the mean of the non-zero grey levels is
    2060 / 9, the dim centre lies below a tenth of it and is not marked
    (it would be, against the mean of all 25 pixels), the three inner rows
    and columns qualify, and the crop is the square without its frame. *)
Lemma margin_analysis_spec_witness :
  exists gray, cvtColor_BGR2GRAY (B := ref_backend) framed = Ok gray /\
    grey_total gray = 2060 /\ nonzero_count gray = 9 /\
    entry_at (im_binary gray) 1 1 = Some true /\
    entry_at (im_binary gray) 2 2 = Some false /\
    entry_at (im_binary gray) 0 0 = Some false /\
    qualifying_rows framed gray = [1; 2; 3]%nat /\
    qualifying_cols framed gray = [1; 2; 3]%nat /\
    trim_margins (B := ref_backend) framed = Ok bright_square.
Proof.
  exists (map (map (bgr2gray (B := ref_backend))) framed).
  destruct (margin_analysis_spec (B := ref_backend) framed
              (map (map (bgr2gray (B := ref_backend))) framed) eq_refl)
    as (Hmask & _ & _ & Hcrop & _).
  assert (Htrim : trim_margins (B := ref_backend) framed = Ok bright_square)
    by (vm_compute; reflexivity).
  assert (Hrows : qualifying_rows framed (map (map (bgr2gray (B := ref_backend))) framed)
                  = [1; 2; 3]%nat) by (vm_compute; reflexivity).
  assert (Hcols : qualifying_cols framed (map (map (bgr2gray (B := ref_backend))) framed)
                  = [1; 2; 3]%nat) by (vm_compute; reflexivity).
  split; [reflexivity|]. split; [reflexivity|]. split; [reflexivity|].
  split; [rewrite (Hmask 1%nat 1%nat 255) by reflexivity; vm_compute; reflexivity|].
  split; [rewrite (Hmask 2%nat 2%nat 20) by reflexivity; vm_compute; reflexivity|].
  split; [rewrite (Hmask 0%nat 0%nat 0) by reflexivity; vm_compute; reflexivity|].
  split; [exact Hrows|]. split; [exact Hcols|].
  destruct Hcrop as (cropped & r0 & r1 & c0 & c1 & Hc & _);
    [rewrite Hrows; discriminate|rewrite Hcols; discriminate|].
  exact Htrim.
Defined.

(** ** The resize and the paste *)

Section ResizeFacts.
Context `{B : Backend}.

Lemma Image_fromarray_Ok (img : ndarray) (im : pil_image) :
  Image_fromarray img = Ok im ->
  im_size im = (shape1 img, shape0 img) /\ im_data im = img.
Proof.
  unfold Image_fromarray.
  destruct (channels img) as [|[|[|[|[|n]]]]]; intros [= <-] || discriminate;
    split; reflexivity.
Qed.

(** What the steps of [trim_and_resize] returned when it returns. *)
Lemma trim_and_resize_Ok (img : ndarray) (S : Z) (out : pil_image) :
  trim_and_resize img S = Ok out ->
  exists cropped im_pil ratio w h,
    trim_margins img = Ok cropped /\
    Image_fromarray cropped = Ok im_pil /\
    scale_ratio S (shape1 cropped, shape0 cropped) = Ok ratio /\
    scaled_size (shape1 cropped, shape0 cropped) ratio = Ok (w, h) /\
    1 <= w /\ 1 <= h /\ 0 <= S /\
    out = Image_paste
            (mk_image RGB (S, S) (replicate (Z.to_nat S) (replicate (Z.to_nat S) black)))
            (mk_image (im_mode im_pil) (w, h) (lanczos cropped (w, h)))
            (paste_offset S (w, h)).
Proof.
  unfold trim_and_resize.
  destruct (trim_margins img) as [cropped|] eqn:Ht; [|discriminate]. simpl.
  destruct (Image_fromarray cropped) as [im_pil|] eqn:Hf; [|discriminate]. simpl.
  destruct (Image_fromarray_Ok _ _ Hf) as [Hsize Hdata]. rewrite Hsize.
  destruct (scale_ratio S _) as [ratio|] eqn:Hr; [|discriminate]. simpl.
  destruct (scaled_size _ ratio) as [[w h]|] eqn:Hs; [|discriminate]. simpl.
  unfold Image_resize. simpl.
  destruct (int_overflow (w, h)); [discriminate|].
  destruct (Z.ltb_spec w 1) as [|Hw]; [discriminate|].
  destruct (Z.ltb_spec h 1) as [|Hh]; [discriminate|]. simpl.
  destruct (resize_allocates _ (w, h)); [|discriminate]. simpl.
  unfold Image_new_RGB. simpl.
  destruct (Z.ltb_spec S 0) as [|HS]; [discriminate|]. simpl.
  destruct (int_overflow (S, S)); [discriminate|].
  destruct (canvas_allocates (S, S)); [|discriminate]. simpl.
  intros [= <-]. exists cropped, im_pil, ratio, w, h.
  rewrite Hdata. repeat split; try reflexivity; try assumption.
Qed.

Lemma resize_target_Ok (img : ndarray) (S w h : Z) :
  resize_target img S = Ok (w, h) ->
  exists cropped im_pil ratio,
    trim_margins img = Ok cropped /\
    Image_fromarray cropped = Ok im_pil /\
    scale_ratio S (shape1 cropped, shape0 cropped) = Ok ratio /\
    scaled_size (shape1 cropped, shape0 cropped) ratio = Ok (w, h).
Proof.
  unfold resize_target.
  destruct (trim_margins img) as [cropped|] eqn:Ht; [|discriminate]. simpl.
  destruct (Image_fromarray cropped) as [im_pil|] eqn:Hf; [|discriminate]. simpl.
  destruct (Image_fromarray_Ok _ _ Hf) as [Hsize _]. rewrite Hsize.
  destruct (scale_ratio S _) as [ratio|] eqn:Hr; [|discriminate]. simpl.
  intros Hs. exists cropped, im_pil, ratio. auto.
Qed.

Lemma int_overflow_none (w h : Z) :
  INT_MIN <= w <= INT_MAX -> INT_MIN <= h <= INT_MAX -> int_overflow (w, h) = None.
Proof.
  intros Hw Hh. unfold int_overflow, fits_int. simpl.
  destruct (Z.leb_spec INT_MIN w); [|lia]. destruct (Z.leb_spec w INT_MAX); [|lia].
  destruct (Z.leb_spec INT_MIN h); [|lia]. destruct (Z.leb_spec h INT_MAX); [|lia].
  reflexivity.
Qed.

Lemma int_overflow_none_inv (w h : Z) :
  int_overflow (w, h) = None -> INT_MIN <= w <= INT_MAX /\ INT_MIN <= h <= INT_MAX.
Proof.
  unfold int_overflow, fits_int. simpl.
  destruct (Z.leb_spec INT_MIN w); destruct (Z.leb_spec w INT_MAX); simpl;
    try discriminate.
  destruct (Z.leb_spec INT_MIN h); destruct (Z.leb_spec h INT_MAX); simpl;
    try discriminate.
  lia.
Qed.

Lemma trim_and_resize_steps (img cropped : ndarray) (S w h : Z) :
  0 <= S <= INT_MAX ->
  trim_margins img = Ok cropped ->
  resize_target img S = Ok (w, h) -> 1 <= w <= INT_MAX -> 1 <= h <= INT_MAX ->
  resize_allocates (shape1 cropped, shape0 cropped) (w, h) = true ->
  canvas_allocates (S, S) = true ->
  exists im_pil,
    Image_fromarray cropped = Ok im_pil /\
    trim_and_resize img S =
      Ok (Image_paste
            (mk_image RGB (S, S) (replicate (Z.to_nat S) (replicate (Z.to_nat S) black)))
            (mk_image (im_mode im_pil) (w, h) (lanczos cropped (w, h)))
            (paste_offset S (w, h))).
Proof.
  intros HS Hc Ht Hw Hh Hra Hca.
  destruct (resize_target_Ok img S w h Ht) as (cropped' & im_pil & ratio & H1 & H2 & H3 & H4).
  assert (cropped' = cropped) by congruence. subst cropped'.
  exists im_pil. split; [exact H2|].
  unfold trim_and_resize. rewrite H1. simpl. rewrite H2. simpl.
  destruct (Image_fromarray_Ok _ _ H2) as [Hsize Hdata]. rewrite Hsize, H3. simpl.
  rewrite H4. simpl. unfold Image_resize. simpl.
  assert (Hmin : INT_MIN <= 0) by (unfold INT_MIN; lia).
  rewrite (int_overflow_none w h) by lia.
  destruct (Z.ltb_spec w 1); [lia|]. destruct (Z.ltb_spec h 1); [lia|]. simpl.
  rewrite Hsize, Hra. simpl.
  unfold Image_new_RGB. simpl. destruct (Z.ltb_spec S 0); [lia|]. simpl.
  rewrite (int_overflow_none S S) by lia. rewrite Hca. simpl.
  rewrite Hdata. reflexivity.
Qed.

(** Pasting keeps the canvas' mode, size and grid; every pixel it writes
    has three channels. *)
Lemma Image_paste_shape (canvas im : pil_image) (box : Z * Z) (n m : nat) :
  length (im_data canvas) = n ->
  Forall (fun row => length row = m /\ Forall (fun p : pixel => length p = 3%nat) row)
         (im_data canvas) ->
  let out := Image_paste canvas im box in
  im_mode out = im_mode canvas /\ im_size out = im_size canvas /\
  length (im_data out) = n /\
  Forall (fun row => length row = m /\ Forall (fun p : pixel => length p = 3%nat) row)
         (im_data out).
Proof.
  intros Hn Hrows. unfold Image_paste.
  destruct box as [x0 y0]. destruct (im_size im) as [w h]. simpl.
  split; [reflexivity|]. split; [reflexivity|].
  split; [rewrite length_imap; exact Hn|].
  apply List.Forall_forall. intros row Hin.
  apply list_elem_of_In, elem_of_lookup_imap in Hin.
  destruct Hin as (y & row0 & -> & Hrow0).
  apply list_elem_of_lookup_2, list_elem_of_In in Hrow0.
  rewrite List.Forall_forall in Hrows. destruct (Hrows _ Hrow0) as [Hlen Hpx].
  split; [rewrite length_imap; exact Hlen|].
  apply List.Forall_forall. intros p Hp.
  apply list_elem_of_In, elem_of_lookup_imap in Hp.
  destruct Hp as (x & old & -> & Hold).
  destruct (in_box _ _ _ _ _ _); [reflexivity|].
  apply list_elem_of_lookup_2, list_elem_of_In in Hold.
  rewrite List.Forall_forall in Hpx. apply Hpx. exact Hold.
Qed.

Lemma Image_paste_entry (canvas im : pil_image) (x0 y0 : Z) (x y : nat) (old : pixel) :
  entry_at (im_data canvas) x y = Some old ->
  entry_at (im_data (Image_paste canvas im (x0, y0))) x y =
    Some (if in_box x0 y0 (fst (im_size im)) (snd (im_size im)) (Z.of_nat x) (Z.of_nat y)
          then to_rgb (nth (Z.to_nat (Z.of_nat x - x0))
                           (nth (Z.to_nat (Z.of_nat y - y0)) (im_data im) []) [])
          else old).
Proof.
  unfold entry_at, Image_paste. destruct (im_size im) as [w h]. simpl.
  rewrite list_lookup_imap.
  destruct (im_data canvas !! y) as [row|]; simpl; [|discriminate].
  rewrite list_lookup_imap. intros ->. reflexivity.
Qed.

Lemma black_canvas_shape (n : nat) :
  Forall (fun row => length row = n /\ Forall (fun p : pixel => length p = 3%nat) row)
         (replicate n (replicate n black)).
Proof.
  apply List.Forall_forall. intros row Hin.
  apply list_elem_of_In, elem_of_replicate in Hin. destruct Hin as [-> _].
  split; [apply length_replicate|].
  apply List.Forall_forall. intros p Hp.
  apply list_elem_of_In, elem_of_replicate in Hp. destruct Hp as [-> _]. reflexivity.
Qed.

Lemma black_canvas_entry (n x y : nat) :
  (x < n)%nat -> (y < n)%nat ->
  entry_at (replicate n (replicate n black)) x y = Some black.
Proof.
  intros Hx Hy. unfold entry_at.
  rewrite lookup_replicate_2 by exact Hy. apply lookup_replicate_2. exact Hx.
Qed.

(** C1, as the script meets it.  [trim_and_resize] returns an image when
    [output_size] and both components of the size handed to [resize] lie
    between 1 and [INT_MAX], the range Pillow's C core takes them in, and
    the machine lets Pillow allocate the resized image and the canvas; and
    whatever image it returns is an RGB image of [output_size] rows of
    [output_size] pixels of three channels. *)
Theorem trim_and_resize_square (img cropped : ndarray) (S w h : Z) :
  (0 < S <= INT_MAX ->
   trim_margins img = Ok cropped ->
   resize_target img S = Ok (w, h) -> 1 <= w <= INT_MAX -> 1 <= h <= INT_MAX ->
   resize_allocates (shape1 cropped, shape0 cropped) (w, h) = true ->
   canvas_allocates (S, S) = true ->
   exists out, trim_and_resize img S = Ok out) /\
  (forall out, trim_and_resize img S = Ok out ->
     im_mode out = RGB /\ im_size out = (S, S) /\
     length (im_data out) = Z.to_nat S /\
     Forall (fun row => length row = Z.to_nat S /\
                        Forall (fun p : pixel => length p = 3%nat) row) (im_data out)).
Proof.
  split.
  - intros HS Hc Ht Hw Hh Hra Hca.
    destruct (trim_and_resize_steps img cropped S w h ltac:(lia) Hc Ht Hw Hh Hra Hca)
      as (im_pil & _ & Heq).
    eexists. exact Heq.
  - intros out Hout.
    destruct (trim_and_resize_Ok img S out Hout)
      as (c & im_pil & ratio & w' & h' & _ & _ & _ & _ & _ & _ & _ & ->).
    exact (Image_paste_shape
             (mk_image RGB (S, S) (replicate (Z.to_nat S) (replicate (Z.to_nat S) black)))
             _ _ (Z.to_nat S) (Z.to_nat S)
             (length_replicate _ _) (black_canvas_shape _)).
Qed.

Lemma pad_sum (S h : Z) : pad_top S h + h + pad_bottom S h = S.
Proof. unfold pad_top, pad_bottom. lia. Qed.

Lemma pad_balance (S h : Z) :
  (pad_bottom S h = pad_top S h \/ pad_bottom S h = pad_top S h + 1) /\
  (pad_bottom S h = pad_top S h <-> Z.even (S - h) = true).
Proof.
  unfold pad_top, pad_bottom.
  pose proof (Z.div_mod (S - h) 2 ltac:(lia)) as Hdm.
  rewrite Zmod_even in Hdm.
  destruct (Z.even (S - h)); split; try lia; split; intros H; try lia; discriminate.
Qed.

(** C2, as the script computes it: for a cropped image of width W at least
    its height H, the content is resized to [int(W * r)] by [int(H * r)]
    with [r = float(output_size) / W] in binary64 and [int] truncating;
    on the canvas the pixels of the box of that size whose corner is at
    [((output_size - w) // 2, (output_size - h) // 2)] are those of the
    resized content and all others are black; the rows below the content
    are as many as those above, or one more, and as many exactly when
    [output_size - h] is even. *)
Theorem resize_geometry (img cropped : ndarray) (S : Z) (out : pil_image) :
  trim_margins img = Ok cropped ->
  shape0 cropped <= shape1 cropped ->
  trim_and_resize img S = Ok out ->
  exists s w h,
    Float64.py_float S = Ok s /\
    Float64.py_int (Float64.mul (Float64.of_int (shape1 cropped))
                      (Float64.div s (Float64.of_int (shape1 cropped)))) = Ok w /\
    Float64.py_int (Float64.mul (Float64.of_int (shape0 cropped))
                      (Float64.div s (Float64.of_int (shape1 cropped)))) = Ok h /\
    (forall x y, (x < Z.to_nat S)%nat -> (y < Z.to_nat S)%nat ->
       entry_at (im_data out) x y =
         Some (if in_box ((S - w) / 2) (pad_top S h) w h (Z.of_nat x) (Z.of_nat y)
               then to_rgb (nth (Z.to_nat (Z.of_nat x - (S - w) / 2))
                                (nth (Z.to_nat (Z.of_nat y - pad_top S h))
                                     (lanczos cropped (w, h)) []) [])
               else black)) /\
    pad_top S h + h + pad_bottom S h = S /\
    (pad_bottom S h = pad_top S h \/ pad_bottom S h = pad_top S h + 1) /\
    (pad_bottom S h = pad_top S h <-> Z.even (S - h) = true).
Proof.
  intros Hcrop Hwide Hout.
  destruct (trim_and_resize_Ok img S out Hout)
    as (cropped' & im_pil & ratio & w & h & Ht & _ & Hr & Hs & _ & _ & _ & ->).
  rewrite Hcrop in Ht. injection Ht as <-.
  unfold scale_ratio in Hr. simpl in Hr.
  destruct (Float64.py_float S) as [s|] eqn:Hpf; [|discriminate].
  simpl in Hr. injection Hr as <-.
  rewrite Z.max_l in Hs by lia.
  unfold scaled_size in Hs. simpl in Hs.
  destruct (Float64.py_int (Float64.mul (Float64.of_int (shape1 cropped)) _))
    as [w'|] eqn:Hw'; [|discriminate]. simpl in Hs.
  destruct (Float64.py_int (Float64.mul (Float64.of_int (shape0 cropped)) _))
    as [h'|] eqn:Hh'; [|discriminate]. simpl in Hs.
  injection Hs as -> ->.
  exists s, w, h. split; [reflexivity|]. split; [exact Hw'|]. split; [exact Hh'|].
  split.
  - intros x y Hx Hy. unfold paste_offset. simpl fst. simpl snd.
    rewrite (Image_paste_entry _ _ _ _ x y black).
    + reflexivity.
    + apply black_canvas_entry; assumption.
  - split; [apply pad_sum|apply pad_balance].
Qed.

End ResizeFacts.

Lemma trim_and_resize_square_witness :
  exists out, trim_and_resize (B := ref_backend) (white 2 3) 4 = Ok out /\
    im_mode out = RGB /\ im_size out = (4, 4) /\
    length (im_data out) = 4%nat /\
    Forall (fun row => length row = 4%nat /\
                       Forall (fun p : pixel => length p = 3%nat) row) (im_data out).
Proof.
  assert (Hc : trim_margins (B := ref_backend) (white 2 3) = Ok (white 2 3))
    by (vm_compute; reflexivity).
  assert (Ht : resize_target (B := ref_backend) (white 2 3) 4 = Ok (4, 2))
    by (vm_compute; reflexivity).
  destruct (trim_and_resize_square (B := ref_backend) (white 2 3) (white 2 3) 4 4 2)
    as [Hreturns Hsquare].
  destruct Hreturns as (out & Hout);
    [unfold INT_MAX; lia|exact Hc|exact Ht|unfold INT_MAX; lia|unfold INT_MAX; lia
    |reflexivity|reflexivity|].
  exists out. split; [exact Hout|]. exact (Hsquare out Hout).
Defined.

Lemma resize_geometry_witness :
  exists out w h,
    trim_and_resize (B := ref_backend) (white 2 3) 4 = Ok out /\
    Float64.py_int (Float64.mul (Float64.of_int 3)
                      (Float64.div (Float64.of_int 4) (Float64.of_int 3))) = Ok w /\
    Float64.py_int (Float64.mul (Float64.of_int 2)
                      (Float64.div (Float64.of_int 4) (Float64.of_int 3))) = Ok h /\
    pad_top 4 h + h + pad_bottom 4 h = 4.
Proof.
  assert (Hok : is_ok (trim_and_resize (B := ref_backend) (white 2 3) 4) = true)
    by (vm_compute; reflexivity).
  destruct (trim_and_resize (B := ref_backend) (white 2 3) 4) as [out|e] eqn:Hout;
    [|discriminate].
  assert (Hcrop : trim_margins (B := ref_backend) (white 2 3) = Ok (white 2 3))
    by (vm_compute; reflexivity).
  assert (Hwide : shape0 (white 2 3) <= shape1 (white 2 3))
    by (vm_compute; discriminate).
  assert (Hf : Float64.py_float 4 = Ok (Float64.of_int 4)) by (vm_compute; reflexivity).
  destruct (resize_geometry (B := ref_backend) (white 2 3) (white 2 3) 4 out
              Hcrop Hwide Hout) as (s & w & h & Hs & Hw & Hh & _ & Hsum & _).
  rewrite Hf in Hs. injection Hs as <-.
  exists out, w, h. split; [reflexivity|]. split; [exact Hw|]. split; [exact Hh|exact Hsum].
Defined.

(** C1 as worded fails: an image one pixel high and four wide, scaled to
    side 2, gets the size (2, 0), which [resize] refuses; a two-channel
    array is refused by the grey conversion; and for [output_size] 2^31 the
    width handed to [resize] is no C [int]. *)
Lemma square_output_counterexample :
  ~ square_output_at (B := ref_backend) (white 1 4) 2 /\
  ~ square_output_at (B := ref_backend) [[[9; 9]]] 2 /\
  ~ square_output_at (B := ref_backend) (white 2 3) 2147483648.
Proof.
  assert (H3 : trim_and_resize (B := ref_backend) (white 2 3) 2147483648
               = Raise (OverflowError "signed integer is greater than maximum"))
    by (vm_compute; reflexivity).
  assert (H1 : trim_and_resize (B := ref_backend) (white 1 4) 2
               = Raise (ValueError "height and width must be > 0"))
    by (vm_compute; reflexivity).
  assert (H2 : trim_and_resize (B := ref_backend) [[[9; 9]]] 2
               = Raise (CvError "Invalid number of channels in input image"))
    by (vm_compute; reflexivity).
  repeat split; intros (out & Hout & _); congruence.
Qed.

(** C9 as worded fails: a single-channel image is refused. *)
Lemma single_channel_counterexample :
  trim_and_resize (B := ref_backend) [[[7]]] 2 =
    Raise (CvError "Invalid number of channels in input image") /\
  ~ square_output_at (B := ref_backend) [[[7]]] 2.
Proof.
  assert (H1 : trim_and_resize (B := ref_backend) [[[7]]] 2
               = Raise (CvError "Invalid number of channels in input image"))
    by (vm_compute; reflexivity).
  split; [exact H1|].
  intros (out & Hout & _); congruence.
Qed.

(** C2 as worded fails on each of its three parts: the height is truncated,
    not rounded (2 by 3 pixels to side 4: height 2, not 3); the width can
    miss [output_size] by one (10 by 19 pixels to side 2000: width 1999);
    the black rows above and below differ when their total is odd (3 by 4
    pixels to side 4: none above, one below). *)
Lemma aspect_claim_counterexample :
  ~ aspect_claim_at (B := ref_backend) (white 2 3) 4 /\
  ~ aspect_claim_at (B := ref_backend) (white 10 19) 2000 /\
  ~ aspect_claim_at (B := ref_backend) (white 3 4) 4.
Proof.
  assert (T1 : resize_target (B := ref_backend) (white 2 3) 4 = Ok (4, 2))
    by (vm_compute; reflexivity).
  assert (T2 : resize_target (B := ref_backend) (white 10 19) 2000 = Ok (1999, 1052))
    by (vm_compute; reflexivity).
  assert (T3 : resize_target (B := ref_backend) (white 3 4) 4 = Ok (4, 3))
    by (vm_compute; reflexivity).
  repeat split; intros H.
  - destruct (H (white 2 3) ltac:(vm_compute; reflexivity) ltac:(vm_compute; discriminate))
      as (w & h & Ht & _ & Hh & _).
    rewrite T1 in Ht. injection Ht as <- <-.
    assert (Hc : round_div (4 * shape0 (white 2 3)) (shape1 (white 2 3)) = 3)
      by (vm_compute; reflexivity).
    rewrite Hc in Hh. discriminate.
  - destruct (H (white 10 19) ltac:(vm_compute; reflexivity) ltac:(vm_compute; discriminate))
      as (w & h & Ht & Hw & _).
    rewrite T2 in Ht. injection Ht as <- <-. discriminate.
  - destruct (H (white 3 4) ltac:(vm_compute; reflexivity) ltac:(vm_compute; discriminate))
      as (w & h & Ht & _ & _ & Hp).
    rewrite T3 in Ht. injection Ht as <- <-.
    assert (Hc : pad_top 4 3 <> pad_bottom 4 3) by (vm_compute; discriminate).
    contradiction.
Qed.

(** ** The file system *)

Section FsFacts.

Lemma grows_refl fs : grows fs fs.
Proof. split; reflexivity. Qed.

Lemma grows_trans fs1 fs2 fs3 : grows fs1 fs2 -> grows fs2 fs3 -> grows fs1 fs3.
Proof. intros [H1 H2] [H3 H4]. split; etransitivity; eassumption. Qed.

Lemma grows_lookup fs fs' p bytes :
  grows fs fs' -> fs_files fs !! p = Some bytes -> fs_files fs' !! p = Some bytes.
Proof. intros [_ Hf] Hp. eapply lookup_weaken; eassumption. Qed.

Lemma path_exists_true fs p :
  path_exists fs p = true <-> p = [] \/ p ∈ fs_dirs fs \/ is_Some (fs_files fs !! p).
Proof.
  unfold path_exists, is_dir, is_file.
  rewrite orb_true_iff, !bool_decide_eq_true. tauto.
Qed.

Lemma path_exists_false fs p :
  path_exists fs p = false ->
  p <> [] /\ (p ∉ fs_dirs fs) /\ fs_files fs !! p = None.
Proof.
  intros H. apply not_true_iff_false in H. rewrite path_exists_true in H.
  repeat split.
  - intros ->. apply H. left. reflexivity.
  - intros Hd. apply H. right. left. exact Hd.
  - destruct (fs_files fs !! p) eqn:E; [|reflexivity].
    exfalso. apply H. right. right. eauto.
Qed.

Lemma path_exists_grows fs fs' p :
  grows fs fs' -> path_exists fs p = true -> path_exists fs' p = true.
Proof.
  intros [Hd Hf]. rewrite !path_exists_true.
  intros [->|[H|[b H]]]; [left; reflexivity| |].
  - right. left. apply Hd. exact H.
  - right. right. exists b. eapply lookup_weaken; eassumption.
Qed.

Lemma is_dir_true fs p : is_dir fs p = true <-> p = [] \/ p ∈ fs_dirs fs.
Proof. unfold is_dir. apply bool_decide_eq_true. Qed.

Lemma is_dir_grows fs fs' p : grows fs fs' -> is_dir fs p = true -> is_dir fs' p = true.
Proof.
  intros [Hd _] H. apply is_dir_true in H. apply is_dir_true.
  destruct H as [H|H]; [left; exact H|right]. apply Hd. exact H.
Qed.

Lemma mkdir_Ok p fs fs' :
  mkdir p fs = Ok fs' ->
  fs_files fs' = fs_files fs /\ fs_dirs fs' = {[ p ]} ∪ fs_dirs fs.
Proof.
  unfold mkdir. destruct (path_exists fs p); [discriminate|].
  destruct (is_dir fs (dirname p)); [|destruct (is_file fs (dirname p)); discriminate].
  intros [= <-]. split; reflexivity.
Qed.

Lemma mkdir_missing_Ok ps fs fs' :
  mkdir_missing ps fs = Ok fs' ->
  fs_files fs' = fs_files fs /\ (fs_dirs fs ⊆ fs_dirs fs').
Proof.
  revert fs. induction ps as [|p rest IH]; intros fs; simpl.
  - intros [= <-]. split; reflexivity.
  - destruct (path_exists fs p); [apply IH|].
    destruct (mkdir p fs) as [fs1|e] eqn:Hm; [|discriminate].
    intros H. apply IH in H. destruct H as [Hf Hd].
    apply mkdir_Ok in Hm. destruct Hm as [Hf1 Hd1].
    split; [congruence|]. intros q Hq. apply Hd. rewrite Hd1.
    apply elem_of_union. right. exact Hq.
Qed.

(** [os.makedirs] touches no file, removes no directory and, when it
    returns, has created its argument. *)
Lemma makedirs_Ok p fs fs' :
  makedirs p fs = Ok fs' ->
  fs_files fs' = fs_files fs /\ (fs_dirs fs ⊆ fs_dirs fs') /\ p ∈ fs_dirs fs'.
Proof.
  unfold makedirs.
  destruct (mkdir_missing (ancestors p) fs) as [fs1|e] eqn:Ha; [|discriminate].
  intros Hm. apply mkdir_missing_Ok in Ha. destruct Ha as [Hf1 Hd1].
  apply mkdir_Ok in Hm. destruct Hm as [Hf Hd].
  split; [congruence|]. rewrite Hd. split.
  - intros q Hq. apply elem_of_union. right. apply Hd1. exact Hq.
  - apply elem_of_union. left. apply elem_of_singleton. reflexivity.
Qed.

Lemma makedirs_grows p fs fs' : makedirs p fs = Ok fs' -> grows fs fs'.
Proof.
  intros H. apply makedirs_Ok in H. destruct H as (Hf & Hd & _).
  split; [exact Hd|]. rewrite Hf. reflexivity.
Qed.

Lemma with_events_nil w : with_events w [] = w.
Proof. destruct w. unfold with_events. simpl. rewrite app_nil_r. reflexivity. Qed.

Lemma with_events_app w evs1 evs2 :
  with_events (with_events w evs1) evs2 = with_events w (evs1 ++ evs2).
Proof. unfold with_events. simpl. rewrite app_assoc. reflexivity. Qed.

Lemma outer_marks_app t1 t2 : outer_marks (t1 ++ t2) = outer_marks t1 ++ outer_marks t2.
Proof. apply omap_app. Qed.

End FsFacts.

(** ** The monad of the driver *)

Section MonadFacts.

Lemma bind_Ok {A C} (m : M A) (k : A -> M C) w a w1 :
  m w = (Ok a, w1) -> bind m k w = k a w1.
Proof. intros H. unfold bind. rewrite H. reflexivity. Qed.

Lemma bind_Raise {A C} (m : M A) (k : A -> M C) w e w1 :
  m w = (Raise e, w1) -> bind m k w = (Raise e, w1).
Proof. intros H. unfold bind. rewrite H. reflexivity. Qed.

Lemma bind_inv {A C} (m : M A) (k : A -> M C) w r w' :
  bind m k w = (r, w') ->
  (exists a w1, m w = (Ok a, w1) /\ k a w1 = (r, w')) \/
  (exists e, m w = (Raise e, w') /\ r = Raise e).
Proof.
  unfold bind. destruct (m w) as [[a|e] w1].
  - intros H. left. exists a, w1. auto.
  - intros [= <- <-]. right. exists e. auto.
Qed.

Lemma for_each_cons {A} (x : A) (rest : list A) (body : A -> M unit) w w1 :
  body x w = (Ok tt, w1) -> for_each (x :: rest) body w = for_each rest body w1.
Proof. intros H. simpl. unfold bind. rewrite H. reflexivity. Qed.

(** A loop whose iterations never raise never raises. *)
Lemma for_each_total {A} (l : list A) (body : A -> M unit) :
  (forall x w, exists w1, body x w = (Ok tt, w1)) ->
  forall w, exists w', for_each l body w = (Ok tt, w').
Proof.
  intros Hb. induction l as [|x rest IH]; intros w.
  - exists w. reflexivity.
  - destruct (Hb x w) as [w1 H1]. destruct (IH w1) as [w' H'].
    exists w'. rewrite (for_each_cons _ _ _ _ _ H1). exact H'.
Qed.

Lemma quiet_ret {A} (a : A) fs : quiet (ret a) fs.
Proof.
  intros w _. exists (Ok a), []. rewrite with_events_nil. split; [reflexivity|constructor].
Qed.

Lemma quiet_bind {A C} (m : M A) (k : A -> M C) fs :
  quiet m fs -> (forall a, quiet (k a) fs) -> quiet (bind m k) fs.
Proof.
  intros Hm Hk w Hw. destruct (Hm w Hw) as (r & evs & Hr & Hp).
  destruct r as [a|e].
  - destruct (Hk a (with_events w evs) Hw) as (r2 & evs2 & Hr2 & Hp2).
    exists r2, (evs ++ evs2). rewrite (bind_Ok _ _ _ _ _ Hr), Hr2, with_events_app.
    split; [reflexivity|]. apply Forall_app. auto.
  - exists (Raise e), evs. rewrite (bind_Raise _ _ _ _ _ Hr). auto.
Qed.

Lemma quiet_for_each {A} (l : list A) (body : A -> M unit) fs :
  (forall x, In x l -> quiet (body x) fs) -> quiet (for_each l body) fs.
Proof.
  induction l as [|x rest IH]; intros Hb.
  - apply quiet_ret.
  - simpl. apply quiet_bind.
    + apply Hb. left. reflexivity.
    + intros _. apply IH. intros y Hy. apply Hb. right. exact Hy.
Qed.

Lemma quiet_exists p fs : quiet (os_path_exists p) fs.
Proof.
  intros w _. exists (Ok (path_exists (w_fs w) p)), [E_exists p].
  split; [reflexivity|]. repeat constructor.
Qed.

Lemma quiet_listdir p fs : quiet (os_listdir p) fs.
Proof.
  intros w _. exists (listdir (w_fs w) p), [E_listdir p].
  split; [reflexivity|]. repeat constructor.
Qed.

Lemma quiet_print msg fs : quiet (print msg) fs.
Proof.
  intros w _. exists (Ok tt), [E_print msg].
  split; [reflexivity|]. repeat constructor.
Qed.

Lemma inner_ret {A} (a : A) : inner (ret a).
Proof.
  intros w r w' [= <- <-]. split; [apply grows_refl|].
  exists []. rewrite app_nil_r. auto.
Qed.

Lemma inner_bind {A C} (m : M A) (k : A -> M C) :
  inner m -> (forall a, inner (k a)) -> inner (bind m k).
Proof.
  intros Hm Hk w r w' H.
  destruct (bind_inv _ _ _ _ _ H) as [(a & w1 & H1 & H2)|(e & H1 & ->)].
  - destruct (Hm _ _ _ H1) as (Hg1 & evs1 & Ht1 & Hm1).
    destruct (Hk a _ _ _ H2) as (Hg2 & evs2 & Ht2 & Hm2).
    split; [eapply grows_trans; eassumption|].
    exists (evs1 ++ evs2). rewrite Ht2, Ht1, app_assoc, outer_marks_app, Hm1, Hm2. auto.
  - apply (Hm _ _ _ H1).
Qed.

Lemma inner_for_each {A} (l : list A) (body : A -> M unit) :
  (forall x, inner (body x)) -> inner (for_each l body).
Proof.
  intros Hb. induction l as [|x rest IH].
  - apply inner_ret.
  - simpl. apply inner_bind; auto.
Qed.

Lemma inner_try_except {A} (body : M A) (handler : exn -> M A) :
  inner body -> (forall e, inner (handler e)) -> inner (try_except body handler).
Proof.
  intros Hb Hh w r w'. unfold try_except.
  destruct (body w) as [[a|e] w1] eqn:H1.
  - intros [= <- <-]. apply (Hb _ _ _ H1).
  - intros H2. destruct (Hb _ _ _ H1) as (Hg1 & evs1 & Ht1 & Hm1).
    destruct (Hh e _ _ _ H2) as (Hg2 & evs2 & Ht2 & Hm2).
    split; [eapply grows_trans; eassumption|].
    exists (evs1 ++ evs2). rewrite Ht2, Ht1, app_assoc, outer_marks_app, Hm1, Hm2. auto.
Qed.

Lemma inner_exists p : inner (os_path_exists p).
Proof.
  intros w r w' [= <- <-]. split; [apply grows_refl|]. exists [E_exists p]. auto.
Qed.

Lemma inner_makedirs p : inner (os_makedirs p).
Proof.
  intros w r w'. unfold os_makedirs.
  destruct (makedirs p (w_fs w)) as [fs'|e] eqn:Hm; intros [= <- <-]; simpl.
  - split; [eapply makedirs_grows; eassumption|]. exists [E_makedirs p]. auto.
  - split; [apply grows_refl|]. exists [E_makedirs p]. auto.
Qed.

Lemma inner_ensure_dir p : inner (ensure_dir p).
Proof.
  unfold ensure_dir. apply inner_bind; [apply inner_exists|].
  intros b. destruct b; simpl; [apply inner_ret|apply inner_makedirs].
Qed.

Lemma inner_call {A} (e : event) (r : result A) :
  outer_marks [e] = [] -> inner (call e r).
Proof.
  intros He w r' w' [= <- <-]. split; [apply grows_refl|]. exists [e]. auto.
Qed.

Lemma inner_print msg : String.prefix "Subfolder " msg = false -> inner (print msg).
Proof.
  intros Hp w r w' [= <- <-]. split; [apply grows_refl|].
  exists [E_print msg]. split; [reflexivity|].
  unfold outer_marks. simpl. rewrite Hp. reflexivity.
Qed.

End MonadFacts.

(** ** One file of the batch *)

Section FileFacts.
Context `{B : Backend}.

Lemma inner_imread p : inner (cv2_imread p).
Proof.
  intros w r w' [= <- <-]. split; [apply grows_refl|]. exists [E_imread p]. auto.
Qed.

Lemma ensure_dir_files p w r w' :
  ensure_dir p w = (r, w') -> fs_files (w_fs w') = fs_files (w_fs w).
Proof.
  unfold ensure_dir, bind, os_path_exists, os_makedirs, ret. simpl.
  destruct (path_exists (w_fs w) p); simpl.
  - intros [= <- <-]. reflexivity.
  - destruct (makedirs p (w_fs w)) as [fs'|e] eqn:Hm; intros [= <- <-]; simpl.
    + apply makedirs_Ok in Hm. apply Hm.
    + reflexivity.
Qed.

(** [cv2.imwrite] on a path that holds no file changes no file. *)
Lemma imwrite_effects p img w r w' :
  fs_files (w_fs w) !! p = None ->
  cv2_imwrite p img w = (r, w') ->
  grows (w_fs w) (w_fs w') /\
  exists evs, w_trace w' = w_trace w ++ evs /\ outer_marks evs = [].
Proof.
  intros Hp. unfold cv2_imwrite.
  destruct (imencode (basename p) img) as [bytes|e].
  - destruct (is_dir (w_fs w) (dirname p) && negb (is_dir (w_fs w) p));
      intros [= <- <-]; simpl.
    + split; [|exists [E_imwrite p]; auto].
      split; [reflexivity|]. simpl. apply insert_subseteq. exact Hp.
    + split; [apply grows_refl|]. exists [E_imwrite p]. auto.
  - intros [= <- <-]. split; [apply grows_refl|]. exists [E_imwrite p]. auto.
Qed.

Lemma load_transform_write_effects image_path out S w r w' :
  fs_files (w_fs w) !! out = None ->
  load_transform_write image_path out S w = (r, w') ->
  grows (w_fs w) (w_fs w') /\
  exists evs, w_trace w' = w_trace w ++ E_imread image_path :: evs /\
              outer_marks evs = [] /\
              (imread (w_fs w) image_path = Ok None ->
               evs = [] /\ w_fs w' = w_fs w /\ r = Ok tt).
Proof.
  intros Hout. unfold load_transform_write, bind, cv2_imread, call, print, ret. simpl.
  destruct (imread (w_fs w) image_path) as [[im|]|e].
  - destruct (trim_and_resize im S) as [tr|e].
    + destruct (apply_clahe tr) as [cl|e].
      * destruct (cv2_imwrite out cl _) as [[b|e] w1] eqn:Hw.
        -- apply imwrite_effects in Hw; [|exact Hout].
           destruct Hw as (Hg & evs & Ht & Hm). simpl in Hg, Ht.
           intros [= <- <-]. simpl. split; [exact Hg|].
           exists ([E_trim_and_resize; E_apply_clahe] ++ evs
                     ++ [E_print ("Processed and saved: " +:+ path_str out)]).
           rewrite Ht. rewrite <- !app_assoc. split; [reflexivity|].
           split; [|discriminate].
           rewrite !outer_marks_app, Hm. reflexivity.
        -- apply imwrite_effects in Hw; [|exact Hout].
           destruct Hw as (Hg & evs & Ht & Hm). simpl in Hg, Ht.
           intros [= <- <-]. split; [exact Hg|].
           exists ([E_trim_and_resize; E_apply_clahe] ++ evs).
           rewrite Ht. rewrite <- !app_assoc. split; [reflexivity|].
           split; [|discriminate].
           rewrite !outer_marks_app, Hm. reflexivity.
      * intros [= <- <-]. simpl. split; [apply grows_refl|].
        exists [E_trim_and_resize; E_apply_clahe].
        rewrite <- !app_assoc. split; [reflexivity|]. split; [reflexivity|discriminate].
    + intros [= <- <-]. simpl. split; [apply grows_refl|].
      exists [E_trim_and_resize].
      rewrite <- !app_assoc. split; [reflexivity|]. split; [reflexivity|discriminate].
  - intros [= <- <-]. simpl. split; [apply grows_refl|].
    exists []. split; [reflexivity|]. split; [reflexivity|]. auto.
  - intros [= <- <-]. simpl. split; [apply grows_refl|].
    exists []. split; [reflexivity|]. split; [reflexivity|discriminate].
Qed.

Lemma process_body_effects image_path out S w r w' :
  fs_files (w_fs w) !! out = None ->
  process_body image_path out S w = (r, w') ->
  grows (w_fs w) (w_fs w') /\
  exists evs, w_trace w' = w_trace w ++ evs /\ outer_marks evs = [].
Proof.
  intros Hout H. unfold process_body in H.
  destruct (bind_inv _ _ _ _ _ H) as [(a & w1 & H1 & H2)|(e & H1 & ->)].
  - pose proof (ensure_dir_files _ _ _ _ H1) as Hf.
    destruct (inner_ensure_dir _ _ _ _ H1) as (Hg1 & evs1 & Ht1 & Hm1).
    apply load_transform_write_effects in H2; [|rewrite Hf; exact Hout].
    destruct H2 as (Hg2 & evs2 & Ht2 & Hm2 & _).
    split; [eapply grows_trans; eassumption|].
    exists (evs1 ++ E_imread image_path :: evs2).
    rewrite Ht2, Ht1, <- app_assoc. split; [reflexivity|].
    rewrite outer_marks_app, Hm1. simpl. exact Hm2.
  - apply (inner_ensure_dir _ _ _ _ H1).
Qed.

(** What [process_file] does, by the existence of the output path. *)
Lemma process_file_skip inp outp S sub f w :
  path_exists (w_fs w) (outp ++ [sub; f]) = true ->
  process_file inp outp S sub f w =
    (Ok tt, with_events w [E_exists (outp ++ [sub; f]);
                           E_print ("Skipping " +:+ path_str (outp ++ [sub; f])
                                      +:+ ", already exists.")]).
Proof.
  intros He. unfold process_file, bind, os_path_exists, print, log. simpl.
  rewrite He. simpl. rewrite with_events_app. reflexivity.
Qed.

Lemma process_file_attempt inp outp S sub f w :
  path_exists (w_fs w) (outp ++ [sub; f]) = false ->
  process_file inp outp S sub f w =
    match process_body (inp ++ [sub; f]) (outp ++ [sub; f]) S
                       (log (E_exists (outp ++ [sub; f])) w) with
    | (Ok a, w1) => (Ok a, w1)
    | (Raise e, w1) =>
        (Ok tt, log (E_print ("Error processing " +:+ path_str (inp ++ [sub; f])
                                +:+ ": " +:+ str_exn e)) w1)
    end.
Proof.
  intros He. unfold process_file, bind, os_path_exists, try_except. simpl.
  rewrite He. simpl.
  destruct (process_body _ _ S _) as [[a|e] w1]; reflexivity.
Qed.

Lemma process_file_total inp outp S sub f w :
  exists w', process_file inp outp S sub f w = (Ok tt, w').
Proof.
  destruct (path_exists (w_fs w) (outp ++ [sub; f])) eqn:He.
  - rewrite (process_file_skip _ _ _ _ _ _ He). eauto.
  - rewrite (process_file_attempt _ _ _ _ _ _ He).
    destruct (process_body _ _ S _) as [[[]|e] w1]; eauto.
Qed.

Lemma inner_process_file inp outp S sub f : inner (process_file inp outp S sub f).
Proof.
  intros w r w' H.
  destruct (path_exists (w_fs w) (outp ++ [sub; f])) eqn:He.
  - rewrite (process_file_skip _ _ _ _ _ _ He) in H. injection H as <- <-.
    split; [apply grows_refl|]. eexists. split; [reflexivity|reflexivity].
  - rewrite (process_file_attempt _ _ _ _ _ _ He) in H.
    destruct (process_body _ _ S _) as [[a|e] w1] eqn:Hb.
    + injection H as <- <-.
      apply process_body_effects in Hb; [|apply (path_exists_false _ _ He)].
      destruct Hb as (Hg & evs & Ht & Hm). split; [exact Hg|].
      exists (E_exists (outp ++ [sub; f]) :: evs).
      rewrite Ht. simpl. rewrite <- app_assoc. split; [reflexivity|].
      exact Hm.
    + injection H as <- <-.
      apply process_body_effects in Hb; [|apply (path_exists_false _ _ He)].
      destruct Hb as (Hg & evs & Ht & Hm). split; [exact Hg|].
      exists ([E_exists (outp ++ [sub; f])] ++ evs ++
              [E_print ("Error processing " +:+ path_str (inp ++ [sub; f])
                          +:+ ": " +:+ str_exn e)]).
      simpl w_trace. rewrite Ht. simpl. rewrite <- !app_assoc. split; [reflexivity|].
      rewrite !outer_marks_app, Hm. reflexivity.
Qed.

Lemma quiet_process_file inp outp S sub f fs :
  path_exists fs (outp ++ [sub; f]) = true -> quiet (process_file inp outp S sub f) fs.
Proof.
  intros He w Hw. rewrite <- Hw in He.
  rewrite (process_file_skip _ _ _ _ _ _ He).
  eexists _, _. split; [reflexivity|]. repeat constructor.
Qed.

End FileFacts.

(** ** The driver and the claims about it *)

Section DriverFacts.
Context `{B : Backend}.

Lemma dirname_output (outp : path) (sub f : string) :
  dirname (outp ++ [sub; f]) = outp ++ [sub].
Proof. unfold dirname. rewrite removelast_app by discriminate. reflexivity. Qed.

Lemma ensure_dir_ok p w :
  path_exists (w_fs w) p = true \/ (exists fs', makedirs p (w_fs w) = Ok fs') ->
  exists w1, ensure_dir p w = (Ok tt, w1) /\
    path_exists (w_fs w1) p = true /\
    fs_files (w_fs w1) = fs_files (w_fs w) /\
    w_trace w1 = w_trace w ++
      E_exists p :: (if path_exists (w_fs w) p then [] else [E_makedirs p]).
Proof.
  intros Hok. unfold ensure_dir, bind, os_path_exists, os_makedirs, ret, log, with_events.
  simpl. destruct (path_exists (w_fs w) p) eqn:He; simpl.
  - eexists. split; [reflexivity|]. simpl. auto.
  - destruct Hok as [|[fs' Hm]]; [discriminate|]. rewrite Hm.
    eexists. split; [reflexivity|]. simpl.
    apply makedirs_Ok in Hm. destruct Hm as (Hf & _ & Hp).
    split; [|split; [exact Hf|rewrite <- app_assoc; reflexivity]].
    apply path_exists_true. right. left. exact Hp.
Qed.

Lemma imread_files fs fs' p : fs_files fs' = fs_files fs -> imread fs' p = imread fs p.
Proof. intros H. unfold imread. rewrite H. reflexivity. Qed.

(** The attempt on a file without output whose subfolder can be ensured:
    the subfolder exists afterwards and the load follows its creation. *)
Lemma process_file_loads inp outp S sub f w r w' :
  path_exists (w_fs w) (outp ++ [sub; f]) = false ->
  path_exists (w_fs w) (outp ++ [sub]) = true \/
    (exists fs', makedirs (outp ++ [sub]) (w_fs w) = Ok fs') ->
  process_file inp outp S sub f w = (r, w') ->
  r = Ok tt /\
  path_exists (w_fs w') (outp ++ [sub]) = true /\
  exists evs,
    w_trace w' = w_trace w ++
      [E_exists (outp ++ [sub; f]); E_exists (outp ++ [sub])] ++
      (if path_exists (w_fs w) (outp ++ [sub]) then [] else [E_makedirs (outp ++ [sub])]) ++
      E_imread (inp ++ [sub; f]) :: evs /\
    (imread (w_fs w) (inp ++ [sub; f]) = Ok None ->
     evs = [] /\ fs_files (w_fs w') = fs_files (w_fs w)).
Proof.
  intros He Hok H.
  destruct (process_file_total inp outp S sub f w) as [w2 Htot].
  rewrite Htot in H. injection H as <- <-. split; [reflexivity|].
  rewrite (process_file_attempt _ _ _ _ _ _ He) in Htot.
  unfold process_body in Htot. rewrite dirname_output in Htot.
  destruct (ensure_dir_ok (outp ++ [sub]) (log (E_exists (outp ++ [sub; f])) w) Hok)
    as (w1 & H1 & Hex & Hf & Ht).
  rewrite (bind_Ok _ _ _ _ _ H1) in Htot. simpl in Hf, Ht.
  destruct (load_transform_write _ _ S w1) as [[[]|e] w3] eqn:Hl.
  - injection Htot as <-.
    apply load_transform_write_effects in Hl;
      [|rewrite Hf; apply (path_exists_false _ _ He)].
    destruct Hl as (Hg & evs & Ht3 & _ & Hnone).
    split; [eapply path_exists_grows; eassumption|].
    exists evs. split.
    + rewrite Ht3, Ht. rewrite <- !app_assoc. reflexivity.
    + intros Hld. rewrite <- (imread_files _ _ _ Hf) in Hld.
      destruct (Hnone Hld) as (-> & Hfs & _). split; [reflexivity|].
      rewrite Hfs. exact Hf.
  - injection Htot as <-.
    apply load_transform_write_effects in Hl;
      [|rewrite Hf; apply (path_exists_false _ _ He)].
    destruct Hl as (Hg & evs & Ht3 & _ & Hnone).
    split; [simpl; eapply path_exists_grows; eassumption|].
    exists (evs ++ [E_print ("Error processing " +:+ path_str (inp ++ [sub; f])
                               +:+ ": " +:+ str_exn e)]).
    split.
    + simpl. rewrite Ht3, Ht. rewrite <- !app_assoc. reflexivity.
    + intros Hld. rewrite <- (imread_files _ _ _ Hf) in Hld.
      destruct (Hnone Hld) as (_ & _ & Hr). discriminate.
Qed.

Lemma printed_app t1 t2 : printed (t1 ++ t2) = printed t1 ++ printed t2.
Proof. apply omap_app. Qed.

(** C6, as the script behaves: when the load of a file without output
    fails, that is [cv2.imread] returns [None], the driver prints nothing,
    writes no file, makes no call after the load, and goes on with the next
    file.  (The load is reached when the output subfolder exists or can be
    created.) *)
Theorem load_failure_skipped_silently inp outp S sub f w :
  path_exists (w_fs w) (outp ++ [sub; f]) = false ->
  path_exists (w_fs w) (outp ++ [sub]) = true \/
    (exists fs', makedirs (outp ++ [sub]) (w_fs w) = Ok fs') ->
  imread (w_fs w) (inp ++ [sub; f]) = Ok None ->
  exists w', process_file inp outp S sub f w = (Ok tt, w') /\
    printed (w_trace w') = printed (w_trace w) /\
    fs_files (w_fs w') = fs_files (w_fs w) /\
    w_trace w' = w_trace w ++
      [E_exists (outp ++ [sub; f]); E_exists (outp ++ [sub])] ++
      (if path_exists (w_fs w) (outp ++ [sub]) then [] else [E_makedirs (outp ++ [sub])]) ++
      [E_imread (inp ++ [sub; f])] /\
    forall rest,
      for_each (f :: rest) (process_file inp outp S sub) w =
      for_each rest (process_file inp outp S sub) w'.
Proof.
  intros He Hok Hld.
  destruct (process_file inp outp S sub f w) as [r w'] eqn:H.
  destruct (process_file_loads _ _ _ _ _ _ _ _ He Hok H) as (-> & _ & evs & Ht & Hnone).
  destruct (Hnone Hld) as [-> Hf].
  exists w'. split; [reflexivity|].
  split; [|split; [exact Hf|split; [exact Ht|]]].
  - rewrite Ht, !printed_app. simpl.
    destruct (path_exists (w_fs w) (outp ++ [sub])); simpl; apply app_nil_r.
  - intros rest. apply for_each_cons. exact H.
Qed.

(** C7: an exception raised while one file is processed is caught in the
    loop; the handler prints the path of the input file and the text of
    the exception, and the loop goes on with the next file; no run of the
    inner loop raises. *)
Theorem per_file_exceptions_caught inp outp S sub f w e w1 :
  path_exists (w_fs w) (outp ++ [sub; f]) = false ->
  process_body (inp ++ [sub; f]) (outp ++ [sub; f]) S
               (log (E_exists (outp ++ [sub; f])) w) = (Raise e, w1) ->
  let w' := log (E_print ("Error processing " +:+ path_str (inp ++ [sub; f])
                            +:+ ": " +:+ str_exn e)) w1 in
  process_file inp outp S sub f w = (Ok tt, w') /\
  (forall rest,
     for_each (f :: rest) (process_file inp outp S sub) w =
     for_each rest (process_file inp outp S sub) w') /\
  (forall files w0, exists w2,
     for_each files (process_file inp outp S sub) w0 = (Ok tt, w2)).
Proof.
  intros He Hb w'.
  assert (H : process_file inp outp S sub f w = (Ok tt, w')).
  { rewrite (process_file_attempt _ _ _ _ _ _ He), Hb. reflexivity. }
  split; [exact H|]. split.
  - intros rest. apply for_each_cons. exact H.
  - intros files. apply for_each_total. intros x w0. apply process_file_total.
Qed.

(** The output subfolder after [ensure_dir], when it is a directory or can
    be made. *)
Lemma ensure_dir_made p w :
  is_dir (w_fs w) p = true \/ (exists fs', makedirs p (w_fs w) = Ok fs') ->
  exists w1, ensure_dir p w = (Ok tt, w1) /\
    is_dir (w_fs w1) p = true /\
    fs_files (w_fs w1) = fs_files (w_fs w) /\
    w_trace w1 = w_trace w ++
      E_exists p :: (if path_exists (w_fs w) p then [] else [E_makedirs p]).
Proof.
  intros Hok. unfold ensure_dir, bind, os_path_exists, os_makedirs, ret, log, with_events.
  simpl. destruct (path_exists (w_fs w) p) eqn:He; simpl.
  - eexists. split; [reflexivity|]. simpl. split; [|auto].
    destruct Hok as [Hd|[fs' Hm]]; [exact Hd|].
    unfold makedirs in Hm.
    destruct (mkdir_missing (ancestors p) (w_fs w)) as [fs1|] eqn:Ha; [|discriminate].
    apply mkdir_missing_Ok in Ha. destruct Ha as [Hf Hd].
    assert (H1 : path_exists fs1 p = true).
    { apply (path_exists_grows (w_fs w) fs1); [|exact He].
      split; [exact Hd|]. rewrite Hf. reflexivity. }
    unfold mkdir in Hm. rewrite H1 in Hm. discriminate.
  - destruct Hok as [Hd|[fs' Hm]].
    + unfold path_exists in He. rewrite Hd in He. discriminate.
    + rewrite Hm. eexists. split; [reflexivity|]. simpl.
      apply makedirs_Ok in Hm. destruct Hm as (Hf & _ & Hp).
      split; [apply is_dir_true; right; exact Hp|].
      split; [exact Hf|rewrite <- app_assoc; reflexivity].
Qed.

(** Without a directory to write in, loading and transforming leave the
    disk as it is. *)
Lemma load_transform_write_nowhere image_path out S w r w' :
  is_dir (w_fs w) (dirname out) = false ->
  load_transform_write image_path out S w = (r, w') ->
  w_fs w' = w_fs w.
Proof.
  intros Hd. unfold load_transform_write, bind, cv2_imread, call, cv2_imwrite, print, ret.
  simpl.
  destruct (imread (w_fs w) image_path) as [[im|]|e]; [|intros [= <- <-]; reflexivity..].
  destruct (trim_and_resize im S) as [tr|e]; [|intros [= <- <-]; reflexivity].
  destruct (apply_clahe tr) as [cl|e]; [|intros [= <- <-]; reflexivity].
  destruct (imencode (basename out) cl) as [bytes|e]; [|intros [= <- <-]; reflexivity].
  unfold log, with_events. simpl. rewrite Hd. simpl. intros [= <- <-]. reflexivity.
Qed.

(** C10, as the script behaves, for a file without output.  When the output
    subfolder is a directory or [os.makedirs] creates it, it is a directory
    after the attempt, its creation comes before the load in the order of
    the calls, and when the load fails no file is written.  When
    [os.makedirs] raises, the exception is caught and printed with the path
    of the image, the image is not loaded and the disk is as before, so the
    subfolder is absent.  When the path of the subfolder is taken by
    something that is no directory, nothing is made and the disk is as
    before. *)
Theorem output_subfolder_created_before_load inp outp S sub f w :
  path_exists (w_fs w) (outp ++ [sub; f]) = false ->
  (is_dir (w_fs w) (outp ++ [sub]) = true \/
     (exists fs', makedirs (outp ++ [sub]) (w_fs w) = Ok fs') ->
   exists w' evs,
     process_file inp outp S sub f w = (Ok tt, w') /\
     is_dir (w_fs w') (outp ++ [sub]) = true /\
     w_trace w' = w_trace w ++
       [E_exists (outp ++ [sub; f]); E_exists (outp ++ [sub])] ++
       (if path_exists (w_fs w) (outp ++ [sub]) then [] else [E_makedirs (outp ++ [sub])]) ++
       E_imread (inp ++ [sub; f]) :: evs /\
     (imread (w_fs w) (inp ++ [sub; f]) = Ok None ->
      evs = [] /\ fs_files (w_fs w') = fs_files (w_fs w))) /\
  (forall e,
     path_exists (w_fs w) (outp ++ [sub]) = false ->
     makedirs (outp ++ [sub]) (w_fs w) = Raise e ->
     process_file inp outp S sub f w =
       (Ok tt, with_events w
                 [E_exists (outp ++ [sub; f]); E_exists (outp ++ [sub]);
                  E_makedirs (outp ++ [sub]);
                  E_print ("Error processing " +:+ path_str (inp ++ [sub; f])
                             +:+ ": " +:+ str_exn e)])) /\
  (path_exists (w_fs w) (outp ++ [sub]) = true ->
   is_dir (w_fs w) (outp ++ [sub]) = false ->
   exists w', process_file inp outp S sub f w = (Ok tt, w') /\ w_fs w' = w_fs w).
Proof.
  intros He. rewrite (process_file_attempt _ _ _ _ _ _ He).
  unfold process_body. rewrite dirname_output.
  split; [|split].
  - intros Hok.
    destruct (ensure_dir_made (outp ++ [sub]) (log (E_exists (outp ++ [sub; f])) w) Hok)
      as (w1 & H1 & Hd & Hf & Ht).
    rewrite (bind_Ok _ _ _ _ _ H1). simpl in Hf, Ht.
    assert (Hfree : fs_files (w_fs w1) !! (outp ++ [sub; f]) = None)
      by (rewrite Hf; apply (path_exists_false _ _ He)).
    destruct (load_transform_write _ _ S w1) as [r w3] eqn:Hl.
    destruct (load_transform_write_effects _ _ _ _ _ _ Hfree Hl)
      as (Hg & evs & Ht3 & _ & Hnone).
    assert (Hd3 : is_dir (w_fs w3) (outp ++ [sub]) = true)
      by (apply (is_dir_grows (w_fs w1)); assumption).
    assert (Hload : imread (w_fs w) (inp ++ [sub; f]) = Ok None ->
                    evs = [] /\ w_fs w3 = w_fs w1 /\ r = Ok tt).
    { intros Hld. apply Hnone. rewrite (imread_files _ _ _ Hf). exact Hld. }
    destruct r as [[]|e].
    + exists w3, evs. split; [reflexivity|]. split; [exact Hd3|]. split.
      * rewrite Ht3, Ht. rewrite <- !app_assoc. reflexivity.
      * intros Hld. destruct (Hload Hld) as (-> & Hfs & _).
        split; [reflexivity|]. rewrite Hfs. exact Hf.
    + eexists. exists (evs ++ [E_print ("Error processing " +:+ path_str (inp ++ [sub; f])
                                          +:+ ": " +:+ str_exn e)]).
      split; [reflexivity|]. simpl. split; [exact Hd3|]. split.
      * rewrite Ht3, Ht. rewrite <- !app_assoc. reflexivity.
      * intros Hld. destruct (Hload Hld) as (_ & _ & Hr). discriminate.
  - intros e Hs Hm.
    unfold ensure_dir, bind, os_path_exists, os_makedirs, ret, log, with_events. simpl.
    rewrite Hs. simpl. rewrite Hm. simpl. rewrite <- !app_assoc. reflexivity.
  - intros Hs Hd.
    assert (H1 : ensure_dir (outp ++ [sub]) (log (E_exists (outp ++ [sub; f])) w)
                 = (Ok tt, log (E_exists (outp ++ [sub]))
                               (log (E_exists (outp ++ [sub; f])) w))).
    { unfold ensure_dir, bind, os_path_exists, ret. simpl. rewrite Hs. reflexivity. }
    rewrite (bind_Ok _ _ _ _ _ H1).
    destruct (load_transform_write _ _ S _) as [r w3] eqn:Hl.
    apply load_transform_write_nowhere in Hl; [|rewrite dirname_output; exact Hd].
    simpl in Hl.
    destruct r as [[]|e]; eexists; (split; [reflexivity|exact Hl]).
Qed.

End DriverFacts.

(** ** The outer loop *)

Section LoopFacts.
Context `{B : Backend}.

Lemma list_ascii_of_string_app (a b : string) :
  list_ascii_of_string (a +:+ b) = list_ascii_of_string a ++ list_ascii_of_string b.
Proof. induction a as [|c a IH]; simpl; [reflexivity|]. rewrite IH. reflexivity. Qed.

Lemma endswith_spec (s suf : string) :
  endswith s suf = true <-> exists stem, s = stem +:+ suf.
Proof.
  unfold endswith. rewrite bool_decide_eq_true. split.
  - intros [k Hk]. exists (string_of_list_ascii k).
    rewrite <- (string_of_list_ascii_of_string s), Hk.
    rewrite <- (string_of_list_ascii_of_string
                  (string_of_list_ascii k +:+ suf)).
    rewrite list_ascii_of_string_app, list_ascii_of_string_of_list_ascii.
    reflexivity.
  - intros [stem ->]. exists (list_ascii_of_string stem).
    apply list_ascii_of_string_app.
Qed.

Lemma is_image_name_spec (f : string) :
  is_image_name f = true <->
  exists stem ext, In ext [".png"; ".jpg"; ".jpeg"] /\ lower f = stem +:+ ext.
Proof.
  unfold is_image_name, image_extensions. rewrite existsb_exists. split.
  - intros (ext & Hin & He). apply endswith_spec in He. destruct He as [stem Hs].
    exists stem, ext. auto.
  - intros (stem & ext & Hin & Hs). exists ext. split; [exact Hin|].
    apply endswith_spec. exists stem. exact Hs.
Qed.

Lemma lower_app (a b : string) : lower (a +:+ b) = lower a +:+ lower b.
Proof. induction a as [|c a IH]; simpl; [reflexivity|]. rewrite IH. reflexivity. Qed.

Lemma lower_app_inv (f a b : string) :
  lower f = a +:+ b -> exists f1 f2, f = f1 +:+ f2 /\ lower f1 = a /\ lower f2 = b.
Proof.
  revert f. induction a as [|c a IH]; intros f H.
  - exists EmptyString, f. auto.
  - destruct f as [|d f]; [discriminate|]. simpl in H. injection H as Hc Hr.
    destruct (IH f Hr) as (f1 & f2 & -> & H1 & H2).
    exists (String d f1), f2. simpl. rewrite H1, Hc. auto.
Qed.

Lemma lower_ascii_capital (c : ascii) :
  is_capital c = true -> nat_of_ascii (lower_ascii c) = (nat_of_ascii c + 32)%nat.
Proof.
  unfold lower_ascii, is_capital. intros H. rewrite H.
  apply andb_true_iff in H. destruct H as [_ H]. apply Nat.leb_le in H.
  apply nat_ascii_embedding. lia.
Qed.

Lemma lower_ascii_other (c : ascii) : is_capital c = false -> lower_ascii c = c.
Proof. unfold lower_ascii, is_capital. intros ->. reflexivity. Qed.

Lemma same_letter_lower (c : ascii) : same_letter c (lower_ascii c).
Proof.
  destruct (is_capital c) eqn:Hc.
  - right. left. split; [exact Hc|]. apply lower_ascii_capital. exact Hc.
  - left. symmetry. apply lower_ascii_other. exact Hc.
Qed.

Lemma lower_of_same_letter (c d : ascii) :
  same_letter c d -> is_capital d = false -> lower_ascii c = d.
Proof.
  intros [->|[[Hc Hn]|[Hd _]]] Hd'.
  - apply lower_ascii_other. exact Hd'.
  - rewrite <- (ascii_nat_embedding d), <- (ascii_nat_embedding (lower_ascii c)).
    rewrite (lower_ascii_capital c Hc), Hn. reflexivity.
  - congruence.
Qed.

Lemma caseless_eq_lower (s : string) : caseless_eq s (lower s).
Proof.
  induction s as [|c s IH]; simpl; [exact I|]. split; [apply same_letter_lower|exact IH].
Qed.

(** A string without capitals is the lower-case form of every string that
    is the same up to case. *)
Lemma lower_of_caseless_eq (s t : string) :
  caseless_eq s t -> no_capital t = true -> lower s = t.
Proof.
  revert t. induction s as [|c s IH]; intros [|d t]; simpl; try tauto.
  intros [Hcd Hst] Hn. apply andb_true_iff in Hn. destruct Hn as [Hd Hn].
  apply negb_true_iff in Hd.
  rewrite (lower_of_same_letter c d Hcd Hd), (IH t Hst Hn). reflexivity.
Qed.

(** The extension test, without reference to [lower]: a name passes it
    exactly when it ends in .png, .jpg or .jpeg written in any mix of small
    and capital letters. *)
Lemma is_image_name_caseless (f : string) :
  is_image_name f = true <->
  exists stem ending ext,
    f = stem +:+ ending /\ In ext [".png"; ".jpg"; ".jpeg"] /\ caseless_eq ending ext.
Proof.
  rewrite is_image_name_spec. split.
  - intros (stem & ext & Hin & Hl).
    destruct (lower_app_inv f stem ext Hl) as (f1 & f2 & -> & _ & H2).
    exists f1, f2, ext. split; [reflexivity|]. split; [exact Hin|].
    rewrite <- H2. apply caseless_eq_lower.
  - intros (stem & ending & ext & -> & Hin & Hc).
    exists (lower stem), ext. split; [exact Hin|].
    rewrite lower_app. f_equal. apply lower_of_caseless_eq; [exact Hc|].
    simpl in Hin. destruct Hin as [<-|[<-|[<-|[]]]]; reflexivity.
Qed.

Lemma process_subfolder_absent inp outp S sub w :
  path_exists (w_fs w) (inp ++ [sub]) = false ->
  process_subfolder inp outp S sub w =
    (Ok tt, with_events w [E_exists (inp ++ [sub]);
                           E_print ("Subfolder " +:+ sub +:+ " does not exist. Skipping.")]).
Proof.
  intros He. unfold process_subfolder, bind, os_path_exists, print, log. simpl.
  rewrite He. simpl. rewrite with_events_app. reflexivity.
Qed.

Lemma process_subfolder_present inp outp S sub w :
  path_exists (w_fs w) (inp ++ [sub]) = true ->
  process_subfolder inp outp S sub w =
    match listdir (w_fs w) (inp ++ [sub]) with
    | Ok names =>
        for_each (List.filter is_image_name names) (process_file inp outp S sub)
                 (with_events w [E_exists (inp ++ [sub]); E_listdir (inp ++ [sub])])
    | Raise e =>
        (Raise e, with_events w [E_exists (inp ++ [sub]); E_listdir (inp ++ [sub])])
    end.
Proof.
  intros He. unfold process_subfolder, bind, os_path_exists, os_listdir, log. simpl.
  rewrite He. simpl. rewrite with_events_app. simpl.
  destruct (listdir (w_fs w) (inp ++ [sub])); reflexivity.
Qed.

Lemma skip_message_mark (p : path) (sub : string) :
  outer_marks [E_exists p;
               E_print ("Subfolder " +:+ sub +:+ " does not exist. Skipping.")] =
  [Skipped ("Subfolder " +:+ sub +:+ " does not exist. Skipping.")].
Proof.
  unfold outer_marks. simpl.
  destruct (sub +:+ " does not exist. Skipping."); reflexivity.
Qed.

Lemma process_subfolder_effects inp outp S sub w r w' :
  process_subfolder inp outp S sub w = (r, w') ->
  grows (w_fs w) (w_fs w') /\
  exists evs present, w_trace w' = w_trace w ++ evs /\
    outer_marks evs = [outer_mark_of inp sub present].
Proof.
  intros H. destruct (path_exists (w_fs w) (inp ++ [sub])) eqn:He.
  - rewrite (process_subfolder_present _ _ _ _ _ He) in H.
    destruct (listdir (w_fs w) (inp ++ [sub])) as [names|e].
    + destruct (inner_for_each (List.filter is_image_name names)
                  (process_file inp outp S sub)
                  (inner_process_file inp outp S sub) _ _ _ H)
        as (Hg & evs & Ht & Hm).
      split; [exact Hg|].
      exists ([E_exists (inp ++ [sub]); E_listdir (inp ++ [sub])] ++ evs), true.
      rewrite Ht. simpl w_trace. rewrite <- app_assoc. split; [reflexivity|].
      rewrite outer_marks_app, Hm. reflexivity.
    + injection H as <- <-. split; [apply grows_refl|].
      exists [E_exists (inp ++ [sub]); E_listdir (inp ++ [sub])], true.
      split; reflexivity.
  - rewrite (process_subfolder_absent _ _ _ _ _ He) in H. injection H as <- <-.
    split; [apply grows_refl|].
    exists [E_exists (inp ++ [sub]);
            E_print ("Subfolder " +:+ sub +:+ " does not exist. Skipping.")], false.
    split; [reflexivity|apply skip_message_mark].
Qed.

Lemma outer_loop_effects inp outp S subs w r w' :
  for_each subs (process_subfolder inp outp S) w = (r, w') ->
  grows (w_fs w) (w_fs w') /\
  exists evs presents, w_trace w' = w_trace w ++ evs /\
    outer_marks evs = zip_with (outer_mark_of inp) subs presents /\
    (r = Ok tt -> length presents = length subs).
Proof.
  revert w. induction subs as [|sub rest IH]; intros w H.
  - injection H as <- <-. split; [apply grows_refl|].
    exists [], []. rewrite app_nil_r. auto.
  - simpl in H.
    destruct (bind_inv _ _ _ _ _ H) as [(a & w1 & H1 & H2)|(e & H1 & ->)].
    + destruct (process_subfolder_effects _ _ _ _ _ _ _ H1)
        as (Hg1 & evs1 & b & Ht1 & Hm1).
      destruct (IH _ H2) as (Hg2 & evs2 & bs & Ht2 & Hm2 & Hlen).
      split; [eapply grows_trans; eassumption|].
      exists (evs1 ++ evs2), (b :: bs).
      rewrite Ht2, Ht1, app_assoc, outer_marks_app, Hm1, Hm2.
      split; [reflexivity|]. split; [reflexivity|].
      intros Hr. simpl. rewrite (Hlen Hr). reflexivity.
    + destruct (process_subfolder_effects _ _ _ _ _ _ _ H1)
        as (Hg1 & evs1 & b & Ht1 & Hm1).
      split; [exact Hg1|].
      exists evs1, [b]. rewrite Hm1.
      split; [exact Ht1|]. split; [|discriminate].
      simpl. destruct rest; reflexivity.
Qed.

Lemma run_effects inp outp S w r w' :
  process_and_save_images inp outp S w = (r, w') ->
  grows (w_fs w) (w_fs w') /\
  exists evs presents, w_trace w' = w_trace w ++ evs /\
    outer_marks evs = zip_with (outer_mark_of inp) subfolders presents /\
    (r = Ok tt -> length presents = length subfolders).
Proof.
  intros H. unfold process_and_save_images in H.
  destruct (bind_inv _ _ _ _ _ H) as [(a & w1 & H1 & H2)|(e & H1 & ->)].
  - destruct (inner_ensure_dir _ _ _ _ H1) as (Hg1 & evs1 & Ht1 & Hm1).
    destruct (outer_loop_effects _ _ _ _ _ _ _ H2) as (Hg2 & evs2 & bs & Ht2 & Hm2 & Hlen).
    split; [eapply grows_trans; eassumption|].
    exists (evs1 ++ evs2), bs.
    rewrite Ht2, Ht1, app_assoc, outer_marks_app, Hm1.
    split; [reflexivity|]. split; [exact Hm2|exact Hlen].
  - destruct (inner_ensure_dir _ _ _ _ H1) as (Hg1 & evs1 & Ht1 & Hm1).
    split; [exact Hg1|]. exists evs1, []. rewrite Hm1.
    split; [exact Ht1|]. split; [reflexivity|discriminate].
Qed.

(** C8: the outer loop takes the subfolders "0" to "5" in this order; an
    absent one gets the skip message and the loop goes on; of a present
    one exactly the listed names that end in .png, .jpg or .jpeg, written
    in any mix of small and capital letters, are processed.  In the calls
    of a run that returns, the listings and the skip messages are six, one
    for each subfolder, in the order of the subfolders. *)
Theorem subfolders_in_order inp outp S :
  subfolders = ["0"; "1"; "2"; "3"; "4"; "5"] /\
  (forall sub w, path_exists (w_fs w) (inp ++ [sub]) = false ->
     process_subfolder inp outp S sub w =
       (Ok tt, with_events w
                 [E_exists (inp ++ [sub]);
                  E_print ("Subfolder " +:+ sub +:+ " does not exist. Skipping.")])) /\
  (forall sub w names,
     path_exists (w_fs w) (inp ++ [sub]) = true ->
     listdir (w_fs w) (inp ++ [sub]) = Ok names ->
     process_subfolder inp outp S sub w =
       for_each (List.filter is_image_name names) (process_file inp outp S sub)
                (with_events w [E_exists (inp ++ [sub]); E_listdir (inp ++ [sub])])) /\
  (forall f, is_image_name f = true <->
     exists stem ending ext,
       f = stem +:+ ending /\ In ext [".png"; ".jpg"; ".jpeg"] /\
       caseless_eq ending ext) /\
  (forall w w', process_and_save_images inp outp S w = (Ok tt, w') ->
     exists evs presents, w_trace w' = w_trace w ++ evs /\
       length presents = 6%nat /\
       outer_marks evs =
         zip_with (outer_mark_of inp) ["0"; "1"; "2"; "3"; "4"; "5"] presents).
Proof.
  split; [reflexivity|].
  split; [intros sub w; apply process_subfolder_absent|].
  split.
  { intros sub w names He Hl.
    rewrite (process_subfolder_present _ _ _ _ _ He), Hl. reflexivity. }
  split; [apply is_image_name_caseless|].
  intros w w' H.
  destruct (run_effects _ _ _ _ _ _ H) as (_ & evs & bs & Ht & Hm & Hlen).
  exists evs, bs. split; [exact Ht|]. split; [exact (Hlen eq_refl)|exact Hm].
Qed.

Lemma quiet_process_subfolder inp outp S sub fs :
  In sub subfolders ->
  all_outputs_exist inp outp fs ->
  quiet (process_subfolder inp outp S sub) fs.
Proof.
  intros Hsub [_ Hall] w Hw.
  destruct (path_exists (w_fs w) (inp ++ [sub])) eqn:He.
  - rewrite (process_subfolder_present _ _ _ _ _ He).
    destruct (listdir (w_fs w) (inp ++ [sub])) as [names|e] eqn:Hl.
    + assert (Hq : quiet (for_each (List.filter is_image_name names)
                            (process_file inp outp S sub)) fs).
      { apply quiet_for_each. intros f Hf. apply filter_In in Hf.
        destruct Hf as [Hin Himg]. apply quiet_process_file.
        apply Hall; [exact Hsub| |exact Himg].
        unfold listdir in Hl. rewrite Hw in Hl.
        destruct (is_dir fs (inp ++ [sub])).
        - injection Hl as <-. exact Hin.
        - destruct (is_file fs (inp ++ [sub])); discriminate. }
      destruct (Hq (with_events w [E_exists (inp ++ [sub]); E_listdir (inp ++ [sub])]) Hw)
        as (r & evs & Hr & Hp).
      exists r, ([E_exists (inp ++ [sub]); E_listdir (inp ++ [sub])] ++ evs).
      rewrite Hr, with_events_app. split; [reflexivity|].
      apply Forall_app. split; [repeat constructor|exact Hp].
    + eexists _, _. split; [reflexivity|]. repeat constructor.
  - rewrite (process_subfolder_absent _ _ _ _ _ He).
    eexists _, _. split; [reflexivity|]. repeat constructor.
Qed.

Lemma quiet_run inp outp S fs :
  all_outputs_exist inp outp fs -> quiet (process_and_save_images inp outp S) fs.
Proof.
  intros Hall. unfold process_and_save_images. apply quiet_bind.
  - unfold ensure_dir. intros w Hw.
    unfold bind, os_path_exists, ret. simpl. rewrite Hw.
    destruct Hall as [-> _]. simpl.
    exists (Ok tt), [E_exists outp]. split; [reflexivity|]. repeat constructor.
  - intros _. apply quiet_for_each. intros sub Hsub.
    apply quiet_process_subfolder; assumption.
Qed.

(** C5: a file whose output path exists is skipped: the driver checks the
    path, prints the skip message and calls nothing else.  No run changes
    the content of a file that exists when it starts.  When every listed
    image has its output, as after a complete first run, a run changes
    nothing on disk and loads, transforms and writes nothing. *)
Theorem existing_outputs_skipped inp outp S :
  (forall sub f w, path_exists (w_fs w) (outp ++ [sub; f]) = true ->
     process_file inp outp S sub f w =
       (Ok tt, with_events w
                 [E_exists (outp ++ [sub; f]);
                  E_print ("Skipping " +:+ path_str (outp ++ [sub; f])
                             +:+ ", already exists.")])) /\
  (forall w r w', process_and_save_images inp outp S w = (r, w') ->
     forall p bytes, fs_files (w_fs w) !! p = Some bytes ->
                     fs_files (w_fs w') !! p = Some bytes) /\
  (forall w r w', all_outputs_exist inp outp (w_fs w) ->
     process_and_save_images inp outp S w = (r, w') ->
     w_fs w' = w_fs w /\
     exists evs, w_trace w' = w_trace w ++ evs /\ Forall passive evs).
Proof.
  split; [intros sub f w; apply process_file_skip|]. split.
  - intros w r w' H p bytes Hp.
    destruct (run_effects _ _ _ _ _ _ H) as (Hg & _).
    eapply grows_lookup; eassumption.
  - intros w r w' Hall H.
    destruct (quiet_run inp outp S (w_fs w) Hall w eq_refl) as (r2 & evs & Hr & Hp).
    rewrite Hr in H. injection H as <- <-.
    split; [reflexivity|]. exists evs. split; [reflexivity|exact Hp].
Qed.

End LoopFacts.

(** ** The claims at concrete inputs *)

Lemma done_fs_all_outputs_exist : all_outputs_exist ["in"] ["out"] done_fs.
Proof.
  assert (H0 : children done_fs (["in"] ++ ["0"]) = ["a.PNG"]) by (vm_compute; reflexivity).
  assert (Hk : forall k, In k ["1"; "2"; "3"; "4"; "5"] ->
                 children done_fs (["in"] ++ [k]) = []).
  { intros k Hk. simpl in Hk.
    destruct Hk as [<-|[<-|[<-|[<-|[<-|[]]]]]]; vm_compute; reflexivity. }
  split; [vm_compute; reflexivity|].
  intros sub f Hsub Hin Himg.
  destruct Hsub as [<-|Hsub].
  - rewrite H0 in Hin. destruct Hin as [<-|[]]. vm_compute. reflexivity.
  - rewrite (Hk sub Hsub) in Hin. destruct Hin.
Qed.

Lemma existing_outputs_skipped_witness :
  all_outputs_exist ["in"] ["out"] done_fs /\
  w_fs (snd (process_and_save_images (B := ref_backend) ["in"] ["out"] 2 done_world))
    = done_fs /\
  Forall passive
    (w_trace (snd (process_and_save_images (B := ref_backend) ["in"] ["out"] 2 done_world))).
Proof.
  split; [exact done_fs_all_outputs_exist|].
  destruct (process_and_save_images (B := ref_backend) ["in"] ["out"] 2 done_world)
    as [r w'] eqn:H.
  destruct (existing_outputs_skipped (B := ref_backend) ["in"] ["out"] 2) as (_ & _ & Hq).
  destruct (Hq done_world r w' done_fs_all_outputs_exist H) as (Hfs & evs & Ht & Hp).
  split; [exact Hfs|]. simpl. rewrite Ht. exact Hp.
Defined.

Lemma sample_subfolder_creatable (k : string) :
  is_ok (makedirs (["out"] ++ [k]) sample_fs) = true ->
  path_exists (w_fs sample_world) (["out"] ++ [k]) = true \/
  exists fs', makedirs (["out"] ++ [k]) (w_fs sample_world) = Ok fs'.
Proof.
  intros Hk. right. simpl w_fs.
  destruct (makedirs (["out"] ++ [k]) sample_fs) as [fs'|e]; [|discriminate].
  exists fs'. reflexivity.
Qed.

Lemma load_failure_skipped_silently_witness :
  exists w', process_file (B := ref_backend) ["in"] ["out"] 2 "0" "b.jpg" sample_world
               = (Ok tt, w') /\
             printed (w_trace w') = [] /\
             fs_files (w_fs w') = fs_files sample_fs.
Proof.
  assert (He : path_exists (w_fs sample_world) (["out"] ++ ["0"; "b.jpg"]) = false)
    by (vm_compute; reflexivity).
  assert (Hld : imread (B := ref_backend) (w_fs sample_world) (["in"] ++ ["0"; "b.jpg"])
                = Ok None) by (vm_compute; reflexivity).
  destruct (load_failure_skipped_silently (B := ref_backend)
              ["in"] ["out"] 2 "0" "b.jpg" sample_world He
              (sample_subfolder_creatable "0" ltac:(vm_compute; reflexivity)) Hld)
    as (w' & H & Hp & Hf & _).
  exists w'. split; [exact H|]. split; [exact Hp|exact Hf].
Defined.

(** C6 as worded fails: the corrupt file of the sample tree is skipped and
    nothing is printed. *)
Lemma load_failure_not_logged :
  ~ load_failure_logged_at (B := ref_backend) ["in"] ["out"] 2 "0" "b.jpg" sample_world.
Proof.
  intros H. apply H; vm_compute; reflexivity.
Qed.

Lemma per_file_exceptions_caught_witness :
  exists w', process_file (B := ref_backend) ["in"] ["out"] 2 "2" "thin.jpeg" sample_world
               = (Ok tt, w') /\
             printed (w_trace w')
               = ["Error processing in/2/thin.jpeg: height and width must be > 0"].
Proof.
  assert (He : path_exists (w_fs sample_world) (["out"] ++ ["2"; "thin.jpeg"]) = false)
    by (vm_compute; reflexivity).
  assert (Hr : fst (process_body (B := ref_backend) (["in"] ++ ["2"; "thin.jpeg"])
                      (["out"] ++ ["2"; "thin.jpeg"]) 2
                      (log (E_exists (["out"] ++ ["2"; "thin.jpeg"])) sample_world))
               = Raise (ValueError "height and width must be > 0"))
    by (vm_compute; reflexivity).
  assert (Hp : printed (w_trace (snd (process_body (B := ref_backend)
                      (["in"] ++ ["2"; "thin.jpeg"])
                      (["out"] ++ ["2"; "thin.jpeg"]) 2
                      (log (E_exists (["out"] ++ ["2"; "thin.jpeg"])) sample_world)))) = [])
    by (vm_compute; reflexivity).
  destruct (process_body (B := ref_backend) (["in"] ++ ["2"; "thin.jpeg"])
              (["out"] ++ ["2"; "thin.jpeg"]) 2
              (log (E_exists (["out"] ++ ["2"; "thin.jpeg"])) sample_world))
    as [r w1] eqn:Hb.
  simpl in Hr, Hp. subst r.
  destruct (per_file_exceptions_caught (B := ref_backend)
              ["in"] ["out"] 2 "2" "thin.jpeg" sample_world _ w1 He Hb) as (H & _).
  eexists. split; [exact H|].
  unfold log, with_events. simpl w_trace. rewrite printed_app, Hp. reflexivity.
Defined.

(** On the sample tree: the six marks of the outer loop, and the filter at
    work: a.PNG and b.jpg of subfolder 0 and thin.jpeg of subfolder 2 are
    loaded, c.txt is not. *)
Lemma subfolders_in_order_witness :
  (exists w' evs presents,
     process_and_save_images (B := ref_backend) ["in"] ["out"] 2 sample_world = (Ok tt, w') /\
     w_trace w' = evs /\ length presents = 6%nat /\
     outer_marks evs
       = zip_with (outer_mark_of ["in"]) ["0"; "1"; "2"; "3"; "4"; "5"] presents /\
     loaded evs = [["in"; "0"; "b.jpg"]; ["in"; "0"; "a.PNG"]; ["in"; "2"; "thin.jpeg"]]) /\
  is_image_name "a.PNG" = true /\ is_image_name "scan.JpEg" = true /\
  is_image_name "c.txt" = false /\ is_image_name "x.png.bak" = false.
Proof.
  destruct (subfolders_in_order (B := ref_backend) ["in"] ["out"] 2)
    as (_ & _ & _ & Hname & Hrun).
  split; [|split; [|split; [|split]]].
  - assert (Hr : fst (process_and_save_images (B := ref_backend) ["in"] ["out"] 2
                        sample_world) = Ok tt) by (vm_compute; reflexivity).
    assert (Hl : loaded (w_trace (snd (process_and_save_images (B := ref_backend)
                                         ["in"] ["out"] 2 sample_world)))
                 = [["in"; "0"; "b.jpg"]; ["in"; "0"; "a.PNG"]; ["in"; "2"; "thin.jpeg"]])
      by (vm_compute; reflexivity).
    destruct (process_and_save_images (B := ref_backend) ["in"] ["out"] 2 sample_world)
      as [r w'] eqn:H.
    cbn [fst snd] in Hr, Hl. subst r.
    destruct (Hrun sample_world w' H) as (evs & presents & Ht & Hlen & Hm).
    exists w', evs, presents. split; [reflexivity|]. split; [exact Ht|].
    split; [exact Hlen|]. split; [exact Hm|]. rewrite Ht in Hl. exact Hl.
  - apply Hname. exists "a", ".PNG", ".png". split; [reflexivity|].
    split; [left; reflexivity|]. simpl.
    repeat split;
      first [left; reflexivity | right; left; split; reflexivity].
  - apply Hname. exists "scan", ".JpEg", ".jpeg". split; [reflexivity|].
    split; [right; right; left; reflexivity|]. simpl.
    repeat split;
      first [left; reflexivity | right; left; split; reflexivity].
  - vm_compute. reflexivity.
  - vm_compute. reflexivity.
Defined.

Lemma output_subfolder_created_before_load_witness :
  (exists w', process_file (B := ref_backend) ["in"] ["out"] 2 "0" "b.jpg" sample_world
                = (Ok tt, w') /\
     is_dir (w_fs w') (["out"] ++ ["0"]) = true /\
     fs_files (w_fs w') = fs_files sample_fs) /\
  printed (w_trace (snd (process_file (B := ref_backend) ["in"] ["out"] 2 "0" "a.PNG"
                           blocked_world)))
    = ["Error processing in/0/a.PNG: [Errno 20] Not a directory: 'out/0'"].
Proof.
  split.
  - assert (He : path_exists (w_fs sample_world) (["out"] ++ ["0"; "b.jpg"]) = false)
      by (vm_compute; reflexivity).
    assert (Hmk : is_ok (makedirs (["out"] ++ ["0"]) (w_fs sample_world)) = true)
      by (vm_compute; reflexivity).
    destruct (output_subfolder_created_before_load (B := ref_backend)
                ["in"] ["out"] 2 "0" "b.jpg" sample_world He) as (Hmade & _ & _).
    destruct Hmade as (w' & evs & H & Hd & _ & Hnone).
    { right. destruct (makedirs (["out"] ++ ["0"]) (w_fs sample_world)) as [fs'|e];
        [|discriminate]. exists fs'. reflexivity. }
    exists w'. split; [exact H|]. split; [exact Hd|].
    apply Hnone. vm_compute. reflexivity.
  - assert (He : path_exists (w_fs blocked_world) (["out"] ++ ["0"; "a.PNG"]) = false)
      by (vm_compute; reflexivity).
    assert (Hs : path_exists (w_fs blocked_world) (["out"] ++ ["0"]) = false)
      by (vm_compute; reflexivity).
    assert (Hm : makedirs (["out"] ++ ["0"]) (w_fs blocked_world)
                 = Raise (NotADirectoryError "[Errno 20] Not a directory: 'out/0'"))
      by (vm_compute; reflexivity).
    destruct (output_subfolder_created_before_load (B := ref_backend)
                ["in"] ["out"] 2 "0" "a.PNG" blocked_world He) as (_ & Hraise & _).
    rewrite (Hraise _ Hs Hm). reflexivity.
Defined.

(** C10 as worded fails: when the output root is a regular file the
    subfolder cannot be created, the error is caught and the subfolder does
    not exist after the attempt; and when the path of the subfolder is
    taken by a regular file there is no directory after the attempt
    either. *)
Lemma output_subfolder_missing_when_blocked :
  ~ subfolder_exists_after (B := ref_backend) ["in"] ["out"] 2 "0" "a.PNG" blocked_world /\
  printed (w_trace (snd (process_file (B := ref_backend) ["in"] ["out"] 2 "0" "a.PNG"
                           blocked_world)))
    = ["Error processing in/0/a.PNG: [Errno 20] Not a directory: 'out/0'"] /\
  ~ subfolder_exists_after (B := ref_backend) ["in"] ["out"] 2 "0" "a.PNG"
      (mk_world clogged_fs []).
Proof.
  split; [|split; [vm_compute; reflexivity|]].
  - intros H. unfold subfolder_exists_after in H.
    assert (He : path_exists (w_fs blocked_world) (["out"] ++ ["0"; "a.PNG"]) = false)
      by (vm_compute; reflexivity).
    assert (Hx : is_dir
                   (w_fs (snd (process_file (B := ref_backend) ["in"] ["out"] 2 "0" "a.PNG"
                                 blocked_world))) (["out"] ++ ["0"]) = false)
      by (vm_compute; reflexivity).
    rewrite (H He) in Hx. discriminate.
  - intros H. unfold subfolder_exists_after in H.
    assert (He : path_exists (w_fs (mk_world clogged_fs [])) (["out"] ++ ["0"; "a.PNG"])
                 = false) by (vm_compute; reflexivity).
    assert (Hx : is_dir
                   (w_fs (snd (process_file (B := ref_backend) ["in"] ["out"] 2 "0" "a.PNG"
                                 (mk_world clogged_fs [])))) (["out"] ++ ["0"]) = false)
      by (vm_compute; reflexivity).
    rewrite (H He) in Hx. discriminate.
Qed.

(** ** Further properties of [trim_and_resize] *)

Section CropBounds.
Context `{B : Backend}.

Lemma np_where_bound (cond : list bool) (i : nat) :
  In i (np_where cond) -> (i < length cond)%nat.
Proof.
  intros Hi. apply np_where_spec in Hi.
  destruct (Nat.lt_ge_cases i (length cond)) as [|Hge]; [assumption|].
  rewrite nth_overflow in Hi by exact Hge. discriminate.
Qed.

Lemma qualifying_rows_bound (img : ndarray) (gray : list (list Z)) (i : nat) :
  length gray = length img ->
  In i (qualifying_rows img gray) -> (i < length img)%nat.
Proof.
  intros Hlen Hi. apply np_where_bound in Hi.
  unfold np_sum_axis1, im_binary in Hi. rewrite !length_map in Hi. lia.
Qed.

Lemma qualifying_cols_bound (img : ndarray) (gray : list (list Z)) (j : nat) :
  length (hd [] gray) = length (hd [] img) ->
  In j (qualifying_cols img gray) -> (j < length (hd [] img))%nat.
Proof.
  intros Hlen Hj. apply np_where_bound in Hj.
  unfold np_sum_axis0 in Hj. rewrite !length_map, length_seq in Hj.
  unfold im_binary in Hj. destruct gray as [|row rest]; simpl in *; [lia|].
  rewrite length_map in Hj. lia.
Qed.

Lemma slice_length {A} (lo hi : nat) (l : list A) :
  (hi <= length l)%nat -> length (slice lo hi l) = (hi - lo)%nat.
Proof.
  intros Hhi. unfold slice. rewrite length_take, length_drop. lia.
Qed.

Lemma slice_Forall {A} (P : A -> Prop) (lo hi : nat) (l : list A) :
  Forall P l -> Forall P (slice lo hi l).
Proof.
  intros H. unfold slice. apply Forall_take, Forall_drop. exact H.
Qed.

Lemma slice2_well_formed (img : ndarray) (h w c r0 r1 c0 c1 : nat) :
  well_formed img h w c -> (r1 <= h)%nat -> (c1 <= w)%nat ->
  well_formed (slice2 r0 r1 c0 c1 img) (r1 - r0) (c1 - c0) c.
Proof.
  intros [Hh Hrows] Hr Hc. unfold well_formed, slice2. split.
  - rewrite length_map. apply slice_length. lia.
  - apply List.Forall_map. apply slice_Forall.
    eapply List.Forall_impl; [|exact Hrows].
    intros row [Hw Hpx]. split.
    + apply slice_length. lia.
    + apply slice_Forall. exact Hpx.
Qed.

Lemma well_formed_hd (img : ndarray) (h w c : nat) :
  well_formed img h w c -> (0 < h)%nat -> length (hd [] img) = w.
Proof.
  intros [Hh Hrows] Hpos. destruct img as [|row rest]; simpl in *; [lia|].
  inversion Hrows as [|? ? [Hw _] _]. exact Hw.
Qed.

Lemma well_formed_channels (img : ndarray) (h w c : nat) :
  well_formed img h w c -> (0 < h)%nat -> (0 < w)%nat -> channels img = c.
Proof.
  intros [Hh Hrows] Hhp Hwp. unfold channels.
  destruct img as [|row rest]; simpl in *; [lia|].
  inversion Hrows as [|? ? [Hw Hpx] _]. subst.
  destruct row as [|p row']; simpl in *; [lia|].
  inversion Hpx. assumption.
Qed.

(** The grey conversion accepts every non-empty array of three or four
    channels. *)
Lemma cvtColor_BGR2GRAY_well_formed (img : ndarray) (h w c : nat) :
  well_formed img h w c -> (0 < h)%nat -> (0 < w)%nat ->
  c = 3%nat \/ c = 4%nat ->
  cvtColor_BGR2GRAY img = Ok (map (map bgr2gray) img).
Proof.
  intros Hwf Hh Hw Hc. unfold cvtColor_BGR2GRAY, shape0, shape1.
  rewrite (well_formed_hd _ _ _ _ Hwf Hh), (well_formed_channels _ _ _ _ Hwf Hh Hw).
  destruct Hwf as [Hlen _]. rewrite Hlen.
  destruct (Z.eqb_spec (Z.of_nat h) 0); [lia|].
  destruct (Z.eqb_spec (Z.of_nat w) 0); [lia|]. simpl.
  destruct Hc as [-> | ->]; reflexivity.
Qed.

(** X1: the crop of a well-formed image of three or four channels is a
    well-formed image of the same channel count, at least one pixel and at
    most the original each way: [trim_margins] never hands an empty array
    to the resize. *)
Theorem trim_margins_within (img : ndarray) (h w c : nat) :
  well_formed img h w c -> (0 < h)%nat -> (0 < w)%nat ->
  c = 3%nat \/ c = 4%nat ->
  exists cropped h' w',
    trim_margins img = Ok cropped /\
    well_formed cropped h' w' c /\
    (1 <= h' <= h)%nat /\ (1 <= w' <= w)%nat.
Proof.
  intros Hwf Hh Hw Hc.
  pose proof (cvtColor_BGR2GRAY_well_formed img h w c Hwf Hh Hw Hc) as Hg.
  unfold trim_margins. rewrite Hg. simpl. unfold crop_step.
  set (gray := map (map bgr2gray) img).
  exists (crop_to (qualifying_rows img gray) (qualifying_cols img gray) img).
  assert (Hglen : length gray = length img) by (unfold gray; apply length_map).
  assert (Hghd : length (hd [] gray) = length (hd [] img)).
  { unfold gray. destruct img as [|row rest]; [reflexivity|]. simpl. apply length_map. }
  pose proof (qualifying_rows_bound img gray) as Hrb.
  pose proof (qualifying_cols_bound img gray) as Hcb.
  rewrite (well_formed_hd _ _ _ _ Hwf Hh) in Hcb, Hghd.
  destruct (qualifying_rows img gray) as [|r rows'] eqn:Er.
  { exists h, w. split; [reflexivity|]. split; [exact Hwf|lia]. }
  destruct (qualifying_cols img gray) as [|k cols'] eqn:Ec.
  { exists h, w. split; [reflexivity|]. split; [exact Hwf|lia]. }
  destruct (np_min_least (r :: rows') ltac:(discriminate)) as [Hr0 Hr0le].
  destruct (np_max_greatest (r :: rows') ltac:(discriminate)) as [Hr1 _].
  destruct (np_min_least (k :: cols') ltac:(discriminate)) as [Hc0 Hc0le].
  destruct (np_max_greatest (k :: cols') ltac:(discriminate)) as [Hc1 _].
  pose proof (Hrb _ Hglen Hr1) as Hr1b.
  pose proof (Hcb _ Hghd Hc1) as Hc1b.
  pose proof (Hr0le _ Hr1) as Hrle. pose proof (Hc0le _ Hc1) as Hcle.
  destruct Hwf as [Hlen Hrows]. rewrite Hlen in Hr1b.
  exists (np_max (r :: rows') + 1 - np_min (r :: rows'))%nat,
         (np_max (k :: cols') + 1 - np_min (k :: cols'))%nat.
  split; [reflexivity|]. split; [|lia].
  apply (slice2_well_formed img h w c); [split; assumption|lia|lia].
Qed.

End CropBounds.

(** ** The channel count *)

Section ChannelFacts.
Context `{B : Backend}.

Lemma crop_step_well_formed (img : ndarray) (h w c : nat) :
  well_formed img h w c -> (0 < h)%nat -> (0 < w)%nat ->
  exists h' w',
    well_formed (crop_step img (map (map bgr2gray) img)) h' w' c /\
    (0 < h')%nat /\ (0 < w')%nat.
Proof.
  intros Hwf Hh Hw. unfold crop_step.
  set (gray := map (map bgr2gray) img).
  assert (Hglen : length gray = length img) by (unfold gray; apply length_map).
  assert (Hghd : length (hd [] gray) = length (hd [] img)).
  { unfold gray. destruct img as [|row rest]; [reflexivity|]. simpl. apply length_map. }
  pose proof (qualifying_rows_bound img gray) as Hrb.
  pose proof (qualifying_cols_bound img gray) as Hcb.
  rewrite (well_formed_hd _ _ _ _ Hwf Hh) in Hcb, Hghd.
  destruct (qualifying_rows img gray) as [|r rows'] eqn:Er.
  { exists h, w. split; [exact Hwf|lia]. }
  destruct (qualifying_cols img gray) as [|k cols'] eqn:Ec.
  { exists h, w. split; [exact Hwf|lia]. }
  destruct (np_min_least (r :: rows') ltac:(discriminate)) as [Hr0 Hr0le].
  destruct (np_max_greatest (r :: rows') ltac:(discriminate)) as [Hr1 _].
  destruct (np_min_least (k :: cols') ltac:(discriminate)) as [Hc0 Hc0le].
  destruct (np_max_greatest (k :: cols') ltac:(discriminate)) as [Hc1 _].
  pose proof (Hrb _ Hglen Hr1) as Hr1b.
  pose proof (Hcb _ Hghd Hc1) as Hc1b.
  pose proof (Hr0le _ Hr1) as Hrle. pose proof (Hc0le _ Hc1) as Hcle.
  destruct Hwf as [Hlen Hrows]. rewrite Hlen in Hr1b.
  exists (np_max (r :: rows') + 1 - np_min (r :: rows'))%nat,
         (np_max (k :: cols') + 1 - np_min (k :: cols'))%nat.
  split; [|lia].
  apply (slice2_well_formed img h w c); [split; assumption|lia|lia].
Qed.

Lemma Image_fromarray_colour (img : ndarray) (h w c : nat) :
  well_formed img h w c -> (0 < h)%nat -> (0 < w)%nat ->
  c = 3%nat \/ c = 4%nat ->
  exists im_pil, Image_fromarray img = Ok im_pil /\
    im_mode im_pil = (if (c =? 3)%nat then RGB else RGBA).
Proof.
  intros Hwf Hh Hw Hc. unfold Image_fromarray.
  rewrite (well_formed_channels _ _ _ _ Hwf Hh Hw).
  destruct Hc as [-> | ->]; eexists; split; reflexivity.
Qed.

Lemma py_int_error (x : spec_float) (e : exn) :
  Float64.py_int x = Raise e -> geometry_error e.
Proof.
  destruct x; simpl; intros H; try discriminate; injection H as <-; eexists; eauto.
Qed.

Lemma scale_ratio_error (S : Z) (old_size : Z * Z) (e : exn) :
  scale_ratio S old_size = Raise e -> geometry_error e.
Proof.
  unfold scale_ratio, Float64.py_float.
  destruct (Float64.of_int S); simpl; intros H; try discriminate.
  injection H as <-. eexists; eauto.
Qed.

Lemma scaled_size_error (old_size : Z * Z) (ratio : spec_float) (e : exn) :
  scaled_size old_size ratio = Raise e -> geometry_error e.
Proof.
  unfold scaled_size.
  destruct (Float64.py_int (Float64.mul (Float64.of_int (fst old_size)) ratio))
    as [w|e1] eqn:H1; simpl.
  - destruct (Float64.py_int (Float64.mul (Float64.of_int (snd old_size)) ratio))
      as [h|e2] eqn:H2; simpl; [discriminate|].
    intros [= <-]. exact (py_int_error _ _ H2).
  - intros [= <-]. exact (py_int_error _ _ H1).
Qed.

Lemma Image_resize_error (im : pil_image) (size : Z * Z) (e : exn) :
  Image_resize im size = Raise e -> geometry_error e.
Proof.
  unfold Image_resize. destruct (int_overflow size).
  - intros [= <-]. eexists; eauto.
  - destruct (_ || _); [intros [= <-]; eexists; eauto|].
    destruct (resize_allocates _ _); simpl; [discriminate|].
    intros [= <-]. eexists; eauto.
Qed.

Lemma Image_new_RGB_error (size : Z * Z) (e : exn) :
  Image_new_RGB size = Raise e -> geometry_error e.
Proof.
  unfold Image_new_RGB. destruct (_ || _); [intros [= <-]; eexists; eauto|].
  destruct (int_overflow size); [intros [= <-]; eexists; eauto|].
  destruct (canvas_allocates _); simpl; [discriminate|].
  intros [= <-]. eexists; eauto.
Qed.

(** C9, as the script behaves.  An input whose channel count is neither 3
    nor 4, a single-channel image in particular, makes the grey conversion
    raise [cv2.error], and [trim_and_resize] returns no image.  For a
    non-empty image of three or four channels the grey conversion and the
    cropping succeed and Pillow takes the crop as an RGB or RGBA image;
    what [trim_and_resize] can still raise is a [ValueError], an
    [OverflowError] or a [MemoryError] of the resize geometry, never
    [cv2.error]. *)
Theorem trim_and_resize_rejects_channels (img : ndarray) (S : Z) :
  (channels img <> 3%nat -> channels img <> 4%nat ->
   exists msg, cvtColor_BGR2GRAY img = Raise (CvError msg) /\
               trim_and_resize img S = Raise (CvError msg)) /\
  (forall h w c : nat,
     well_formed img h w c -> (0 < h)%nat -> (0 < w)%nat ->
     c = 3%nat \/ c = 4%nat ->
     cvtColor_BGR2GRAY img = Ok (map (map bgr2gray) img) /\
     (exists cropped im_pil,
        trim_margins img = Ok cropped /\
        Image_fromarray cropped = Ok im_pil /\
        im_mode im_pil = (if (c =? 3)%nat then RGB else RGBA)) /\
     (forall e, trim_and_resize img S = Raise e ->
        exists m, e = ValueError m \/ e = OverflowError m \/ e = MemoryError m)).
Proof.
  split.
  - intros H3 H4. unfold trim_and_resize, trim_margins, cvtColor_BGR2GRAY.
    destruct (_ || _); [eexists; split; reflexivity|].
    apply Nat.eqb_neq in H3, H4. rewrite H3, H4. simpl.
    eexists; split; reflexivity.
  - intros h w c Hwf Hh Hw Hc.
    pose proof (cvtColor_BGR2GRAY_well_formed img h w c Hwf Hh Hw Hc) as Hg.
    destruct (crop_step_well_formed img h w c Hwf Hh Hw) as (h' & w' & Hcwf & Hh' & Hw').
    destruct (Image_fromarray_colour _ h' w' c Hcwf Hh' Hw' Hc) as (im_pil & Hfa & Hmode).
    assert (Htm : trim_margins img = Ok (crop_step img (map (map bgr2gray) img)))
      by (unfold trim_margins; rewrite Hg; reflexivity).
    split; [exact Hg|]. split.
    { eexists. exists im_pil. split; [exact Htm|]. split; assumption. }
    intros e He. unfold trim_and_resize in He.
    rewrite Htm in He. simpl in He. rewrite Hfa in He. simpl in He.
    destruct (scale_ratio S (im_size im_pil)) as [ratio|e0] eqn:Hr; simpl in He;
      [|injection He as <-; exact (scale_ratio_error _ _ _ Hr)].
    destruct (scaled_size (im_size im_pil) ratio) as [new_size|e0] eqn:Hs; simpl in He;
      [|injection He as <-; exact (scaled_size_error _ _ _ Hs)].
    destruct (Image_resize im_pil new_size) as [resized|e0] eqn:Hrs; simpl in He;
      [|injection He as <-; exact (Image_resize_error _ _ _ Hrs)].
    destruct (Image_new_RGB (S, S)) as [canvas|e0] eqn:Hn; simpl in He;
      [discriminate|].
    injection He as <-. exact (Image_new_RGB_error _ _ Hn).
Qed.

End ChannelFacts.

Lemma trim_and_resize_rejects_channels_witness :
  (exists msg, cvtColor_BGR2GRAY (B := ref_backend) [[[7]]] = Raise (CvError msg) /\
               trim_and_resize (B := ref_backend) [[[7]]] 2 = Raise (CvError msg)) /\
  (exists cropped im_pil,
     trim_margins (B := ref_backend) (white 1 4) = Ok cropped /\
     Image_fromarray cropped = Ok im_pil /\ im_mode im_pil = RGB) /\
  trim_and_resize (B := ref_backend) (white 1 4) 2
    = Raise (ValueError "height and width must be > 0").
Proof.
  split; [|split].
  - destruct (trim_and_resize_rejects_channels (B := ref_backend) [[[7]]] 2) as [Hrej _].
    exact (Hrej ltac:(discriminate) ltac:(discriminate)).
  - destruct (trim_and_resize_rejects_channels (B := ref_backend) (white 1 4) 2)
      as [_ Hacc].
    assert (Hwf : well_formed (white 1 4) 1 4 3) by (split; [reflexivity|repeat constructor]).
    destruct (Hacc 1%nat 4%nat 3%nat Hwf ltac:(lia) ltac:(lia) (or_introl eq_refl))
      as (_ & Hcrop & _).
    exact Hcrop.
  - vm_compute. reflexivity.
Defined.

(** ** [apply_clahe] *)

Section ClaheFacts.
Context `{B : Backend}.

Lemma cvtColor_swap_well_formed (img : ndarray) (h w c : nat) :
  well_formed img h w c -> (0 < h)%nat -> (0 < w)%nat ->
  c = 3%nat \/ c = 4%nat ->
  cvtColor_swap img = Ok (map (map swap_rb) img).
Proof.
  intros Hwf Hh Hw Hc. unfold cvtColor_swap, shape0, shape1.
  rewrite (well_formed_hd _ _ _ _ Hwf Hh), (well_formed_channels _ _ _ _ Hwf Hh Hw).
  destruct Hwf as [Hlen _]. rewrite Hlen.
  destruct (Z.eqb_spec (Z.of_nat h) 0); [lia|].
  destruct (Z.eqb_spec (Z.of_nat w) 0); [lia|]. simpl.
  destruct Hc as [-> | ->]; reflexivity.
Qed.

Lemma swap_well_formed (img : ndarray) (h w c : nat) :
  well_formed img h w c -> well_formed (map (map swap_rb) img) h w 3.
Proof.
  intros [Hlen Hrows]. split; [rewrite length_map; exact Hlen|].
  apply List.Forall_map. eapply List.Forall_impl; [|exact Hrows].
  intros row [Hw _]. split; [rewrite length_map; exact Hw|].
  apply List.Forall_map, List.Forall_forall. intros p _. reflexivity.
Qed.

Lemma channel_of_swapped (k k' : nat) (data : list (list pixel)) :
  (forall p : pixel, nth k (swap_rb p) 0 = nth k' p 0) ->
  map (map (fun p : pixel => nth k p 0)) (map (map swap_rb) data) = channel_plane k' data.
Proof.
  intros Hk. unfold channel_plane. rewrite map_map. apply map_ext. intros row.
  rewrite map_map. apply map_ext. exact Hk.
Qed.

Lemma split_of_swapped (data : list (list pixel)) (h w c : nat) :
  well_formed data h w c -> (0 < h)%nat -> (0 < w)%nat ->
  cv2_split (map (map swap_rb) data) =
    [channel_plane 2 data; channel_plane 1 data; channel_plane 0 data].
Proof.
  intros Hwf Hh Hw. unfold cv2_split.
  rewrite (well_formed_channels _ h w 3 (swap_well_formed _ _ _ _ Hwf) Hh Hw).
  simpl.
  rewrite (channel_of_swapped 0 2), (channel_of_swapped 1 1), (channel_of_swapped 2 0);
    reflexivity.
Qed.

Lemma channel_plane_shape (k : nat) (data : list (list pixel)) :
  plane_shape (channel_plane k data) = map (@length pixel) data.
Proof.
  unfold plane_shape, channel_plane. rewrite map_map. apply map_ext.
  intros row. apply length_map.
Qed.

Lemma plane_shape_entry (p : list (list Z)) (data : list (list pixel)) (h w c x y : nat) :
  well_formed data h w c -> plane_shape p = map (@length pixel) data ->
  (x < w)%nat -> (y < h)%nat ->
  exists row, p !! y = Some row /\ length row = w /\ row !! x = Some (nth x (nth y p []) 0).
Proof.
  intros [Hlen Hrows] Hs Hx Hy.
  assert (Hpl : length p = h).
  { rewrite <- Hlen. rewrite <- (length_map (@length Z) p), <- (length_map (@length pixel) data).
    unfold plane_shape in Hs. rewrite Hs. reflexivity. }
  destruct (lookup_lt_is_Some_2 p y ltac:(lia)) as [row Hrow].
  destruct (lookup_lt_is_Some_2 data y ltac:(lia)) as [drow Hdrow].
  assert (Hrl : length row = w).
  { assert (H1 : plane_shape p !! y = Some (length row))
      by (unfold plane_shape; rewrite list_lookup_fmap, Hrow; reflexivity).
    rewrite Hs, list_lookup_fmap, Hdrow in H1. simpl in H1. injection H1 as H1.
    rewrite <- H1.
    apply list_elem_of_lookup_2, list_elem_of_In in Hdrow.
    rewrite List.Forall_forall in Hrows. apply Hrows in Hdrow. apply Hdrow. }
  exists row. split; [exact Hrow|]. split; [exact Hrl|].
  rewrite (nth_lookup_Some _ _ _ _ Hrow).
  destruct (lookup_lt_is_Some_2 row x ltac:(lia)) as [v Hv].
  rewrite Hv. f_equal. symmetry. apply nth_lookup_Some. exact Hv.
Qed.

(** The array [apply_clahe] returns, before the last colour conversion. *)
Lemma apply_clahe_merged (img : pil_image) (h w : nat) (r' g' b' : list (list Z)) :
  well_formed (im_data img) h w 3 -> (0 < h)%nat -> (0 < w)%nat ->
  clahe_apply default_clip_limit default_tile_grid_size (channel_plane 2 (im_data img)) = Ok b' ->
  clahe_apply default_clip_limit default_tile_grid_size (channel_plane 1 (im_data img)) = Ok g' ->
  clahe_apply default_clip_limit default_tile_grid_size (channel_plane 0 (im_data img)) = Ok r' ->
  plane_shape b' = map (@length pixel) (im_data img) ->
  plane_shape g' = map (@length pixel) (im_data img) ->
  plane_shape r' = map (@length pixel) (im_data img) ->
  let merged := imap (fun i row0 =>
                  imap (fun j v0 => [v0; nth j (nth i g' []) 0; nth j (nth i r' []) 0]) row0)
                  b' in
  well_formed merged h w 3 /\
  apply_clahe img = Ok (map (map swap_rb) merged).
Proof.
  intros Hwf Hh Hw Hb Hg Hr Hsb Hsg Hsr merged.
  assert (Hmwf : well_formed merged h w 3).
  { split.
    - unfold merged. rewrite length_imap.
      rewrite <- (length_map (@length Z) b'). fold (plane_shape b'). rewrite Hsb, length_map.
      apply Hwf.
    - apply List.Forall_forall. intros row Hin.
      apply list_elem_of_In, elem_of_lookup_imap in Hin.
      destruct Hin as (y & row0 & -> & Hrow0).
      assert (Hy : (y < h)%nat).
      { apply lookup_lt_Some in Hrow0.
        rewrite <- (length_map (@length Z) b') in Hrow0. fold (plane_shape b') in Hrow0.
        rewrite Hsb, length_map in Hrow0. destruct Hwf as [Hl _]. lia. }
      destruct (plane_shape_entry b' _ h w 3 0 y Hwf Hsb Hw Hy) as (row & Hrow & Hlen & _).
      rewrite Hrow in Hrow0. injection Hrow0 as <-.
      split; [rewrite length_imap; exact Hlen|].
      apply List.Forall_forall. intros p Hp.
      apply list_elem_of_In, elem_of_lookup_imap in Hp.
      destruct Hp as (x & v & -> & _). reflexivity. }
  split; [exact Hmwf|].
  unfold apply_clahe, apply_clahe_with.
  rewrite (cvtColor_swap_well_formed _ h w 3 Hwf Hh Hw (or_introl eq_refl)). simpl.
  rewrite (split_of_swapped _ h w 3 Hwf Hh Hw).
  rewrite Hb. simpl. rewrite Hg. simpl. rewrite Hr. simpl.
  unfold cv2_merge3. rewrite bool_decide_eq_true_2 by (split; congruence). simpl.
  fold merged.
  apply (cvtColor_swap_well_formed merged h w 3 Hmwf Hh Hw (or_introl eq_refl)).
Qed.

(** X2: [apply_clahe] equalises each colour channel by itself and keeps the
    channel order: for an h by w image of three channels, when CLAHE returns
    planes of the size of its arguments, the result is h by w by 3 and the
    value of channel k at a position is that of the equalised plane of
    channel k of the input, whatever the names the planes bear between the
    two colour conversions. *)
Theorem apply_clahe_per_channel (img : pil_image) (h w : nat) (r' g' b' : list (list Z)) :
  well_formed (im_data img) h w 3 -> (0 < h)%nat -> (0 < w)%nat ->
  clahe_apply default_clip_limit default_tile_grid_size (channel_plane 2 (im_data img)) = Ok b' ->
  clahe_apply default_clip_limit default_tile_grid_size (channel_plane 1 (im_data img)) = Ok g' ->
  clahe_apply default_clip_limit default_tile_grid_size (channel_plane 0 (im_data img)) = Ok r' ->
  plane_shape b' = map (@length pixel) (im_data img) ->
  plane_shape g' = map (@length pixel) (im_data img) ->
  plane_shape r' = map (@length pixel) (im_data img) ->
  exists out, apply_clahe img = Ok out /\
    well_formed out h w 3 /\
    forall x y, (x < w)%nat -> (y < h)%nat ->
      entry_at out x y =
        Some [nth x (nth y r' []) 0; nth x (nth y g' []) 0; nth x (nth y b' []) 0].
Proof.
  intros Hwf Hh Hw Hb Hg Hr Hsb Hsg Hsr.
  destruct (apply_clahe_merged img h w r' g' b' Hwf Hh Hw Hb Hg Hr Hsb Hsg Hsr)
    as [Hmwf Hout].
  eexists. split; [exact Hout|]. split.
  - apply (swap_well_formed _ h w 3 Hmwf).
  - intros x y Hx Hy.
    destruct (plane_shape_entry b' _ h w 3 x y Hwf Hsb Hx Hy) as (row & Hrow & Hlen & Hv).
    unfold entry_at. rewrite list_lookup_fmap, list_lookup_imap, Hrow. simpl.
    rewrite list_lookup_fmap, list_lookup_imap, Hv. reflexivity.
Qed.

End ClaheFacts.

(** ** The output size must be positive *)

Section OutputSize.
Context `{B : Backend}.

Lemma div_zero_zero_or_nan (s : bool) (y : spec_float) :
  zero_or_nan (Float64.div (S754_zero s) y).
Proof. destruct y; simpl; exact I. Qed.

Lemma mul_zero_or_nan (x r : spec_float) :
  zero_or_nan r -> zero_or_nan (Float64.mul x r).
Proof. destruct x, r; simpl; intros H; try exact I; destruct H. Qed.

Lemma py_int_zero_or_nan (x : spec_float) (n : Z) :
  zero_or_nan x -> Float64.py_int x = Ok n -> n = 0.
Proof. destruct x; simpl; intros H; try destruct H; congruence. Qed.

(** For [output_size] 0 the ratio is a zero, so is the scaled width, and
    [resize] refuses it. *)
Lemma zero_size_rejected (img : ndarray) (out : pil_image) :
  trim_and_resize img 0 <> Ok out.
Proof.
  intros H.
  destruct (trim_and_resize_Ok img 0 out H)
    as (cropped & im_pil & ratio & w & h & _ & _ & Hr & Hs & Hw & _).
  unfold scale_ratio in Hr.
  change (Float64.py_float 0) with (Ok (S754_zero false)) in Hr.
  unfold rbind, fst, snd in Hr.
  assert (Hq : ratio = Float64.div (S754_zero false)
                         (Float64.of_int (shape1 cropped `max` shape0 cropped)))
    by congruence.
  subst ratio.
  unfold scaled_size, fst, snd in Hs.
  destruct (Float64.py_int
              (Float64.mul (Float64.of_int (shape1 cropped))
                 (Float64.div (S754_zero false)
                    (Float64.of_int (shape1 cropped `max` shape0 cropped)))))
    as [w'|] eqn:Hw'; [|discriminate].
  unfold rbind at 1 in Hs.
  destruct (Float64.py_int
              (Float64.mul (Float64.of_int (shape0 cropped))
                 (Float64.div (S754_zero false)
                    (Float64.of_int (shape1 cropped `max` shape0 cropped)))))
    as [h'|] eqn:Hh'; [|discriminate].
  unfold rbind in Hs. assert (w' = w) by congruence. subst w'.
  apply py_int_zero_or_nan in Hw'; [lia|].
  apply mul_zero_or_nan, div_zero_zero_or_nan.
Qed.

(** X3: [trim_and_resize] returns an image for a positive [output_size] only:
    for zero the scaled size is (0, 0), for a negative value it is not
    positive either or the canvas is refused, and an exception is raised. *)
Theorem trim_and_resize_needs_positive_size (img : ndarray) (S : Z) (out : pil_image) :
  trim_and_resize img S = Ok out -> 0 < S.
Proof.
  intros H.
  destruct (trim_and_resize_Ok img S out H)
    as (_ & _ & _ & _ & _ & _ & _ & _ & _ & _ & _ & HS & _).
  destruct (Z.eq_dec S 0) as [->|]; [|lia].
  exfalso. exact (zero_size_rejected img out H).
Qed.

End OutputSize.

Lemma trim_and_resize_needs_positive_size_witness :
  exists out, trim_and_resize (B := ref_backend) (white 2 3) 4 = Ok out /\ 0 < 4.
Proof.
  assert (Hok : is_ok (trim_and_resize (B := ref_backend) (white 2 3) 4) = true)
    by (vm_compute; reflexivity).
  destruct (trim_and_resize (B := ref_backend) (white 2 3) 4) as [out|e] eqn:Hout;
    [|discriminate].
  exists out. split; [reflexivity|].
  exact (trim_and_resize_needs_positive_size (B := ref_backend) (white 2 3) 4 out Hout).
Defined.

Lemma trim_margins_within_witness :
  exists cropped h' w',
    trim_margins (B := ref_backend) (white 2 3) = Ok cropped /\
    well_formed cropped h' w' 3 /\ (1 <= h' <= 2)%nat /\ (1 <= w' <= 3)%nat.
Proof.
  assert (Hwf : well_formed (white 2 3) 2 3 3) by (split; [reflexivity|repeat constructor]).
  exact (trim_margins_within (B := ref_backend) (white 2 3) 2 3 3 Hwf
           ltac:(lia) ltac:(lia) (or_introl eq_refl)).
Defined.

Lemma apply_clahe_per_channel_witness :
  exists out, apply_clahe (B := ref_backend) (mk_image RGB (3, 2) (white 2 3)) = Ok out /\
    well_formed out 2 3 3.
Proof.
  assert (Hwf : well_formed (white 2 3) 2 3 3) by (split; [reflexivity|repeat constructor]).
  destruct (apply_clahe_per_channel (B := ref_backend) (mk_image RGB (3, 2) (white 2 3)) 2 3
              (channel_plane 0 (white 2 3)) (channel_plane 1 (white 2 3))
              (channel_plane 2 (white 2 3))
              Hwf ltac:(lia) ltac:(lia) eq_refl eq_refl eq_refl eq_refl eq_refl eq_refl)
    as (out & Hout & Hwfo & _).
  exists out. split; assumption.
Defined.

(** ** What a run may touch *)

Section Frame.
Context `{B : Backend}.

Lemma respects_ret {A} (R : filesystem -> filesystem -> Prop) (a : A) :
  (forall fs, R fs fs) -> respects R (ret a).
Proof. intros Hrefl w r w' [= <- <-]. apply Hrefl. Qed.

Lemma respects_bind {A C} (R : filesystem -> filesystem -> Prop)
    (m : M A) (k : A -> M C) :
  (forall a b c, R a b -> R b c -> R a c) ->
  respects R m -> (forall a, respects R (k a)) -> respects R (bind m k).
Proof.
  intros Htrans Hm Hk w r w' H.
  destruct (bind_inv _ _ _ _ _ H) as [(a & w1 & H1 & H2)|(e & H1 & ->)].
  - eapply Htrans; [apply (Hm _ _ _ H1)|apply (Hk a _ _ _ H2)].
  - apply (Hm _ _ _ H1).
Qed.

Lemma respects_for_each {A} (R : filesystem -> filesystem -> Prop)
    (l : list A) (body : A -> M unit) :
  (forall fs, R fs fs) -> (forall a b c, R a b -> R b c -> R a c) ->
  (forall x, In x l -> respects R (body x)) -> respects R (for_each l body).
Proof.
  intros Hrefl Htrans. induction l as [|x rest IH]; intros Hb.
  - apply respects_ret. exact Hrefl.
  - simpl. apply respects_bind; [exact Htrans|apply Hb; left; reflexivity|].
    intros _. apply IH. intros y Hy. apply Hb. right. exact Hy.
Qed.

Lemma content_eq_dec (a b : option (list Byte.byte)) : {a = b} + {a <> b}.
Proof. decide equality. apply List.list_eq_dec. exact Byte.byte_eq_dec. Qed.

Lemma only_outputs_added_refl outp fs : only_outputs_added outp fs fs.
Proof. split; [intros p Hp; congruence|intros d Hd; left; exact Hd]. Qed.

Lemma only_outputs_added_trans outp fs1 fs2 fs3 :
  only_outputs_added outp fs1 fs2 -> only_outputs_added outp fs2 fs3 ->
  only_outputs_added outp fs1 fs3.
Proof.
  intros [Hf1 Hd1] [Hf2 Hd2]. split.
  - intros p Hp.
    destruct (content_eq_dec (fs_files fs2 !! p) (fs_files fs1 !! p)) as [Heq|Hne].
    + rewrite <- Heq in Hp. destruct (Hf2 p Hp) as [Hn Hm].
      split; [congruence|exact Hm].
    + apply Hf1. exact Hne.
  - intros d Hd. destruct (Hd2 d Hd) as [H2|H2]; [|right; exact H2].
    apply Hd1. exact H2.
Qed.

Lemma mkdir_missing_dirs ps fs fs' :
  mkdir_missing ps fs = Ok fs' ->
  forall d, d ∈ fs_dirs fs' -> d ∈ fs_dirs fs \/ In d ps.
Proof.
  revert fs. induction ps as [|p rest IH]; intros fs; simpl.
  - intros [= <-] d Hd. left. exact Hd.
  - destruct (path_exists fs p).
    + intros H d Hd. destruct (IH _ H d Hd); auto.
    + destruct (mkdir p fs) as [fs1|e] eqn:Hm; [|discriminate].
      intros H d Hd. apply mkdir_Ok in Hm. destruct Hm as [_ Hd1].
      destruct (IH _ H d Hd) as [H1|H1]; [|auto].
      rewrite Hd1 in H1. apply elem_of_union in H1. destruct H1 as [H1|H1]; [|auto].
      apply elem_of_singleton in H1. subst d. auto.
Qed.

(** The directories [os.makedirs] adds are its argument and prefixes of
    it. *)
Lemma makedirs_dirs p fs fs' :
  makedirs p fs = Ok fs' ->
  forall d, d ∈ fs_dirs fs' -> d ∈ fs_dirs fs \/ exists n, d = firstn n p.
Proof.
  unfold makedirs.
  destruct (mkdir_missing (ancestors p) fs) as [fs1|e] eqn:Ha; [|discriminate].
  intros Hm d Hd. apply mkdir_Ok in Hm. destruct Hm as [_ Hd1].
  rewrite Hd1 in Hd. apply elem_of_union in Hd. destruct Hd as [Hd|Hd].
  - apply elem_of_singleton in Hd. subst d. right. exists (length p).
    symmetry. apply firstn_all.
  - destruct (mkdir_missing_dirs _ _ _ Ha d Hd) as [H1|H1]; [auto|].
    right. unfold ancestors in H1. apply in_map_iff in H1.
    destruct H1 as (n & <- & _). exists n. reflexivity.
Qed.

Lemma firstn_app_output (outp : path) (sub : string) (n : nat) :
  output_dir outp (firstn n (outp ++ [sub])) \/ firstn n (outp ++ [sub]) = outp ++ [sub].
Proof.
  destruct (Nat.le_gt_cases n (length outp)) as [Hle|Hgt].
  - left. left. exists n. rewrite firstn_app.
    replace (n - length outp)%nat with 0%nat by lia. simpl. apply app_nil_r.
  - right. apply firstn_all2. rewrite length_app. simpl. lia.
Qed.

Lemma respects_ensure_output_root outp :
  respects (only_outputs_added outp) (ensure_dir outp).
Proof.
  intros w r w'. unfold ensure_dir, bind, os_path_exists, os_makedirs, ret. simpl.
  destruct (path_exists (w_fs w) outp); simpl.
  - intros [= <- <-]. apply only_outputs_added_refl.
  - destruct (makedirs outp (w_fs w)) as [fs'|e] eqn:Hm; intros [= <- <-]; simpl.
    + pose proof (makedirs_Ok _ _ _ Hm) as (Hf & _ & _). split.
      * intros p Hp. rewrite Hf in Hp. congruence.
      * intros d Hd. destruct (makedirs_dirs _ _ _ Hm d Hd) as [H1|[n ->]]; [auto|].
        right. left. exists n. reflexivity.
    + apply only_outputs_added_refl.
Qed.

Lemma respects_ensure_output_subfolder outp sub :
  In sub subfolders ->
  respects (only_outputs_added outp) (ensure_dir (outp ++ [sub])).
Proof.
  intros Hsub w r w'. unfold ensure_dir, bind, os_path_exists, os_makedirs, ret. simpl.
  destruct (path_exists (w_fs w) (outp ++ [sub])); simpl.
  - intros [= <- <-]. apply only_outputs_added_refl.
  - destruct (makedirs (outp ++ [sub]) (w_fs w)) as [fs'|e] eqn:Hm;
      intros [= <- <-]; simpl.
    + pose proof (makedirs_Ok _ _ _ Hm) as (Hf & _ & _). split.
      * intros p Hp. rewrite Hf in Hp. congruence.
      * intros d Hd. destruct (makedirs_dirs _ _ _ Hm d Hd) as [H1|[n ->]]; [auto|].
        right. destruct (firstn_app_output outp sub n) as [H| ->]; [exact H|].
        right. exists sub. auto.
    + apply only_outputs_added_refl.
Qed.

Lemma respects_load_transform_write inp outp S sub f :
  In sub subfolders -> is_image_name f = true ->
  forall w r w',
    fs_files (w_fs w) !! (outp ++ [sub; f]) = None ->
    load_transform_write (inp ++ [sub; f]) (outp ++ [sub; f]) S w = (r, w') ->
    only_outputs_added outp (w_fs w) (w_fs w').
Proof.
  intros Hsub Himg w r w' Hnone.
  unfold load_transform_write, bind, cv2_imread, call, print, ret. simpl.
  destruct (imread (w_fs w) (inp ++ [sub; f])) as [[im|]|e];
    [|intros [= <- <-]; apply only_outputs_added_refl..].
  destruct (trim_and_resize im S) as [tr|e];
    [|intros [= <- <-]; apply only_outputs_added_refl].
  destruct (apply_clahe tr) as [cl|e];
    [|intros [= <- <-]; apply only_outputs_added_refl].
  unfold cv2_imwrite. simpl.
  destruct (imencode (basename (outp ++ [sub; f])) cl) as [bytes|e];
    [|intros [= <- <-]; apply only_outputs_added_refl].
  destruct (is_dir (w_fs w) (dirname (outp ++ [sub; f])) &&
            negb (is_dir (w_fs w) (outp ++ [sub; f])));
    intros [= <- <-]; simpl; [|apply only_outputs_added_refl].
  split; simpl.
  - intros p Hp. destruct (decide (p = outp ++ [sub; f])) as [->|Hne].
    + split; [exact Hnone|]. exists sub, f. auto.
    + rewrite lookup_insert_ne in Hp by congruence. congruence.
  - intros d Hd. left. exact Hd.
Qed.

Lemma respects_process_file inp outp S sub f :
  In sub subfolders -> is_image_name f = true ->
  respects (only_outputs_added outp) (process_file inp outp S sub f).
Proof.
  intros Hsub Himg w r w' H.
  destruct (path_exists (w_fs w) (outp ++ [sub; f])) eqn:He.
  - rewrite (process_file_skip _ _ _ _ _ _ He) in H. injection H as <- <-.
    apply only_outputs_added_refl.
  - rewrite (process_file_attempt _ _ _ _ _ _ He) in H.
    assert (Hbody : forall rb wb,
              process_body (inp ++ [sub; f]) (outp ++ [sub; f]) S
                (log (E_exists (outp ++ [sub; f])) w) = (rb, wb) ->
              only_outputs_added outp (w_fs w) (w_fs wb)).
    { intros rb wb Hb. unfold process_body in Hb. rewrite dirname_output in Hb.
      destruct (bind_inv _ _ _ _ _ Hb) as [(a & w1 & H1 & H2)|(e & H1 & ->)].
      - pose proof (respects_ensure_output_subfolder outp sub Hsub _ _ _ H1) as R1.
        pose proof (ensure_dir_files _ _ _ _ H1) as Hf. simpl in R1, Hf.
        eapply only_outputs_added_trans; [exact R1|].
        apply (respects_load_transform_write inp outp S sub f Hsub Himg w1 rb wb);
          [|exact H2].
        rewrite Hf. apply (path_exists_false _ _ He).
      - apply (respects_ensure_output_subfolder outp sub Hsub _ _ _ H1). }
    destruct (process_body _ _ S _) as [[a|e] w1] eqn:Hb; injection H as <- <-.
    + apply (Hbody _ _ eq_refl).
    + simpl. apply (Hbody _ _ eq_refl).
Qed.

Lemma respects_process_subfolder inp outp S sub :
  In sub subfolders ->
  respects (only_outputs_added outp) (process_subfolder inp outp S sub).
Proof.
  intros Hsub w r w' H.
  destruct (path_exists (w_fs w) (inp ++ [sub])) eqn:He.
  - rewrite (process_subfolder_present _ _ _ _ _ He) in H.
    destruct (listdir (w_fs w) (inp ++ [sub])) as [names|e].
    + apply (respects_for_each (only_outputs_added outp)
               (List.filter is_image_name names) (process_file inp outp S sub)
               (only_outputs_added_refl outp) (only_outputs_added_trans outp)) in H.
      * exact H.
      * intros f Hf. apply filter_In in Hf. apply respects_process_file; tauto.
    + injection H as <- <-. apply only_outputs_added_refl.
  - rewrite (process_subfolder_absent _ _ _ _ _ He) in H. injection H as <- <-.
    apply only_outputs_added_refl.
Qed.

(** X4: a run writes nowhere but in the output tree: every file it adds is a
    new file [output_root/<subfolder>/<image name>] for one of the six
    subfolders and a name with an image extension, no existing file is
    changed, and every directory it adds is the output root, a directory
    above it or one of its six subfolders. *)
Theorem run_writes_only_outputs inp outp S w r w' :
  process_and_save_images inp outp S w = (r, w') ->
  (forall p, fs_files (w_fs w') !! p <> fs_files (w_fs w) !! p ->
     fs_files (w_fs w) !! p = None /\ mirrored_output outp p) /\
  (forall d, d ∈ fs_dirs (w_fs w') -> d ∈ fs_dirs (w_fs w) \/ output_dir outp d).
Proof.
  intros H. unfold process_and_save_images in H.
  apply (respects_bind (only_outputs_added outp) _ _ (only_outputs_added_trans outp)) in H.
  - exact H.
  - apply respects_ensure_output_root.
  - intros _. apply respects_for_each.
    + apply only_outputs_added_refl.
    + apply only_outputs_added_trans.
    + intros sub Hsub. apply respects_process_subfolder. exact Hsub.
Qed.

End Frame.

(** ** The outcomes of an attempt and of a run *)

Section Outcomes.
Context `{B : Backend}.

Lemma makedirs_fresh p fs fs' : makedirs p fs = Ok fs' -> path_exists fs p = false.
Proof.
  unfold makedirs.
  destruct (mkdir_missing (ancestors p) fs) as [fs1|e] eqn:Ha; [|discriminate].
  intros Hm. destruct (path_exists fs p) eqn:He; [|reflexivity].
  apply mkdir_missing_Ok in Ha. destruct Ha as [Hf Hd].
  assert (H1 : path_exists fs1 p = true).
  { apply (path_exists_grows fs fs1); [|exact He]. split; [exact Hd|]. rewrite Hf. reflexivity. }
  unfold mkdir in Hm. rewrite H1 in Hm. discriminate.
Qed.

Lemma output_longer (outp : path) (sub f : string) (n : nat) :
  outp ++ [sub; f] <> firstn n (outp ++ [sub]).
Proof.
  intros H. apply (f_equal (@length string)) in H.
  rewrite length_app, length_firstn, length_app in H. simpl in H. lia.
Qed.

(** After the output subfolder has been ensured it is a directory and the
    output path is still free. *)
Lemma ensure_dir_ready outp sub f w :
  path_exists (w_fs w) (outp ++ [sub; f]) = false ->
  is_dir (w_fs w) (outp ++ [sub]) = true \/
    (exists fs', makedirs (outp ++ [sub]) (w_fs w) = Ok fs') ->
  exists w1, ensure_dir (outp ++ [sub]) (log (E_exists (outp ++ [sub; f])) w) = (Ok tt, w1) /\
    is_dir (w_fs w1) (outp ++ [sub]) = true /\
    is_dir (w_fs w1) (outp ++ [sub; f]) = false /\
    fs_files (w_fs w1) = fs_files (w_fs w) /\
    printed (w_trace w1) = printed (w_trace w).
Proof.
  intros He Hsub. apply path_exists_false in He. destruct He as (Hne & Hnd & Hnf).
  unfold ensure_dir, bind, os_path_exists, os_makedirs, ret. simpl.
  destruct (path_exists (w_fs w) (outp ++ [sub])) eqn:Hs; simpl.
  - destruct Hsub as [Hd|[fs' Hm]].
    + eexists. split; [reflexivity|]. simpl. split; [exact Hd|]. split.
      * apply bool_decide_eq_false. intros [H|H]; contradiction.
      * split; [reflexivity|]. rewrite !printed_app. simpl. rewrite !app_nil_r. reflexivity.
    + apply makedirs_fresh in Hm. congruence.
  - destruct Hsub as [Hd|[fs' Hm]].
    + unfold path_exists in Hs. rewrite Hd in Hs. discriminate.
    + rewrite Hm. eexists. split; [reflexivity|]. simpl.
      pose proof (makedirs_Ok _ _ _ Hm) as (Hf & _ & Hin). split.
      * apply is_dir_true. right. exact Hin.
      * split.
        -- apply bool_decide_eq_false. intros [H|H]; [contradiction|].
           destruct (makedirs_dirs _ _ _ Hm _ H) as [H1|[n H1]]; [contradiction|].
           exact (output_longer outp sub f n H1).
        -- split; [exact Hf|]. rewrite !printed_app. simpl. rewrite !app_nil_r. reflexivity.
Qed.

Lemma attempt_writes inp outp S sub f w im tr cl bytes :
  path_exists (w_fs w) (outp ++ [sub; f]) = false ->
  is_dir (w_fs w) (outp ++ [sub]) = true \/
    (exists fs', makedirs (outp ++ [sub]) (w_fs w) = Ok fs') ->
  imread (w_fs w) (inp ++ [sub; f]) = Ok (Some im) ->
  trim_and_resize im S = Ok tr ->
  apply_clahe tr = Ok cl ->
  imencode f cl = Ok bytes ->
  exists w', process_file inp outp S sub f w = (Ok tt, w') /\
    fs_files (w_fs w') = <[ outp ++ [sub; f] := bytes ]> (fs_files (w_fs w)) /\
    printed (w_trace w') = printed (w_trace w) ++
      ["Processed and saved: " +:+ path_str (outp ++ [sub; f])].
Proof.
  intros He Hsub Hread Htr Hcl Henc.
  destruct (ensure_dir_ready outp sub f w He Hsub) as (w1 & H1 & Hd1 & Hd2 & Hf1 & Hp1).
  rewrite (process_file_attempt _ _ _ _ _ _ He).
  unfold process_body. rewrite dirname_output.
  rewrite (bind_Ok _ _ _ _ _ H1).
  unfold load_transform_write, bind, cv2_imread, call, cv2_imwrite, print. simpl.
  rewrite (imread_files (w_fs w) (w_fs w1) _ Hf1), Hread, Htr, Hcl.
  assert (Hb : basename (outp ++ [sub; f]) = f).
  { unfold basename. change [sub; f] with ([sub] ++ [f]). rewrite app_assoc.
    apply last_last. }
  rewrite Hb, Henc, dirname_output. unfold log, with_events. simpl.
  rewrite Hd1, Hd2. simpl.
  eexists. split; [reflexivity|]. simpl. split; [rewrite Hf1; reflexivity|].
  rewrite !printed_app. simpl. rewrite !app_nil_r, Hp1. reflexivity.
Qed.

(** X5: the success path of one file (lines 62 to 74): when the output is
    missing, its subfolder is a directory or can be created, the image
    loads and both transformations and the encoder succeed, the attempt
    returns normally, the disk gains exactly the file
    [output_root/<subfolder>/<name>] holding the encoding of the
    CLAHE-enhanced, trimmed and resized image, one line
    "Processed and saved: <output path>" is printed, and the next attempt
    on the same file skips it. *)
Theorem process_file_saves inp outp S sub f w im tr cl bytes :
  path_exists (w_fs w) (outp ++ [sub; f]) = false ->
  is_dir (w_fs w) (outp ++ [sub]) = true \/
    (exists fs', makedirs (outp ++ [sub]) (w_fs w) = Ok fs') ->
  imread (w_fs w) (inp ++ [sub; f]) = Ok (Some im) ->
  trim_and_resize im S = Ok tr ->
  apply_clahe tr = Ok cl ->
  imencode f cl = Ok bytes ->
  exists w', process_file inp outp S sub f w = (Ok tt, w') /\
    fs_files (w_fs w') = <[ outp ++ [sub; f] := bytes ]> (fs_files (w_fs w)) /\
    printed (w_trace w') = printed (w_trace w) ++
      ["Processed and saved: " +:+ path_str (outp ++ [sub; f])] /\
    process_file inp outp S sub f w' =
      (Ok tt, with_events w'
                [E_exists (outp ++ [sub; f]);
                 E_print ("Skipping " +:+ path_str (outp ++ [sub; f])
                            +:+ ", already exists.")]).
Proof.
  intros He Hsub Hread Htr Hcl Henc.
  destruct (attempt_writes inp outp S sub f w im tr cl bytes He Hsub Hread Htr Hcl Henc)
    as (w' & H & Hf & Hp).
  exists w'. split; [exact H|]. split; [exact Hf|]. split; [exact Hp|].
  apply process_file_skip. apply path_exists_true. right. right.
  rewrite Hf, lookup_insert_eq. eexists. reflexivity.
Qed.

(** X6: the answer of [cv2.imwrite] is not looked at (lines 73 and 74): when
    the output subfolder's path is taken by a regular file, so that no
    directory is made and the image cannot be written, the attempt still
    prints "Processed and saved: <output path>", prints no error, returns
    normally and leaves the disk as it was. *)
Theorem saved_message_without_file inp outp S sub f w im tr cl bytes :
  path_exists (w_fs w) (outp ++ [sub; f]) = false ->
  is_file (w_fs w) (outp ++ [sub]) = true ->
  is_dir (w_fs w) (outp ++ [sub]) = false ->
  imread (w_fs w) (inp ++ [sub; f]) = Ok (Some im) ->
  trim_and_resize im S = Ok tr ->
  apply_clahe tr = Ok cl ->
  imencode f cl = Ok bytes ->
  exists w', process_file inp outp S sub f w = (Ok tt, w') /\
    w_fs w' = w_fs w /\
    path_exists (w_fs w') (outp ++ [sub; f]) = false /\
    printed (w_trace w') = printed (w_trace w) ++
      ["Processed and saved: " +:+ path_str (outp ++ [sub; f])].
Proof.
  intros He Hfile Hdir Hread Htr Hcl Henc.
  rewrite (process_file_attempt _ _ _ _ _ _ He).
  unfold process_body. rewrite dirname_output.
  unfold ensure_dir, bind, os_path_exists, ret. simpl.
  assert (Hs : path_exists (w_fs w) (outp ++ [sub]) = true).
  { unfold path_exists. rewrite Hfile. apply orb_true_r. }
  rewrite Hs. simpl.
  unfold load_transform_write, bind, cv2_imread, call, cv2_imwrite, print. simpl.
  rewrite Hread, Htr, Hcl.
  assert (Hb : basename (outp ++ [sub; f]) = f).
  { unfold basename. change [sub; f] with ([sub] ++ [f]). rewrite app_assoc.
    apply last_last. }
  rewrite Hb, Henc, dirname_output. unfold log, with_events. simpl.
  rewrite Hdir. simpl.
  eexists. split; [reflexivity|]. simpl. split; [reflexivity|]. split; [exact He|].
  rewrite !printed_app. simpl. rewrite !app_nil_r. reflexivity.
Qed.

Lemma outer_loop_all_missing inp outp S subs w :
  (forall sub, In sub subs -> path_exists (w_fs w) (inp ++ [sub]) = false) ->
  for_each subs (process_subfolder inp outp S) w =
    (Ok tt, with_events w (flat_map (skip_events inp) subs)).
Proof.
  revert w. induction subs as [|sub rest IH]; intros w Hmiss; simpl.
  - unfold ret. rewrite with_events_nil. reflexivity.
  - rewrite (bind_Ok _ _ _ _ _
               (process_subfolder_absent inp outp S sub w (Hmiss sub (or_introl eq_refl)))).
    rewrite IH.
    + rewrite with_events_app. reflexivity.
    + intros s Hs. simpl. apply Hmiss. right. exact Hs.
Qed.

(** X8: a wrong input folder is not an error: when none of the six subfolders
    exists once the output root is in place, the run returns normally,
    loads and writes no image, changes nothing on disk beyond the output
    root, and prints the six lines
    "Subfolder <k> does not exist. Skipping." for k = 0 to 5, in this
    order. *)
Theorem run_on_missing_subfolders inp outp S w w1 :
  ensure_dir outp w = (Ok tt, w1) ->
  (forall sub, In sub subfolders -> path_exists (w_fs w1) (inp ++ [sub]) = false) ->
  exists w', process_and_save_images inp outp S w = (Ok tt, w') /\
    w_fs w' = w_fs w1 /\
    fs_files (w_fs w') = fs_files (w_fs w) /\
    w_trace w' = w_trace w1 ++ flat_map (skip_events inp) subfolders /\
    printed (w_trace w') = printed (w_trace w) ++
      map (fun sub => "Subfolder " +:+ sub +:+ " does not exist. Skipping.")
          ["0"; "1"; "2"; "3"; "4"; "5"].
Proof.
  intros H1 Hmiss. unfold process_and_save_images.
  rewrite (bind_Ok _ _ _ _ _ H1), (outer_loop_all_missing _ _ _ _ _ Hmiss).
  eexists. split; [reflexivity|]. simpl. split; [reflexivity|].
  split; [apply (ensure_dir_files _ _ _ _ H1)|]. split; [reflexivity|].
  assert (Hp : printed (w_trace w1) = printed (w_trace w)).
  { revert H1. unfold ensure_dir, bind, os_path_exists, os_makedirs, ret. simpl.
    destruct (path_exists (w_fs w) outp); simpl.
    - intros [= <-]. simpl. rewrite printed_app. simpl. apply app_nil_r.
    - destruct (makedirs outp (w_fs w)); intros [= <-]. simpl.
      rewrite !printed_app. simpl. rewrite !app_nil_r. reflexivity. }
  rewrite printed_app, Hp. reflexivity.
Qed.

End Outcomes.

(** ** The two transformations together *)

Section Pipeline.
Context `{B : Backend}.

Lemma trim_and_resize_shape (img : ndarray) (S : Z) (tr : pil_image) :
  trim_and_resize img S = Ok tr ->
  well_formed (im_data tr) (Z.to_nat S) (Z.to_nat S) 3.
Proof.
  intros H.
  destruct (trim_and_resize_Ok img S tr H)
    as (cropped & im_pil & ratio & w & h & _ & _ & _ & _ & _ & _ & _ & ->).
  destruct (Image_paste_shape
              (mk_image RGB (S, S) (replicate (Z.to_nat S) (replicate (Z.to_nat S) black)))
              (mk_image (im_mode im_pil) (w, h) (lanczos cropped (w, h)))
              (paste_offset S (w, h)) (Z.to_nat S) (Z.to_nat S))
    as (_ & _ & Hlen & Hrows).
  - simpl. apply length_replicate.
  - simpl. apply black_canvas_shape.
  - split; [exact Hlen|exact Hrows].
Qed.

(** X9: what is handed to [cv2.imwrite] (lines 71 and 72): when
    [trim_and_resize] returns for [output_size] S and CLAHE keeps the size
    of the planes it is given, [apply_clahe] accepts the result and returns
    an array of S rows, S columns and three channels. *)
Theorem pipeline_output_shape (img : ndarray) (S : Z) (tr : pil_image) :
  shape_preserving_clahe ->
  trim_and_resize img S = Ok tr ->
  exists out, apply_clahe tr = Ok out /\
    well_formed out (Z.to_nat S) (Z.to_nat S) 3.
Proof.
  intros Hclahe H.
  assert (HS : 0 < S).
  { destruct (trim_and_resize_Ok img S tr H)
      as (_ & _ & _ & _ & _ & _ & _ & _ & _ & _ & _ & HS & _).
    destruct (Z.eq_dec S 0) as [->|]; [|lia].
    exfalso. exact (zero_size_rejected img tr H). }
  pose proof (trim_and_resize_shape img S tr H) as Hwf.
  destruct (Hclahe (channel_plane 2 (im_data tr))) as (b' & Hb & Hsb).
  destruct (Hclahe (channel_plane 1 (im_data tr))) as (g' & Hg & Hsg).
  destruct (Hclahe (channel_plane 0 (im_data tr))) as (r' & Hr & Hsr).
  rewrite channel_plane_shape in Hsb, Hsg, Hsr.
  destruct (apply_clahe_merged tr (Z.to_nat S) (Z.to_nat S) r' g' b' Hwf
              ltac:(lia) ltac:(lia) Hb Hg Hr Hsb Hsg Hsr) as [Hmwf Hout].
  eexists. split; [exact Hout|].
  apply (swap_well_formed _ (Z.to_nat S) (Z.to_nat S) 3 Hmwf).
Qed.

End Pipeline.

Lemma pipeline_output_shape_witness :
  exists tr out,
    trim_and_resize (B := ref_backend) (white 2 3) 4 = Ok tr /\
    apply_clahe (B := ref_backend) tr = Ok out /\
    well_formed out 4 4 3.
Proof.
  assert (Hc : shape_preserving_clahe (B := ref_backend)).
  { intros plane. exists plane. split; reflexivity. }
  assert (Hok : is_ok (trim_and_resize (B := ref_backend) (white 2 3) 4) = true)
    by (vm_compute; reflexivity).
  destruct (trim_and_resize (B := ref_backend) (white 2 3) 4) as [tr|e] eqn:Htr;
    [|discriminate].
  destruct (pipeline_output_shape (B := ref_backend) (white 2 3) 4 tr Hc Htr)
    as (out & Hout & Hwf).
  exists tr, out. split; [reflexivity|]. split; [exact Hout|exact Hwf].
Defined.

(** ** Every good image gets its output *)

Section Completeness.
Context `{B : Backend}.

Lemma respects_and {A} (R1 R2 : filesystem -> filesystem -> Prop) (m : M A) :
  respects R1 m -> respects R2 m -> respects (fun fs fs' => R1 fs fs' /\ R2 fs fs') m.
Proof. intros H1 H2 w r w' H. split; [apply (H1 _ _ _ H)|apply (H2 _ _ _ H)]. Qed.

Lemma inner_respects_grows {A} (m : M A) : inner m -> respects grows m.
Proof. intros Hm w r w' H. apply (Hm _ _ _ H). Qed.

Lemma advances_refl outp fs : advances outp fs fs.
Proof. split; [apply grows_refl|apply only_outputs_added_refl]. Qed.

Lemma advances_trans outp fs1 fs2 fs3 :
  advances outp fs1 fs2 -> advances outp fs2 fs3 -> advances outp fs1 fs3.
Proof.
  intros [G1 O1] [G2 O2].
  split; [exact (grows_trans _ _ _ G1 G2)|exact (only_outputs_added_trans _ _ _ _ O1 O2)].
Qed.

Lemma advances_process_file inp outp S sub f :
  In sub subfolders -> is_image_name f = true ->
  respects (advances outp) (process_file inp outp S sub f).
Proof.
  intros Hsub Himg. apply respects_and.
  - apply inner_respects_grows, inner_process_file.
  - apply respects_process_file; assumption.
Qed.

Lemma advances_process_subfolder inp outp S sub :
  In sub subfolders ->
  respects (advances outp) (process_subfolder inp outp S sub).
Proof.
  intros Hsub. apply respects_and.
  - intros w r w' H. apply (process_subfolder_effects _ _ _ _ _ _ _ H).
  - apply respects_process_subfolder. exact Hsub.
Qed.

Lemma advances_ensure_output_root outp : respects (advances outp) (ensure_dir outp).
Proof.
  apply respects_and.
  - apply inner_respects_grows, inner_ensure_dir.
  - apply respects_ensure_output_root.
Qed.

(** An element of the list a loop runs over is reached, in a state the
    start leads to, and what it leaves leads to the end. *)
Lemma for_each_reaches {A} (R : filesystem -> filesystem -> Prop)
    (l : list A) (body : A -> M unit) (x : A) :
  (forall fs, R fs fs) -> (forall a b c, R a b -> R b c -> R a c) ->
  (forall y, In y l -> respects R (body y)) ->
  In x l ->
  forall w w', for_each l body w = (Ok tt, w') ->
  exists w1 w2, R (w_fs w) (w_fs w1) /\ body x w1 = (Ok tt, w2) /\ R (w_fs w2) (w_fs w').
Proof.
  intros Hrefl Htrans. induction l as [|y rest IH]; intros Hb Hin w w' H; [destruct Hin|].
  simpl in H.
  destruct (bind_inv _ _ _ _ _ H) as [(a & wy & H1 & H2)|(e & _ & He)]; [|discriminate].
  destruct a.
  destruct Hin as [->|Hin].
  - exists w, wy. split; [apply Hrefl|]. split; [exact H1|].
    apply (respects_for_each R rest body Hrefl Htrans) in H2; [exact H2|].
    intros z Hz. apply Hb. right. exact Hz.
  - destruct (IH (fun z Hz => Hb z (or_intror Hz)) Hin wy w' H2) as (w1 & w2 & R1 & Hx & R2).
    exists w1, w2. split; [|split; assumption].
    apply (Htrans _ (w_fs wy)); [|exact R1].
    apply (Hb y (or_introl eq_refl) _ _ _ H1).
Qed.

Lemma basename_snoc (p : path) (f : string) : basename (p ++ [f]) = f.
Proof. unfold basename. apply last_last. Qed.

Lemma dirname_snoc (p : path) (f : string) : dirname (p ++ [f]) = p.
Proof. unfold dirname. apply removelast_last. Qed.

(** [os.listdir] names every file of the directory. *)
Lemma children_file fs (p : path) (f : string) (content : list Byte.byte) :
  fs_files fs !! (p ++ [f]) = Some content -> In f (children fs p).
Proof.
  intros H. unfold children. apply in_map_iff. exists (p ++ [f]).
  split; [apply basename_snoc|]. apply filter_In. split.
  - apply list_elem_of_In, elem_of_elements, elem_of_union. right.
    apply elem_of_dom. eexists. exact H.
  - apply bool_decide_eq_true. split; [|apply dirname_snoc].
    intros Hnil. apply app_eq_nil in Hnil. destruct Hnil as [_ Hnil]. discriminate.
Qed.

Lemma mirrored_output_length outp p :
  mirrored_output outp p -> length p = (length outp + 2)%nat.
Proof. intros (sub & f & _ & _ & ->). rewrite length_app. reflexivity. Qed.

(** An unobstructed output subfolder stays so: the run writes files two
    levels below the output root only. *)
Lemma unobstructed_advances outp sub fs fs' :
  advances outp fs fs' ->
  unobstructed fs (outp ++ [sub]) -> unobstructed fs' (outp ++ [sub]).
Proof.
  intros [Hg [Hf Hd]] Hu n He.
  apply path_exists_true in He. apply is_dir_true.
  destruct He as [He|[He|[c He]]]; [left; exact He|right; exact He|].
  destruct (content_eq_dec (fs_files fs' !! firstn n (outp ++ [sub]))
                           (fs_files fs !! firstn n (outp ++ [sub]))) as [Heq|Hne].
  - assert (Hpe : path_exists fs (firstn n (outp ++ [sub])) = true).
    { apply path_exists_true. right. right. exists c.
      etransitivity; [symmetry; exact Heq|exact He]. }
    apply Hu, is_dir_true in Hpe. destruct Hpe as [Hp|Hp]; [left; exact Hp|right].
    destruct Hg as [Hdirs _]. apply Hdirs. exact Hp.
  - destruct (Hf _ Hne) as [_ Hm]. apply mirrored_output_length in Hm.
    rewrite length_firstn, length_app in Hm. simpl in Hm. lia.
Qed.

(** [os.makedirs] succeeds on a missing path none of whose components is
    obstructed. *)
Lemma mkdir_missing_succeeds (p : path) (k a : nat) (fs : filesystem) :
  (1 <= a)%nat -> (a + k <= length p)%nat ->
  is_dir fs (firstn (a - 1) p) = true ->
  path_exists fs p = false ->
  unobstructed fs p ->
  exists fs', mkdir_missing (map (fun n => firstn n p) (seq a k)) fs = Ok fs' /\
    is_dir fs' (firstn (a + k - 1) p) = true /\
    path_exists fs' p = false.
Proof.
  revert a fs. induction k as [|k IH]; intros a fs Ha Hle Hprev Hp Hu; simpl.
  - exists fs. split; [reflexivity|]. rewrite Nat.add_0_r. split; assumption.
  - destruct (path_exists fs (firstn a p)) eqn:He.
    + destruct (IH (S a) fs ltac:(lia) ltac:(lia)) as (fs' & H1 & H2 & H3).
      * replace (S a - 1)%nat with a by lia. apply Hu. exact He.
      * exact Hp.
      * exact Hu.
      * exists fs'. split; [exact H1|]. split; [|exact H3].
        replace (a + S k - 1)%nat with (S a + k - 1)%nat by lia. exact H2.
    + unfold mkdir. rewrite He.
      assert (Hdn : dirname (firstn a p) = firstn (a - 1) p).
      { unfold dirname. destruct a as [|a']; [lia|].
        replace (S a' - 1)%nat with a' by lia. apply removelast_firstn. lia. }
      rewrite Hdn, Hprev.
      set (fs1 := mk_fs ({[ firstn a p ]} ∪ fs_dirs fs) (fs_files fs)).
      assert (Hneq : firstn a p <> p).
      { intros Heq. apply (f_equal (@length string)) in Heq.
        rewrite length_firstn in Heq. lia. }
      destruct (IH (S a) fs1 ltac:(lia) ltac:(lia)) as (fs' & H1 & H2 & H3).
      * replace (S a - 1)%nat with a by lia. apply is_dir_true. right. simpl.
        apply elem_of_union. left. apply elem_of_singleton. reflexivity.
      * apply path_exists_false in Hp. destruct Hp as (Hp1 & Hp2 & Hp3).
        destruct (path_exists fs1 p) eqn:Hp'; [|reflexivity].
        apply path_exists_true in Hp'. simpl in Hp'.
        destruct Hp' as [Hq|[Hq|[c Hq]]]; [contradiction| |congruence].
        apply elem_of_union in Hq. destruct Hq as [Hq|Hq]; [|contradiction].
        apply elem_of_singleton in Hq. congruence.
      * intros n Hn. apply path_exists_true in Hn. simpl in Hn. apply is_dir_true. simpl.
        destruct Hn as [Hn|[Hn|Hn]]; [left; exact Hn|right; exact Hn|].
        assert (Hpe : path_exists fs (firstn n p) = true)
          by (apply path_exists_true; right; right; exact Hn).
        apply Hu, is_dir_true in Hpe. destruct Hpe as [Hq|Hq]; [left; exact Hq|right].
        apply elem_of_union. right. exact Hq.
      * exists fs'. split; [exact H1|]. split; [|exact H3].
        replace (a + S k - 1)%nat with (S a + k - 1)%nat by lia. exact H2.
Qed.

Lemma makedirs_succeeds (p : path) (fs : filesystem) :
  path_exists fs p = false -> unobstructed fs p ->
  exists fs', makedirs p fs = Ok fs'.
Proof.
  intros Hp Hu. unfold makedirs, ancestors.
  assert (Hne : p <> []) by (apply path_exists_false in Hp; tauto).
  assert (Hlen : (1 <= length p)%nat) by (destruct p; [contradiction|simpl; lia]).
  destruct (mkdir_missing_succeeds p (length p - 1) 1 fs ltac:(lia) ltac:(lia))
    as (fs1 & H1 & H2 & H3).
  - simpl. apply is_dir_true. left. reflexivity.
  - exact Hp.
  - exact Hu.
  - rewrite H1. unfold mkdir. rewrite H3.
    assert (Hdn : dirname p = firstn (1 + (length p - 1) - 1) p).
    { unfold dirname. replace (1 + (length p - 1) - 1)%nat with (length p - 1)%nat by lia.
      rewrite <- (firstn_all p) at 1.
      replace (length p) with (S (length p - 1)) at 1 by lia.
      apply removelast_firstn. lia. }
    rewrite Hdn, H2. eexists. reflexivity.
Qed.

Lemma good_image_saved inp outp S sub f w w' content im tr cl bytes :
  process_file inp outp S sub f w = (Ok tt, w') ->
  unobstructed (w_fs w) (outp ++ [sub]) ->
  fs_files (w_fs w) !! (inp ++ [sub; f]) = Some content ->
  imdecode content = Ok (Some im) ->
  trim_and_resize im S = Ok tr ->
  apply_clahe tr = Ok cl ->
  imencode f cl = Ok bytes ->
  path_exists (w_fs w') (outp ++ [sub; f]) = true.
Proof.
  intros H Hu Hin Hdec Htr Hcl Henc.
  destruct (path_exists (w_fs w) (outp ++ [sub; f])) eqn:He.
  - rewrite (process_file_skip _ _ _ _ _ _ He) in H. injection H as <-. exact He.
  - assert (Hsub : is_dir (w_fs w) (outp ++ [sub]) = true \/
                   (exists fs', makedirs (outp ++ [sub]) (w_fs w) = Ok fs')).
    { destruct (path_exists (w_fs w) (outp ++ [sub])) eqn:Hs.
      - left. specialize (Hu (length (outp ++ [sub]))).
        rewrite firstn_all in Hu. apply Hu. exact Hs.
      - right. apply makedirs_succeeds; assumption. }
    assert (Hread : imread (w_fs w) (inp ++ [sub; f]) = Ok (Some im)).
    { unfold imread. unfold path in *. rewrite Hin. exact Hdec. }
    destruct (attempt_writes inp outp S sub f w im tr cl bytes He Hsub Hread Htr Hcl Henc)
      as (w2 & H2 & Hf & _).
    rewrite H2 in H. injection H as <-.
    apply path_exists_true. right. right. rewrite Hf, lookup_insert_eq. eexists. reflexivity.
Qed.

(** X10: no good image is left out.  When the run returns, every file with an
    image extension that was in one of the six input subfolders at the
    start, decodes, and passes both transformations and the encoder, has
    something at its output path [output_root/<subfolder>/<name>] at the
    end, provided no component of the output subfolder's path was taken by
    a regular file at the start. *)
Theorem run_saves_good_images inp outp S w w' sub f content im tr cl bytes :
  process_and_save_images inp outp S w = (Ok tt, w') ->
  In sub subfolders ->
  is_dir (w_fs w) (inp ++ [sub]) = true ->
  is_image_name f = true ->
  fs_files (w_fs w) !! (inp ++ [sub; f]) = Some content ->
  imdecode content = Ok (Some im) ->
  trim_and_resize im S = Ok tr ->
  apply_clahe tr = Ok cl ->
  imencode f cl = Ok bytes ->
  unobstructed (w_fs w) (outp ++ [sub]) ->
  path_exists (w_fs w') (outp ++ [sub; f]) = true.
Proof.
  intros H Hsub Hdir Himg Hin Hdec Htr Hcl Henc Hu.
  unfold process_and_save_images in H.
  destruct (bind_inv _ _ _ _ _ H) as [(a & w0 & H0 & Hloop)|(e & _ & He)]; [|discriminate].
  pose proof (advances_ensure_output_root outp _ _ _ H0) as A0.
  destruct (for_each_reaches (advances outp) subfolders (process_subfolder inp outp S) sub
              (advances_refl outp) (advances_trans outp)
              (fun y Hy => advances_process_subfolder inp outp S y Hy) Hsub w0 w' Hloop)
    as (ws1 & ws2 & A1 & Hs & A2).
  pose proof (advances_trans _ _ _ _ A0 A1) as As.
  assert (Hdir1 : is_dir (w_fs ws1) (inp ++ [sub]) = true)
    by (apply (is_dir_grows (w_fs w)); [apply As|exact Hdir]).
  assert (Hpe1 : path_exists (w_fs ws1) (inp ++ [sub]) = true)
    by (unfold path_exists; rewrite Hdir1; reflexivity).
  rewrite (process_subfolder_present _ _ _ _ _ Hpe1) in Hs.
  unfold listdir in Hs. rewrite Hdir1 in Hs.
  assert (Hin1 : fs_files (w_fs ws1) !! (inp ++ [sub; f]) = Some content)
    by (apply (grows_lookup (w_fs w)); [apply As|exact Hin]).
  assert (Hlisted : In f (List.filter is_image_name (children (w_fs ws1) (inp ++ [sub])))).
  { apply filter_In. split; [|exact Himg].
    apply (children_file _ _ _ content).
    change [sub; f] with ([sub] ++ [f]) in Hin1. rewrite app_assoc in Hin1. exact Hin1. }
  destruct (for_each_reaches (advances outp) _ (process_file inp outp S sub) f
              (advances_refl outp) (advances_trans outp)
              (fun y Hy => advances_process_file inp outp S sub y Hsub
                             (proj2 (proj1 (filter_In _ _ _) Hy)))
              Hlisted _ _ Hs)
    as (wf1 & wf2 & B1 & Hf & B2).
  simpl in B1.
  pose proof (advances_trans _ _ _ _ As B1) as Af.
  assert (Hsaved : path_exists (w_fs wf2) (outp ++ [sub; f]) = true).
  { apply (good_image_saved inp outp S sub f wf1 wf2 content im tr cl bytes Hf);
      try assumption.
    - apply (unobstructed_advances outp sub (w_fs w)); assumption.
    - apply (grows_lookup (w_fs w)); [apply Af|exact Hin]. }
  apply (path_exists_grows (w_fs wf2)); [|exact Hsaved].
  apply (grows_trans _ (w_fs ws2)); [apply B2|apply A2].
Qed.

End Completeness.

(** ** The outcomes on the sample trees *)

Lemma sample_pipeline_ok :
  exists tr cl,
    trim_and_resize (B := ref_backend) (white 2 3) 2 = Ok tr /\
    apply_clahe (B := ref_backend) tr = Ok cl.
Proof.
  assert (Hok : is_ok (rbind (trim_and_resize (B := ref_backend) (white 2 3) 2)
                         (apply_clahe (B := ref_backend))) = true)
    by (vm_compute; reflexivity).
  destruct (trim_and_resize (B := ref_backend) (white 2 3) 2) as [tr|e]; [|discriminate].
  unfold rbind in Hok.
  destruct (apply_clahe (B := ref_backend) tr) as [cl|e] eqn:Hcl; [|discriminate].
  exists tr, cl. split; [reflexivity|exact Hcl].
Qed.

Lemma process_file_saves_witness :
  exists w', process_file (B := ref_backend) ["in"] ["out"] 2 "0" "a.PNG" sample_world
               = (Ok tt, w') /\
    fs_files (w_fs w') = <[ ["out"; "0"; "a.PNG"] := [Byte.x01] ]> (fs_files sample_fs) /\
    printed (w_trace w') = ["Processed and saved: out/0/a.PNG"].
Proof.
  assert (He : path_exists (w_fs sample_world) (["out"] ++ ["0"; "a.PNG"]) = false)
    by (vm_compute; reflexivity).
  assert (Hmk : is_ok (makedirs (["out"] ++ ["0"]) (w_fs sample_world)) = true)
    by (vm_compute; reflexivity).
  assert (Hsub : is_dir (w_fs sample_world) (["out"] ++ ["0"]) = true \/
                 (exists fs', makedirs (["out"] ++ ["0"]) (w_fs sample_world) = Ok fs')).
  { right. destruct (makedirs (["out"] ++ ["0"]) (w_fs sample_world)) as [fs'|e];
      [|discriminate]. exists fs'. reflexivity. }
  assert (Hread : imread (B := ref_backend) (w_fs sample_world) (["in"] ++ ["0"; "a.PNG"])
                  = Ok (Some (white 2 3))) by (vm_compute; reflexivity).
  destruct sample_pipeline_ok as (tr & cl & Htr & Hcl).
  destruct (process_file_saves (B := ref_backend) ["in"] ["out"] 2 "0" "a.PNG" sample_world
              (white 2 3) tr cl [Byte.x01] He Hsub Hread Htr Hcl eq_refl)
    as (w' & H & Hf & Hp & _).
  exists w'. split; [exact H|]. split; [exact Hf|exact Hp].
Defined.

Lemma saved_message_without_file_witness :
  exists w', process_file (B := ref_backend) ["in"] ["out"] 2 "0" "a.PNG"
               (mk_world clogged_fs []) = (Ok tt, w') /\
    w_fs w' = clogged_fs /\
    path_exists (w_fs w') ["out"; "0"; "a.PNG"] = false /\
    printed (w_trace w') = ["Processed and saved: out/0/a.PNG"].
Proof.
  assert (He : path_exists clogged_fs (["out"] ++ ["0"; "a.PNG"]) = false)
    by (vm_compute; reflexivity).
  assert (Hfile : is_file clogged_fs (["out"] ++ ["0"]) = true) by (vm_compute; reflexivity).
  assert (Hdir : is_dir clogged_fs (["out"] ++ ["0"]) = false) by (vm_compute; reflexivity).
  assert (Hread : imread (B := ref_backend) clogged_fs (["in"] ++ ["0"; "a.PNG"])
                  = Ok (Some (white 2 3))) by (vm_compute; reflexivity).
  destruct sample_pipeline_ok as (tr & cl & Htr & Hcl).
  destruct (saved_message_without_file (B := ref_backend) ["in"] ["out"] 2 "0" "a.PNG"
              (mk_world clogged_fs []) (white 2 3) tr cl [Byte.x01]
              He Hfile Hdir Hread Htr Hcl eq_refl)
    as (w' & H & Hfs & Hne & Hp).
  exists w'. split; [exact H|]. split; [exact Hfs|]. split; [exact Hne|exact Hp].
Defined.

Lemma run_writes_only_outputs_witness :
  fs_files sample_fs !! ["out"; "0"; "a.PNG"] = None /\
  mirrored_output ["out"] ["out"; "0"; "a.PNG"].
Proof.
  assert (Hw : fs_files (w_fs (snd (process_and_save_images (B := ref_backend)
                                      ["in"] ["out"] 2 sample_world)))
                 !! ["out"; "0"; "a.PNG"] = Some [Byte.x01])
    by (vm_compute; reflexivity).
  assert (Hs : fs_files (w_fs sample_world) !! ["out"; "0"; "a.PNG"] = None)
    by (vm_compute; reflexivity).
  destruct (process_and_save_images (B := ref_backend) ["in"] ["out"] 2 sample_world)
    as [r w'] eqn:H.
  destruct (run_writes_only_outputs (B := ref_backend) ["in"] ["out"] 2 sample_world r w' H)
    as [Hfiles _].
  apply Hfiles. intros Heq.
  assert (Hno : Some [Byte.x01] = @None (list Byte.byte))
    by (etransitivity; [symmetry; exact Hw|etransitivity; [exact Heq|exact Hs]]).
  discriminate.
Defined.

Lemma run_on_missing_subfolders_witness :
  exists w', process_and_save_images (B := ref_backend) ["in"] ["out"] 2 (mk_world bare_fs [])
               = (Ok tt, w') /\
    fs_files (w_fs w') = fs_files bare_fs /\
    printed (w_trace w') =
      ["Subfolder 0 does not exist. Skipping."; "Subfolder 1 does not exist. Skipping.";
       "Subfolder 2 does not exist. Skipping."; "Subfolder 3 does not exist. Skipping.";
       "Subfolder 4 does not exist. Skipping."; "Subfolder 5 does not exist. Skipping."].
Proof.
  assert (Hr : fst (ensure_dir ["out"] (mk_world bare_fs [])) = Ok tt)
    by (vm_compute; reflexivity).
  assert (Hmiss : forallb (fun sub => negb (path_exists
                     (w_fs (snd (ensure_dir ["out"] (mk_world bare_fs [])))) (["in"] ++ [sub])))
                    subfolders = true) by (vm_compute; reflexivity).
  destruct (ensure_dir ["out"] (mk_world bare_fs [])) as [r w1] eqn:H1.
  cbn [fst] in Hr. subst r.
  destruct (run_on_missing_subfolders (B := ref_backend) ["in"] ["out"] 2
              (mk_world bare_fs []) w1 H1) as (w' & H & _ & Hf & _ & Hp).
  - intros sub Hin. rewrite forallb_forall in Hmiss. specialize (Hmiss sub Hin).
    apply negb_true_iff in Hmiss. exact Hmiss.
  - exists w'. split; [exact H|]. split; [exact Hf|exact Hp].
Defined.

Lemma run_saves_good_images_witness :
  path_exists
    (w_fs (snd (process_and_save_images (B := ref_backend) ["in"] ["out"] 2 sample_world)))
    (["out"] ++ ["0"; "a.PNG"]) = true.
Proof.
  assert (Hr : fst (process_and_save_images (B := ref_backend) ["in"] ["out"] 2 sample_world)
               = Ok tt) by (vm_compute; reflexivity).
  destruct (process_and_save_images (B := ref_backend) ["in"] ["out"] 2 sample_world)
    as [r w'] eqn:H.
  simpl in Hr. subst r. simpl snd.
  destruct sample_pipeline_ok as (tr & cl & Htr & Hcl).
  apply (run_saves_good_images (B := ref_backend) ["in"] ["out"] 2 sample_world w'
           "0" "a.PNG" [Byte.x01] (white 2 3) tr cl [Byte.x01] H).
  - left. reflexivity.
  - vm_compute. reflexivity.
  - vm_compute. reflexivity.
  - vm_compute. reflexivity.
  - reflexivity.
  - exact Htr.
  - exact Hcl.
  - reflexivity.
  - intros n. destruct n as [|[|[|n]]]; vm_compute; intros Hn; congruence.
Defined.
